(** * Prevalence rate and bootstrap confidence intervals

    A shallow embedding of [src/mental_health/utils/prevelance_rate_CI.py]
    and the properties its specification states about it.

    Python [int] is [Z]; Python [float] is IEEE 754 binary64, taken from the
    standard library's [SpecFloat] with its own operations; a pandas
    [DataFrame] of survey answers is a list of rows; the module level logger
    and [logging.disable] are an explicit world threaded through every call;
    exceptions are a result type. *)

From Stdlib Require Import ZArith List String Bool Lia Arith PeanoNat.
From Stdlib Require Import Floats.SpecFloat.
From Stdlib Require Import Sorting.Mergesort Sorting.Sorted Sorting.Permutation.
Import ListNotations.

Local Open Scope Z_scope.

(** ** Exceptions *)

Inductive exn : Type :=
| ZeroDivisionError
| OverflowError
| ValueError
| IndexError.

Inductive result (A : Type) : Type :=
| Ok (a : A)
| Raise (e : exn).

Arguments Ok {A} a.
Arguments Raise {A} e.

Definition result_bind {A B : Type} (r : result A) (k : A -> result B) : result B :=
  match r with
  | Ok a => k a
  | Raise e => Raise e
  end.

(** ** Python floats: IEEE 754 binary64 *)

Module PyFloat.

Definition prec : Z := 53.
Definition emax : Z := 1024.

Definition float : Type := spec_float.

Definition float_mul : float -> float -> float := SFmul prec emax.
Definition float_add : float -> float -> float := SFadd prec emax.
Definition float_sub : float -> float -> float := SFsub prec emax.
Definition float_div : float -> float -> float := SFdiv prec emax.
Definition float_sqrt : float -> float := SFsqrt prec emax.
Definition float_abs : float -> float := SFabs.
Definition float_le : float -> float -> bool := SFleb.
Definition float_lt : float -> float -> bool := SFltb.
Definition float_eq : float -> float -> bool := SFeqb.

(** [float(z)] for an integer that fits: the conversion rounds to nearest,
    ties to even. *)
Definition float_of_int (z : Z) : float := binary_normalize prec emax z 0 false.

Definition is_nan (x : float) : bool :=
  match x with S754_nan => true | _ => false end.

Definition is_finite (x : float) : bool :=
  match x with S754_zero _ | S754_finite _ _ _ => true | _ => false end.

Definition is_zero (x : float) : bool :=
  match x with S754_zero _ => true | _ => false end.

(** The correctly rounded quotient of two positive integers, with the sign
    [s]: the division core of IEEE 754 run on the integers themselves. *)
Definition round_quotient (s : bool) (a b : Z) : float :=
  let '(q, e, l) := SFdiv_core_binary prec emax a 0 b 0 in
  binary_round_aux prec emax s q e l.

(** [a / b] on Python integers: true division gives the float nearest to
    the exact quotient, raises [ZeroDivisionError] on a zero divisor and
    [OverflowError] when the rounded quotient is out of the float range. *)
Definition int_truediv (a b : Z) : result float :=
  if b =? 0 then Raise ZeroDivisionError
  else
    match round_quotient (xorb (a <? 0) (b <? 0)) (Z.abs a) (Z.abs b) with
    | S754_infinity _ => Raise OverflowError
    | f => Ok f
    end.

(** [x / y] on Python floats raises on a zero divisor. *)
Definition float_truediv (x y : float) : result float :=
  if is_zero y then Raise ZeroDivisionError else Ok (float_div x y).

End PyFloat.

Import PyFloat.

(** ** Values of floats and exact rounding

    The definitions the proofs about [SpecFloat]'s rounding are stated
    with. A float is measured in units of [2^-1074], the smallest positive
    binary64 value, so that every finite float is an integer. *)

Local Abbreviation fexp := (SpecFloat.fexp prec emax).

(** The position of a remainder [r] of a division by [D] relative to the
    midpoint. *)
Definition loc (D r : Z) : location :=
  if r =? 0 then loc_Exact else loc_Inexact (2 * r ?= D).

(** A shift record holds the truncated quotient [N / D] and the position of
    what was cut off. *)
Definition located (N D : Z) (mrs : shr_record) : Prop :=
  shr_m mrs = N / D /\ loc_of_shr_record mrs = loc D (N mod D).

(** [N / D] rounded to the nearest integer, ties to even. *)
Definition Zrne (N D : Z) : Z :=
  let q := N / D in
  match 2 * (N mod D) ?= D with
  | Lt => q
  | Eq => if Z.even q then q else q + 1
  | Gt => q + 1
  end.

(** What [binary_round_aux] computes from the truncated quotient [N / D] at
    exponent [e]. *)
Definition round_spec (s : bool) (N D e : Z) : float :=
  let e1 := Z.max e (fexp (Zdigits2 (N / D) + e)) in
  let m1 := Zrne N (D * 2 ^ (e1 - e)) in
  let e2 := Z.max e1 (fexp (Zdigits2 m1 + e1)) in
  match m1 / 2 ^ (e2 - e1) with
  | Z0 => S754_zero s
  | Zpos m => if e2 <=? emax - prec then S754_finite s m e2 else S754_infinity s
  | Zneg _ => S754_nan
  end.

(** The float with mantissa [m1], at most [2^53], and exponent [e1]. *)
Definition pack (s : bool) (m1 e1 : Z) : float :=
  let e2 := if m1 =? 2 ^ 53 then e1 + 1 else e1 in
  let m2 := if m1 =? 2 ^ 53 then 2 ^ 52 else m1 in
  match m2 with
  | Z0 => S754_zero s
  | Zpos m => if e2 <=? emax - prec then S754_finite s m e2 else S754_infinity s
  | Zneg _ => S754_nan
  end.

(** The value of an infinity on the integer scale: [2^1024] in units of
    [2^-1074]. *)
Definition top : Z := 2 ^ 2098.

(** The value of a float in units of [2^-1074]. *)
Definition F2Z (f : float) : Z :=
  match f with
  | S754_zero _ => 0
  | S754_finite s m e => cond_Zopp s (Z.pos m * 2 ^ (e + 1074))
  | S754_infinity s => cond_Zopp s top
  | S754_nan => 0
  end.

(** The floats a Python program holds: canonical mantissa and exponent in
    range. [wf] also excludes NaN. *)
Definition wf (f : float) : Prop :=
  valid_binary prec emax f = true /\ is_nan f = false.

(** [A / B], a non-negative number of units, rounded to 53 significant
    bits (fewer below the smallest normal float). *)
Definition RN (A B : Z) : Z :=
  let sh := Z.max (Zdigits2 (A / B) - 53) 0 in
  Zrne A (B * 2 ^ sh) * 2 ^ sh.

(** Rounding of a signed fraction, saturating at the infinities. *)
Definition rnd (A B : Z) : Z := Z.sgn A * Z.min (RN (Z.abs A) B) top.

(** The float nearest to [num / den] units of [2^-1074]. *)
Definition round_ratio (num den : Z) : float :=
  round_quotient (num <? 0) (Z.abs num) (den * 2 ^ 1074).

Definition float_zero : float := S754_zero false.
Definition float_one : float := S754_finite false 4503599627370496 (-52).

(** [0.0 <= x <= 1.0] *)
Definition in_unit_interval (x : float) : bool :=
  float_le float_zero x && float_le x float_one.

(** Values a Python variable holds in [calculate_prevalence_rate]:
    [condition_rate] is a float on one branch and the integer [0] on the
    other. *)
Inductive pynum : Type :=
| PInt (z : Z)
| PFloat (f : float).

(** [x * n] for a float [x]: an integer operand is converted first. *)
Definition float_mul_num (x : float) (n : pynum) : float :=
  match n with
  | PInt z => float_mul x (float_of_int z)
  | PFloat y => float_mul x y
  end.

(** ** The logger *)

Definition NOTSET : Z := 0.
Definition DEBUG : Z := 10.
Definition INFO : Z := 20.
Definition WARNING : Z := 30.
Definition ERROR : Z := 40.

Inductive log_arg : Type :=
| AInt (z : Z)
| ANum (n : pynum)
| AFloat (f : float)
| AStr (s : string).

(** One call of a logger method: its level, its message template and the
    values formatted into it. [shown] tells whether the record passed
    [logging.disable] and the logger's level. *)
Record LogRecord : Type := mkLogRecord {
  lr_level : Z;
  lr_msg : string;
  lr_args : list log_arg;
  lr_shown : bool
}.

(** The process wide logging state: the level set by [logging.disable] and
    the calls made so far, oldest first. [logs.py] configures the root
    logger at [INFO]. *)
Record World : Type := mkWorld {
  disabled : Z;
  trace : list LogRecord
}.

Definition initial_world : World := mkWorld NOTSET [].

(** ** Computations: world passing with exceptions *)

Definition M (A : Type) : Type := World -> result A * World.

Definition ret {A : Type} (a : A) : M A := fun w => (Ok a, w).

Definition bind {A B : Type} (m : M A) (k : A -> M B) : M B :=
  fun w =>
    match m w with
    | (Ok a, w') => k a w'
    | (Raise e, w') => (Raise e, w')
    end.

Definition lift {A : Type} (r : result A) : M A := fun w => (r, w).

Declare Scope py_scope.
Delimit Scope py_scope with py.
Notation "x <- m ;; k" := (bind m (fun x => k))
  (at level 61, m at next level, right associativity) : py_scope.
Notation "m ;; k" := (bind m (fun _ => k))
  (at level 61, right associativity) : py_scope.
Notation "' pat <- m ;; k" := (bind m (fun x => match x with pat => k end))
  (at level 61, pat pattern, m at next level, right associativity) : py_scope.

Local Open Scope py_scope.

(** [logger.isEnabledFor(lvl)]: not disabled, and at least the level
    [INFO] that [logs.py] configures. *)
Definition is_enabled_for (w : World) (lvl : Z) : bool :=
  negb (lvl <=? disabled w) && (INFO <=? lvl).

(** [logger.info], [logger.warning] and [logger.error] append one record
    to the trace. *)
Definition logger_log (lvl : Z) (msg : string) (args : list log_arg) : M unit :=
  fun w =>
    (Ok tt,
     mkWorld (disabled w)
             (trace w ++ [mkLogRecord lvl msg args (is_enabled_for w lvl)])).

Definition logger_info := logger_log INFO.
Definition logger_warning := logger_log WARNING.
Definition logger_error := logger_log ERROR.

(** [logging.disable(lvl)] *)
Definition logging_disable (lvl : Z) : M unit :=
  fun w => (Ok tt, mkWorld lvl (trace w)).

(** ** The prevalence estimator *)

(** [calculate_prevalence_rate(population, diagnosed_cases,
    total_condition_reports, specific_condition_count)] *)
Definition calculate_prevalence_rate
  (population diagnosed_cases total_condition_reports specific_condition_count : Z)
  : M float :=
  logger_info "Calculating prevalence rate for a specific mental health condition." [] ;;
  if population =? 0 then
    logger_error "Population cannot be zero." [] ;;
    ret (S754_zero false)
  else
    (if diagnosed_cases >? population
     then logger_warning "Diagnosed cases exceed the total population. Check data." []
     else ret tt) ;;
    diagnosis_rate <- lift (int_truediv diagnosed_cases population) ;;
    condition_rate <-
      (if total_condition_reports >? 0
       then f <- lift (int_truediv specific_condition_count total_condition_reports) ;;
            ret (PFloat f)
       else ret (PInt 0)) ;;
    let prevalence_rate := float_mul_num diagnosis_rate condition_rate in
    logger_info "Diagnosis Rate: %.5f" [AFloat diagnosis_rate] ;;
    logger_info "Condition Rate: %.5f" [ANum condition_rate] ;;
    logger_info "Prevalence Rate: %.5f" [AFloat prevalence_rate] ;;
    ret prevalence_rate.

(** ** Survey data *)

Record Row : Type := mkRow {
  SurveyID : Z;
  questiontext : string;
  AnswerText : string
}.

Definition DataFrame : Type := list Row.

Definition main_question : string :=
  "Do you currently have a mental health disorder?".
Definition follow_up_question : string :=
  "If yes, what condition(s) have you been diagnosed with?".

(** [df[mask]] and [len(df)]. *)
Definition select (p : Row -> bool) (df : DataFrame) : DataFrame := filter p df.
Definition len (df : DataFrame) : Z := Z.of_nat (List.length df).

Definition in_2016 (r : Row) : bool := SurveyID r =? 2016.
Definition is_main (r : Row) : bool := String.eqb (questiontext r) main_question.
Definition is_follow_up (r : Row) : bool :=
  String.eqb (questiontext r) follow_up_question.
Definition answers (a : string) (r : Row) : bool := String.eqb (AnswerText r) a.

(** [calculate_disorder_prevalence(df, disorder_name)] *)
Definition calculate_disorder_prevalence (df : DataFrame) (disorder_name : string)
  : M float :=
  let df_2016 := select in_2016 df in
  let population := len (select is_main df_2016) in
  logger_info "Total Population: {population}" [AInt population] ;;
  let diagnosed_cases :=
    len (select (fun r => is_main r && answers "Yes" r) df_2016) in
  logger_info "Diagnosed Cases: {diagnosed_cases}" [AInt diagnosed_cases] ;;
  let total_condition_reports := len (select is_follow_up df_2016) in
  logger_info "Total Condition Reports: {total_condition_reports}"
              [AInt total_condition_reports] ;;
  let disorder_reports :=
    len (select (fun r => is_follow_up r && answers disorder_name r) df_2016) in
  logger_info "{disorder_name} Reports: {disorder_reports}"
              [AStr disorder_name; AInt disorder_reports] ;;
  prevalence_rate <-
    calculate_prevalence_rate population diagnosed_cases
                              total_condition_reports disorder_reports ;;
  logger_info "Final Prevalence Rate: {prevalence_rate:.2f}" [AFloat prevalence_rate] ;;
  ret prevalence_rate.

(** The four counts [calculate_disorder_prevalence] derives, in the order
    it passes them on. *)
Definition disorder_counts (df : DataFrame) (disorder_name : string)
  : Z * Z * Z * Z :=
  let df_2016 := select in_2016 df in
  (len (select is_main df_2016),
   len (select (fun r => is_main r && answers "Yes" r) df_2016),
   len (select is_follow_up df_2016),
   len (select (fun r => is_follow_up r && answers disorder_name r) df_2016)).

(** ** The random generator *)

(** Modelled from the spec: [numpy.random.RandomState] is numpy's and not
    part of the repository. The spec asks for a seeded pseudo-random
    generator that is threaded through the draws, so a generator is a
    state, a way to seed it, and [choice(a, size, replace=True)], which
    draws [size] indices below [a] and moves the state on. *)
Class RandomState : Type := {
  rng : Type;
  rng_seed : Z -> rng;
  rng_choice : rng -> nat -> nat -> list nat * rng
}.

(** What [choice] promises: [size] indices, each below [a]. *)
Definition rng_lawful (RS : RandomState) : Prop :=
  (forall g a size, List.length (fst (rng_choice g a size)) = size) /\
  (forall g a size, (0 < a)%nat ->
     Forall (fun i => (i < a)%nat) (fst (rng_choice g a size))).

(** A linear congruential generator, to run the model on. *)
Definition lcg_next (g : Z) : Z := (g * 1103515245 + 12345) mod 2147483648.

(** [size] draws below [a], each from the next state. *)
Fixpoint lcg_choice (g : Z) (a size : nat) : list nat * Z :=
  match size with
  | O => ([], g)
  | S k =>
      let '(l, g') := lcg_choice (lcg_next g) a k in
      (Z.to_nat (lcg_next g mod Z.of_nat a) :: l, g')
  end.

(** The generator the examples run on. *)
Definition LCG : RandomState :=
  {| rng := Z; rng_seed := fun seed => seed; rng_choice := lcg_choice |}.

Section Bootstrap.

Context {RS : RandomState}.

(** Modelled from the spec: the constructor [np.random.RandomState(seed)]
    is numpy's; it seeds the generator once and accepts seeds of 32 bits
    only. *)
Definition np_random_RandomState (seed : Z) : result rng :=
  if (0 <=? seed) && (seed <? 2 ^ 32) then Ok (rng_seed seed) else Raise ValueError.

(** Modelled from the spec: [df.take(indices)] is pandas's; the rows at
    the given positions, in that order. *)
Definition take (df : DataFrame) (idx : list nat) : DataFrame :=
  flat_map (fun i => match nth_error df i with Some r => [r] | None => [] end) idx.

(** Modelled from the spec: [df.sample(n=n, replace=True, random_state=g)]
    is pandas's; a sample of [n] rows drawn with replacement by the
    generator it is given. pandas refuses a negative [n], numpy refuses to
    draw from an empty population. *)
Definition DataFrame_sample (df : DataFrame) (n : Z) (g : rng)
  : result (DataFrame * rng) :=
  if n <? 0 then Raise ValueError
  else if (len df =? 0) && (0 <? n) then Raise ValueError
  else
    let '(idx, g') := rng_choice g (List.length df) (Z.to_nat n) in
    Ok (take df idx, g').

(** [sample_size if sample_size else len(group)]: [None] and [0] are both
    false. *)
Definition sample_n (sample_size : option Z) (group : DataFrame) : Z :=
  match sample_size with
  | Some z => if z =? 0 then len group else z
  | None => len group
  end.

(** The two draws of one iteration, from the same generator. *)
Definition draw_samples (main_question_df follow_up_df : DataFrame)
  (sample_size : option Z) (g : rng) : result (DataFrame * DataFrame * rng) :=
  result_bind (DataFrame_sample main_question_df
                 (sample_n sample_size main_question_df) g)
    (fun '(bootstrap_main, g1) =>
  result_bind (DataFrame_sample follow_up_df
                 (sample_n sample_size follow_up_df) g1)
    (fun '(bootstrap_follow_up, g2) =>
  Ok (bootstrap_main, bootstrap_follow_up, g2))).

(** The loop [for _ in range(n_iterations)], on the iterations left. *)
Fixpoint bootstrap_loop (iterations : nat)
  (main_question_df follow_up_df : DataFrame) (disorder_name : string)
  (sample_size : option Z) (g : rng) (bootstrap_rates : list float)
  : M (list float) :=
  match iterations with
  | O => ret bootstrap_rates
  | S k =>
      '(bootstrap_main, bootstrap_follow_up, g') <-
        lift (draw_samples main_question_df follow_up_df sample_size g) ;;
      logger_info "Bootstrap Main length: {len(bootstrap_main)}"
                  [AInt (len bootstrap_main)] ;;
      logger_info "Bootstrap Follow-up length: {len(bootstrap_follow_up)}"
                  [AInt (len bootstrap_follow_up)] ;;
      let temp_df := bootstrap_main ++ bootstrap_follow_up in
      bootstrap_rate <- calculate_disorder_prevalence temp_df disorder_name ;;
      bootstrap_loop k main_question_df follow_up_df disorder_name sample_size g'
                     (bootstrap_rates ++ [bootstrap_rate])
  end.

(** [bootstrap_prevalence_rate(df, disorder_name, n_iterations,
    sample_size, random_state)] *)
Definition bootstrap_prevalence_rate (df : DataFrame) (disorder_name : string)
  (n_iterations : Z) (sample_size : option Z) (random_state : Z)
  : M (float * list float) :=
  original_rate <- calculate_disorder_prevalence df disorder_name ;;
  let df_2016 := select in_2016 df in
  let main_question_df := select is_main df_2016 in
  let follow_up_df := select is_follow_up df_2016 in
  g <- lift (np_random_RandomState random_state) ;;
  bootstrap_rates <-
    bootstrap_loop (Z.to_nat n_iterations) main_question_df follow_up_df
                   disorder_name sample_size g [] ;;
  ret (original_rate, bootstrap_rates).

End Bootstrap.

(** ** numpy's reductions *)

(** Modelled from the spec: the order statistics of [np.percentile] are the
    data sorted by the float order, here by an insertion sort. *)
Fixpoint insert_sorted (x : float) (l : list float) : list float :=
  match l with
  | [] => [x]
  | y :: l' => if float_le x y then x :: l else y :: insert_sorted x l'
  end.

(** Modelled from the spec: the sorted copy of the data that
    [np.percentile] works on. *)
Definition np_sort (a : list float) : list float := fold_right insert_sorted [] a.

(** The denominator of a virtual index: [q / 100] in units of [2^-1074]. *)
Definition rank_den : Z := 100 * 2 ^ 1074.

(** The linear interpolation between two neighbouring order statistics
    [lo] and [hi], a fraction [g / rank_den] of the way from one to the
    other, in exact arithmetic, as numerator over [rank_den]. *)
Definition lerp_num (lo hi : float) (g : Z) : Z :=
  F2Z lo * (rank_den - g) + F2Z hi * g.

(** Modelled from the spec: [np.percentile(a, q)] is numpy's and not part
    of the repository; the spec gives it as the empirical percentile by
    linear interpolation between order statistics. With numpy's
    documentation of the default method: [q] must lie in [0, 100]; a NaN in
    the data makes the result NaN; otherwise the result sits at the virtual
    index [q / 100 * (n - 1)] of the sorted data, interpolated linearly
    between the two neighbouring order statistics. The interpolation is
    evaluated exactly and rounded once to the nearest float; numpy rounds
    after each operation, which can differ in the last bit. Neighbours that
    are infinite go through the floating-point formula. What numpy does on
    an empty list depends on its version and is [IndexError] here. *)
Definition np_percentile (a : list float) (q : float) : result float :=
  if negb (float_le float_zero q && float_le q (float_of_int 100))
  then Raise ValueError
  else
    match a with
    | [] => Raise IndexError
    | _ :: _ =>
        if existsb is_nan a then Ok S754_nan
        else
          let s := np_sort a in
          let n := Z.of_nat (List.length a) in
          let virtual_index := F2Z q * (n - 1) in
          let i := virtual_index / rank_den in
          let g := virtual_index mod rank_den in
          let lo := nth (Z.to_nat i) s S754_nan in
          let hi := nth (Z.to_nat (Z.min (i + 1) (n - 1))) s S754_nan in
          if is_finite lo && is_finite hi
          then Ok (round_ratio (lerp_num lo hi g) rank_den)
          else Ok (float_add lo (float_mul (float_sub hi lo) (round_ratio g rank_den)))
    end.

(** Modelled from the spec: [np.sum] of a one-dimensional array is
    numpy's; the entries are added left to right (numpy adds pairwise on
    long arrays). *)
Definition np_sum (a : list float) : float := fold_left float_add a float_zero.

(** Modelled from the spec: [np.mean] is numpy's; the sum over the number
    of entries. *)
Definition np_mean (a : list float) : float :=
  float_div (np_sum a) (float_of_int (Z.of_nat (List.length a))).

(** Modelled from the spec: [np.var(a, ddof)] is numpy's; with its
    documentation, [mean(abs(a - a.mean())**2)] with the divisor
    [N - ddof]. *)
Definition np_var_ddof (ddof : Z) (a : list float) : float :=
  let mean := np_mean a in
  let x := map (fun v => let d := float_abs (float_sub v mean) in float_mul d d) a in
  float_div (np_sum x)
            (float_of_int (Z.max (Z.of_nat (List.length a) - ddof) 0)).

(** Modelled from the spec: [np.std(a, ddof)] is numpy's; the square root
    of the variance, and [ddof] is [0] unless given, which the spec calls
    the population standard deviation. *)
Definition np_std_ddof (ddof : Z) (a : list float) : float :=
  float_sqrt (np_var_ddof ddof a).

(** Modelled from the spec: [np.std(a)] is numpy's, with [ddof] left at its
    default [0]: the divisor is [N]. *)
Definition np_std (a : list float) : float := np_std_ddof 0 a.

(** ** Confidence interval and the complete analysis *)

(** [calculate_confidence_interval(bootstrap_rates, confidence_level)] *)
Definition calculate_confidence_interval (bootstrap_rates : list float)
  (confidence_level : float) : result (float * float) :=
  result_bind (float_truediv (float_sub (float_of_int 1) confidence_level)
                             (float_of_int 2))
    (fun lower_percentile =>
  let upper_percentile := float_sub (float_of_int 1) lower_percentile in
  result_bind (np_percentile bootstrap_rates
                 (float_mul lower_percentile (float_of_int 100)))
    (fun lower_bound =>
  result_bind (np_percentile bootstrap_rates
                 (float_mul upper_percentile (float_of_int 100)))
    (fun upper_bound =>
  Ok (lower_bound, upper_bound)))).

(** The dictionary [analyze_disorder_prevalence] returns. *)
Record BootstrapResult : Type := mkBootstrapResult {
  original_rate : float;
  confidence_interval : float * float;
  bootstrap_rates : list float;
  standard_error : float
}.

(** [analyze_disorder_prevalence(df, disorder_name, n_iterations,
    confidence_level, random_state)]; [sample_size] is left at [None]. *)
Definition analyze_disorder_prevalence {RS : RandomState}
  (df : DataFrame) (disorder_name : string) (n_iterations : Z)
  (confidence_level : float) (random_state : Z) : M BootstrapResult :=
  logging_disable INFO ;;
  '(original_rate, bootstrap_rates) <-
    bootstrap_prevalence_rate df disorder_name n_iterations None random_state ;;
  '(lower_bound, upper_bound) <-
    lift (calculate_confidence_interval bootstrap_rates confidence_level) ;;
  let standard_error := np_std bootstrap_rates in
  logging_disable NOTSET ;;
  logger_info "Original Prevalence Rate: %.2f" [AFloat original_rate] ;;
  logger_info "95%% Confidence Interval: (%.2f, %.2f)"
              [AFloat lower_bound; AFloat upper_bound] ;;
  logger_info "Standard Error: %.2f" [AFloat standard_error] ;;
  ret (mkBootstrapResult original_rate (lower_bound, upper_bound)
                         bootstrap_rates standard_error).

(** * Definitions the properties are stated with *)

Definition result_map {A B : Type} (f : A -> B) (r : result A) : result B :=
  match r with Ok a => Ok (f a) | Raise e => Raise e end.

(** The value [calculate_prevalence_rate] returns, without the logging. *)
Definition prevalence_value
  (population diagnosed_cases total_condition_reports specific_condition_count : Z)
  : result float :=
  if population =? 0 then Ok (S754_zero false)
  else
    result_bind (int_truediv diagnosed_cases population) (fun diagnosis_rate =>
    result_bind
      (if total_condition_reports >? 0
       then result_map PFloat
              (int_truediv specific_condition_count total_condition_reports)
       else Ok (PInt 0)) (fun condition_rate =>
    Ok (float_mul_num diagnosis_rate condition_rate))).

(** The records logged on the way from world [w] to world [w']. *)
Definition new_records (w w' : World) : list LogRecord :=
  skipn (List.length (trace w)) (trace w').

(** A record of the level [WARNING]. *)
Definition warns (r : LogRecord) : bool := lr_level r =? WARNING.

(** A computation is quiet when it leaves [logging.disable] alone and logs
    no warning, whatever the world it starts in. *)
Definition quiet {A : Type} (m : M A) : Prop :=
  forall w, disabled (snd (m w)) = disabled w /\
            exists new, trace (snd (m w)) = trace w ++ new /\
                        existsb warns new = false.

(** The sign bit of a float is [s]. *)
Definition has_sign (s : bool) (f : float) : Prop :=
  match f with
  | S754_zero s' | S754_infinity s' | S754_finite s' _ _ => s' = s
  | S754_nan => True
  end.

(** The largest finite float, [2^1024 - 2^971], as an integer. *)
Definition max_float_int : Z := 2 ^ 1024 - 2 ^ 971.

(** The floats [0.08] (the one nearest to 8/100, which the literal
    denotes) and its successor. *)
Definition float_0_08 : float := S754_finite false 5764607523034235 (-56).
Definition float_0_08_next : float := S754_finite false 5764607523034236 (-56).
Definition float_two : float := S754_finite false 4503599627370496 (-51).

(** The value [calculate_disorder_prevalence] returns, without the
    logging. *)
Definition disorder_prevalence_value (df : DataFrame) (disorder_name : string)
  : result float :=
  let '(population, diagnosed_cases, total_condition_reports, disorder_reports) :=
    disorder_counts df disorder_name in
  prevalence_value population diagnosed_cases total_condition_reports disorder_reports.

(** A rate: a finite float in [0, 1]. *)
Definition is_rate (r : float) : Prop :=
  wf r /\ is_finite r = true /\ in_unit_interval r = true.

Section BootstrapSpec.

Context {RS : RandomState}.

(** The resampled datasets of [iterations] iterations, in the order they are
    drawn: one generator, handed from the first draw of an iteration to the
    second and from there to the next iteration. *)
Fixpoint bootstrap_samples_from (iterations : nat)
  (main_question_df follow_up_df : DataFrame) (sample_size : option Z) (g : rng)
  : result (list DataFrame) :=
  match iterations with
  | O => Ok []
  | S k =>
      result_bind (draw_samples main_question_df follow_up_df sample_size g)
        (fun '(bootstrap_main, bootstrap_follow_up, g') =>
      result_map (cons (bootstrap_main ++ bootstrap_follow_up))
        (bootstrap_samples_from k main_question_df follow_up_df sample_size g'))
  end.

(** The rate of one resampled dataset. *)
Definition rate_of (disorder_name : string) (temp_df : DataFrame) : float :=
  match disorder_prevalence_value temp_df disorder_name with
  | Ok r => r
  | Raise _ => S754_nan
  end.

(** What [bootstrap_prevalence_rate] returns as a function of its
    arguments alone: the rate of the data, then the rates of the samples
    drawn from the generator seeded with [random_state]. *)
Definition bootstrap_value (df : DataFrame) (disorder_name : string)
  (n_iterations : Z) (sample_size : option Z) (random_state : Z)
  : result (float * list float) :=
  result_bind (disorder_prevalence_value df disorder_name) (fun original_rate =>
  result_bind (np_random_RandomState random_state) (fun g =>
  let df_2016 := select in_2016 df in
  result_map (fun samples => (original_rate, map (rate_of disorder_name) samples))
    (bootstrap_samples_from (Z.to_nat n_iterations) (select is_main df_2016)
       (select is_follow_up df_2016) sample_size g))).

End BootstrapSpec.

(** A finite float a Python program can hold. *)
Definition finite_float (x : float) : Prop := wf x /\ is_finite x = true.

Definition float_half : float := S754_finite false 4503599627370496 (-53).
Definition float_50 : float := S754_finite false 7036874417766400 (-47).
Definition float_100 : float := S754_finite false 7036874417766400 (-46).

(** The value of the linear interpolation at the virtual index
    [T / rank_den] of the sorted data [s], as a numerator over
    [rank_den]. *)
Definition interpolate (s : list float) (T : Z) : Z :=
  let n := Z.of_nat (List.length s) in
  let i := T / rank_den in
  let g := T mod rank_den in
  lerp_num (nth (Z.to_nat i) s S754_nan)
           (nth (Z.to_nat (Z.min (i + 1) (n - 1))) s S754_nan) g.

(** Sorted by value. *)
Definition sorted_values (s : list float) : Prop :=
  forall i j : nat, (i <= j < List.length s)%nat ->
    F2Z (nth i s S754_nan) <= F2Z (nth j s S754_nan).

(** The order of the values. *)
Definition le_value (x y : float) : Prop := F2Z x <= F2Z y.

(** The population standard deviation in the specification's words: the
    square root of the sum of squared deviations from the mean, divided by
    [N]. *)
Definition population_std (a : list float) : float :=
  let N := float_of_int (Z.of_nat (List.length a)) in
  let mean := float_div (np_sum a) N in
  float_sqrt
    (float_div
       (np_sum (map (fun v => float_mul (float_sub v mean) (float_sub v mean)) a))
       N).

(** The sample standard deviation, which divides by [N - 1]. *)
Definition sample_std (a : list float) : float :=
  let N := float_of_int (Z.of_nat (List.length a)) in
  let mean := float_div (np_sum a) N in
  float_sqrt
    (float_div
       (np_sum (map (fun v => float_mul (float_sub v mean) (float_sub v mean)) a))
       (float_of_int (Z.of_nat (List.length a) - 1))).

(** What [analyze_disorder_prevalence] returns as a function of its
    arguments alone. *)
Definition analysis_value {RS : RandomState} (df : DataFrame) (disorder_name : string)
  (n_iterations : Z) (confidence_level : float) (random_state : Z)
  : result BootstrapResult :=
  result_bind (bootstrap_value df disorder_name n_iterations None random_state)
    (fun '(original_rate, rates) =>
  result_bind (calculate_confidence_interval rates confidence_level)
    (fun interval =>
  Ok (mkBootstrapResult original_rate interval rates (np_std rates)))).

Definition float_0_95 : float := S754_finite false 8556839292003942 (-53).
Definition float_0_8 : float := S754_finite false 7205759403792794 (-53).
Definition float_0_1 : float := S754_finite false 7205759403792794 (-56).
Definition float_0_2 : float := S754_finite false 7205759403792794 (-55).
Definition float_0_3 : float := S754_finite false 5404319552844595 (-54).
Definition float_0_4 : float := S754_finite false 7205759403792794 (-54).

(** The rates of the specification's scenario: 0.1, 0.2, 0.3, 0.4, 0.5. *)
Definition scenario_rates : list float :=
  [float_0_1; float_0_2; float_0_3; float_0_4; float_half].

(** A small survey: three answers to the main question, two follow-ups and
    one row of another year. *)
Definition example_df : DataFrame :=
  [mkRow 2016 main_question "Yes"; mkRow 2016 main_question "No";
   mkRow 2016 main_question "Yes"; mkRow 2016 follow_up_question "Anxiety";
   mkRow 2016 follow_up_question "Mood"; mkRow 2017 main_question "Yes"].

(** * Answer tables: [data_processing.py] and [plots.py] *)

(** ** Exceptions and results of the table functions *)

(** The values a column holds, and the labels of a [Series]: [SurveyID]
    is an integer, the other two columns are strings. *)
Inductive cell : Type :=
| CInt (z : Z)
| CStr (s : string).

(** The exceptions of the table and chart functions: the built-in ones,
    and [KeyError] with the label that was not found. *)
Inductive py_exn : Type :=
| Builtin (e : exn)
| KeyError (label : cell).

Inductive outcome (A : Type) : Type :=
| Returns (a : A)
| Raises (e : py_exn).

Arguments Returns {A} a.
Arguments Raises {A} e.

Definition outcome_bind {A B : Type} (r : outcome A) (k : A -> outcome B) : outcome B :=
  match r with
  | Returns a => k a
  | Raises e => Raises e
  end.

(** ** numpy's 64-bit integers *)

(** Modelled from the spec: the counts and sums of a table are numpy's
    [int64]; its arithmetic wraps around at [2^63]. *)
Definition wrap64 (z : Z) : Z := (z + 2 ^ 63) mod 2 ^ 64 - 2 ^ 63.

(** Modelled from the spec: [a + b] on numpy's [int64]. *)
Definition int64_add (a b : Z) : Z := wrap64 (a + b).

(** Modelled from the spec: [Series.sum()] of an integer column is
    pandas's; [0] on an empty column. *)
Definition int64_sum (l : list Z) : Z := fold_left int64_add l 0.

(** Modelled from the spec: [a / b] with an [int64] operand is numpy's
    true division: both operands are converted to floats and divided as
    floats; a zero divisor gives an infinity or NaN, not an exception. *)
Definition int64_truediv (a b : Z) : float :=
  float_div (float_of_int a) (float_of_int b).

(** A number as a float, as numpy converts it when an array holds floats
    and integers. *)
Definition num_to_float (n : pynum) : float :=
  match n with
  | PInt z => float_of_int z
  | PFloat f => f
  end.

Definition is_float (n : pynum) : bool :=
  match n with PFloat _ => true | PInt _ => false end.

(** Modelled from the spec: a column or [Series] built from numbers is
    pandas's; it has one type: floats as soon as one entry is a float,
    integers otherwise. *)
Definition common_dtype (values : list pynum) : pynum -> pynum :=
  if existsb is_float values then (fun n => PFloat (num_to_float n)) else (fun n => n).

(** ** Grouping *)

Definition cell_eqb (a b : cell) : bool :=
  match a, b with
  | CInt x, CInt y => x =? y
  | CStr x, CStr y => String.eqb x y
  | _, _ => false
  end.

(** The order of the values of one column: integers by value, strings as
    Python compares them, character by character. One column never holds
    both. *)
Definition cell_leb (a b : cell) : bool :=
  match a, b with
  | CInt x, CInt y => x <=? y
  | CStr x, CStr y => String.leb x y
  | CInt _, CStr _ => true
  | CStr _, CInt _ => false
  end.

(** [df[name]] row by row, for the three columns of the survey table. *)
Definition column (name : string) : option (Row -> cell) :=
  if String.eqb name "SurveyID" then Some (fun r => CInt (SurveyID r))
  else if String.eqb name "questiontext" then Some (fun r => CStr (questiontext r))
  else if String.eqb name "AnswerText" then Some (fun r => CStr (AnswerText r))
  else None.

Section GroupBy.

Context {K : Type} (key_eqb key_leb : K -> K -> bool).

(** Modelled from the spec: [Series.unique()] is pandas's; the distinct
    values in the order of their first appearance. *)
Fixpoint unique (l : list K) : list K :=
  match l with
  | [] => []
  | k :: l' => k :: filter (fun k' => negb (key_eqb k' k)) (unique l')
  end.

Fixpoint insert_key (k : K) (l : list K) : list K :=
  match l with
  | [] => [k]
  | k' :: l' => if key_leb k k' then k :: l else k' :: insert_key k l'
  end.

(** Modelled from the spec: the group keys of [groupby] are pandas's; the
    distinct keys in ascending order. *)
Definition group_keys (keys : list K) : list K :=
  fold_right insert_key [] (unique keys).

(** Modelled from the spec: [groupby(keys).size().reset_index(name=...)]
    is pandas's; one row per key that occurs, in ascending order of the
    keys, with the number of rows that hold the key, an [int64]. *)
Definition groupby_size (keys : list K) : list (K * Z) :=
  map (fun k => (k, wrap64 (Z.of_nat (List.length (filter (key_eqb k) keys)))))
      (group_keys keys).

(** Modelled from the spec: [groupby(key)[column].sum()] is pandas's; a
    [Series] with one entry per key that occurs, in ascending order of the
    keys, holding the sum of the column over the rows of that key. *)
Definition groupby_sum {R : Type} (key : R -> K) (value : R -> Z) (rows : list R)
  : list (K * Z) :=
  map (fun k => (k, int64_sum (map value (filter (fun r => key_eqb (key r) k) rows))))
      (group_keys (map key rows)).

(** [series[label]] *)
Fixpoint series_loc {V : Type} (series : list (K * V)) (label : K) : option V :=
  match series with
  | [] => None
  | (k, v) :: series' => if key_eqb k label then Some v else series_loc series' label
  end.

End GroupBy.

(** Keys made of two columns, compared column by column. *)
Definition pair_eqb {A B : Type} (eqa : A -> A -> bool) (eqb : B -> B -> bool)
  (x y : A * B) : bool :=
  eqa (fst x) (fst y) && eqb (snd x) (snd y).

Definition pair_leb {A B : Type} (eqa lea : A -> A -> bool) (leb : B -> B -> bool)
  (x y : A * B) : bool :=
  if eqa (fst x) (fst y) then leb (snd x) (snd y) else lea (fst x) (fst y).

(** Modelled from the spec: [DataFrame.apply(f, axis=1)] is pandas's; [f]
    on every row in turn, stopping at the first exception. *)
Fixpoint apply_rows {A B : Type} (f : A -> outcome B) (rows : list A)
  : outcome (list B) :=
  match rows with
  | [] => Returns []
  | row :: rows' =>
      outcome_bind (f row) (fun b =>
      outcome_bind (apply_rows f rows') (fun bs => Returns (b :: bs)))
  end.

(** ** Null answers per question *)

(** The rows of [response_counts]: a question, one of its answers, and
    how often it was given. *)
Module ResponseCounts.
Record row : Type := mk {
  questiontext : string;
  AnswerText : string;
  count : Z
}.
End ResponseCounts.

(** The rows of the table [analyze_null_values] returns. *)
Module NullAnalysis.
Record row : Type := mk {
  questiontext : string;
  null_count : Z;
  other_count : Z;
  total_count : Z;
  null_proportion : pynum
}.
End NullAnalysis.

(** Modelled from the spec: [sort_values(by, ascending)] is pandas's. It
    sorts the rows by one column and, with the sorting method it uses by
    default, promises nothing about the order of rows with equal keys; so
    the sort is an interface, and what it promises is [sort_values_lawful]
    below. *)
Class SortValues : Type := {
  sort_values : forall A : Type, (A -> float) -> bool -> list A -> list A
}.

(** The order [sort_values] establishes between a row and a later one. *)
Definition in_order {A : Type} (by_column : A -> float) (ascending : bool) (a b : A)
  : Prop :=
  if ascending then le_value (by_column a) (by_column b)
  else le_value (by_column b) (by_column a).

(** What [sort_values] promises on a column without NaN: the same rows,
    in order. *)
Definition sort_values_lawful (SV : SortValues) : Prop :=
  forall (A : Type) (by_column : A -> float) (ascending : bool) (l : list A),
    Forall (fun a => wf (by_column a)) l ->
    Permutation (sort_values A by_column ascending l) l /\
    StronglySorted (in_order by_column ascending) (sort_values A by_column ascending l).

(** An insertion sort, to run the model on. *)
Fixpoint insert_row {A : Type} (by_column : A -> float) (ascending : bool)
  (a : A) (l : list A) : list A :=
  match l with
  | [] => [a]
  | b :: l' =>
      if (if ascending then float_le (by_column a) (by_column b)
          else float_le (by_column b) (by_column a))
      then a :: l
      else b :: insert_row by_column ascending a l'
  end.

Definition insertion_sort_values : SortValues :=
  {| sort_values := fun A by_column ascending l =>
                      fold_right (insert_row by_column ascending) [] l |}.

(** [df.groupby(["questiontext", "AnswerText"]).size().reset_index(name="count")] *)
Definition response_counts (df : DataFrame) : list ResponseCounts.row :=
  map (fun '((question, answer), n) => ResponseCounts.mk question answer n)
      (groupby_size (pair_eqb String.eqb String.eqb)
                    (pair_leb String.eqb String.leb String.leb)
                    (map (fun r => (questiontext r, AnswerText r)) df)).

(** [rows[rows["AnswerText"] == "-1"]] and [rows[rows["AnswerText"] != "-1"]] *)
Definition is_null_answer (r : ResponseCounts.row) : bool :=
  String.eqb (ResponseCounts.AnswerText r) "-1".

(** Modelled from the spec: [pd.DataFrame(rows)] on a list of dictionaries
    is pandas's; here it gives the column [null_proportion] its one
    type. *)
Definition pd_DataFrame (rows : list NullAnalysis.row) : list NullAnalysis.row :=
  let dtype := common_dtype (map NullAnalysis.null_proportion rows) in
  map (fun r => NullAnalysis.mk (NullAnalysis.questiontext r) (NullAnalysis.null_count r)
                  (NullAnalysis.other_count r) (NullAnalysis.total_count r)
                  (dtype (NullAnalysis.null_proportion r))) rows.

(** The body of the loop of [analyze_null_values]: the row of one
    question. *)
Definition null_analysis_row (response_counts : list ResponseCounts.row)
  (question : string) : NullAnalysis.row :=
  let question_data :=
    filter (fun r => String.eqb (ResponseCounts.questiontext r) question)
           response_counts in
  let null_count :=
    int64_sum (map ResponseCounts.count (filter is_null_answer question_data)) in
  let other_count :=
    int64_sum (map ResponseCounts.count
                   (filter (fun r => negb (is_null_answer r)) question_data)) in
  let total_count := int64_add null_count other_count in
  NullAnalysis.mk question null_count other_count total_count
    (if total_count >? 0 then PFloat (int64_truediv null_count total_count)
     else PInt 0).

(** [analyze_null_values(df)]. A table built from no rows has no columns,
    so sorting it by [null_proportion] raises [KeyError]. *)
Definition analyze_null_values {SV : SortValues} (df : DataFrame)
  : outcome (list NullAnalysis.row) :=
  let response_counts := response_counts df in
  let null_analysis :=
    map (null_analysis_row response_counts)
        (unique String.eqb (map ResponseCounts.questiontext response_counts)) in
  match null_analysis with
  | [] => Raises (KeyError (CStr "null_proportion"))
  | _ :: _ =>
      let result_df := pd_DataFrame null_analysis in
      Returns (sort_values NullAnalysis.row
                 (fun r => num_to_float (NullAnalysis.null_proportion r)) false result_df)
  end.

(** [calculate_counts(group)]: a [Series] of four entries, as the list of
    its labels and values. *)
Definition calculate_counts (group : list ResponseCounts.row) : list (string * pynum) :=
  let null_count :=
    int64_sum (map ResponseCounts.count (filter is_null_answer group)) in
  let other_count :=
    int64_sum (map ResponseCounts.count
                   (filter (fun r => negb (is_null_answer r)) group)) in
  let total_count := int64_add null_count other_count in
  let null_proportion :=
    if total_count >? 0 then PFloat (int64_truediv null_count total_count)
    else PInt 0 in
  let dtype :=
    common_dtype [PInt null_count; PInt other_count; PInt total_count; null_proportion] in
  [("null_count", dtype (PInt null_count));
   ("other_count", dtype (PInt other_count));
   ("total_count", dtype (PInt total_count));
   ("null_proportion", dtype null_proportion)]%string.

(** ** Answer proportions per group *)

(** The rows of [df_processed] before and after the column [Proportion]
    is added; [group] is the column named by [group_by]. *)
Module Counts.
Record row : Type := mk {
  group : cell;
  AnswerText : string;
  Count : Z
}.
End Counts.

Module Proportions.
Record row : Type := mk {
  group : cell;
  AnswerText : string;
  Count : Z;
  Proportion : float
}.
End Proportions.

(** The argument [questions]: one question text or a list of them. *)
Inductive questions_arg : Type :=
| Question (question : string)
| Questions (questions : list string).

(** [df["questiontext"].isin(questions)] for a list,
    [df["questiontext"] == questions] otherwise. *)
Definition question_mask (questions : questions_arg) (r : Row) : bool :=
  match questions with
  | Questions qs => existsb (String.eqb (questiontext r)) qs
  | Question q => String.eqb (questiontext r) q
  end.

(** [add_question_answers_proportions_by_group(df, questions, group_by)].
    pandas raises [KeyError] for a column the table does not have, and
    [ValueError] when [group_by] is [AnswerText] itself (the column would
    be inserted twice) and when no row is selected ([apply] then returns a
    table, which cannot be assigned to one column). *)
Definition add_question_answers_proportions_by_group (df : DataFrame)
  (questions : questions_arg) (group_by : string) : outcome (list Proportions.row) :=
  let mask := question_mask questions in
  match column group_by with
  | None => Raises (KeyError (CStr group_by))
  | Some group_column =>
      if String.eqb group_by "AnswerText" then Raises (Builtin ValueError)
      else
        let df_processed :=
          map (fun '((g, answer), n) => Counts.mk g answer n)
              (groupby_size (pair_eqb cell_eqb String.eqb)
                            (pair_leb cell_eqb cell_leb String.leb)
                            (map (fun r => (group_column r, AnswerText r))
                                 (select mask df))) in
        let total_per_question :=
          groupby_sum cell_eqb cell_leb Counts.group Counts.Count df_processed in
        match df_processed with
        | [] => Raises (Builtin ValueError)
        | _ :: _ =>
            apply_rows
              (fun row =>
                 match series_loc cell_eqb total_per_question (Counts.group row) with
                 | Some total =>
                     Returns (Proportions.mk (Counts.group row) (Counts.AnswerText row)
                                (Counts.Count row)
                                (int64_truediv (Counts.Count row) total))
                 | None => Raises (KeyError (Counts.group row))
                 end)
              df_processed
        end
  end.

(** ** Charts ([plots.py]) *)

(** Modelled from the spec: the calls of matplotlib and seaborn are the
    libraries'; the model records each call a chart function makes, with
    its arguments, in the order of the calls. *)
Inductive PlotCall : Type :=
| plt_subplots (figsize : Z * Z)
| sns_kdeplot (data : list float) (color : string) (linewidth : Z) (label : string)
| ax_axvline (x : float) (color linestyle : string) (alpha : float)
| ax_axvspan (xmin xmax : float) (color : string) (alpha : float)
| ax_set_title (label : string)
| ax_set_xlabel (label : string)
| ax_set_ylabel (label : string)
| ax_legend
| sns_despine
| plt_tight_layout
| plt_show
| plt_figure (figsize : Z * Z)
| sns_barplot (data : list Proportions.row) (x y hue palette : string) (alpha : float)
| ax_bar_label (container : nat) (fmt : string)
| plt_ylim (bottom upper : Z)
| plt_title (label : string)
| plt_xlabel (label : string)
| plt_ylabel (label : string)
| plt_legend (title loc : string).

(** A chart function: it appends to the calls made so far and returns or
    raises. *)
Definition Plot (A : Type) : Type := list PlotCall -> outcome A * list PlotCall.

Definition plot_ret {A : Type} (a : A) : Plot A := fun calls => (Returns a, calls).

Definition plot_bind {A B : Type} (m : Plot A) (k : A -> Plot B) : Plot B :=
  fun calls =>
    match m calls with
    | (Returns a, calls') => k a calls'
    | (Raises e, calls') => (Raises e, calls')
    end.

Definition plot_lift {A : Type} (r : outcome A) : Plot A := fun calls => (r, calls).

Definition call (c : PlotCall) : Plot unit := fun calls => (Returns tt, calls ++ [c]).

Declare Scope plot_scope.
Delimit Scope plot_scope with plot.
Notation "x <- m ;; k" := (plot_bind m (fun x => k))
  (at level 61, m at next level, right associativity) : plot_scope.
Notation "m ;; k" := (plot_bind m (fun _ => k))
  (at level 61, right associativity) : plot_scope.

(** [l[i]] for an index that is not negative. *)
Definition list_index {A : Type} (l : list A) (i : nat) : outcome A :=
  match nth_error l i with
  | Some a => Returns a
  | None => Raises (Builtin IndexError)
  end.

Definition sequential_palette : string := "Blues".
Definition categorical_palette : string := "pastel".

(** The float [0.07], the transparency of the shaded bands. *)
Definition float_0_07 : float := S754_finite false 5044031582654956 (-56).

(** The default of the argument [colors]. *)
Definition default_colors : list string := ["#2ecc71"; "#3498db"; "#e74c3c"]%string.

(** The loop of [plot_multiple_disorders_distribution] on the entries not
    yet drawn; [i] is the index of the first of them. [colors[i]] and
    [disorder_names[i]] are evaluated before the call they are arguments
    of. *)
Fixpoint plot_disorders_loop (i : nat) (items : list (string * BootstrapResult))
  (disorder_names colors : list string) : Plot unit :=
  match items with
  | [] => plot_ret tt
  | (_, results) :: items' =>
      (color <- plot_lift (list_index colors i) ;;
       label <- plot_lift (list_index disorder_names i) ;;
       call (sns_kdeplot (bootstrap_rates results) color 2 label) ;;
       color <- plot_lift (list_index colors i) ;;
       call (ax_axvline (original_rate results) color "--" float_half) ;;
       let '(ci_lower, ci_upper) := confidence_interval results in
       color <- plot_lift (list_index colors i) ;;
       call (ax_axvline ci_lower color ":" float_half) ;;
       color <- plot_lift (list_index colors i) ;;
       call (ax_axvline ci_upper color ":" float_half) ;;
       color <- plot_lift (list_index colors i) ;;
       call (ax_axvspan ci_lower ci_upper color float_0_07) ;;
       plot_disorders_loop (S i) items' disorder_names colors)%plot
  end.

(** [plot_multiple_disorders_distribution(results_dict, disorder_names,
    colors)]; the dictionary is the list of its items in the order of
    insertion, and [colors] is [None] when the argument is left out. *)
Definition plot_multiple_disorders_distribution
  (results_dict : list (string * BootstrapResult)) (disorder_names : list string)
  (colors : option (list string)) : Plot unit :=
  let colors := match colors with Some c => c | None => default_colors end in
  (call (plt_subplots (12, 6)) ;;
   plot_disorders_loop 0 results_dict disorder_names colors ;;
   call (ax_set_title "Bootstrap Distributions of Top 3 Mental Health Disorders") ;;
   call (ax_set_xlabel "Prevalence Rate") ;;
   call (ax_set_ylabel "Density") ;;
   call ax_legend ;;
   call sns_despine ;;
   call plt_tight_layout ;;
   call plt_show)%plot.

(** Modelled from the spec: [ax.containers] after [sns.barplot] is
    seaborn's and matplotlib's; the bars come in one container per level
    of [hue], so the containers are counted by the distinct values of the
    column [hue] names. *)
Definition bar_containers (data : list Proportions.row) (hue : string) : nat :=
  if String.eqb hue "AnswerText"
  then List.length (unique String.eqb (map Proportions.AnswerText data))
  else List.length (unique cell_eqb (map Proportions.group data)).

(** [for container in ax.containers: ax.bar_label(container, fmt="%.2f")] *)
Fixpoint bar_labels (container : nat) (containers : nat) : Plot unit :=
  match containers with
  | O => plot_ret tt
  | S k => (call (ax_bar_label container "%.2f") ;; bar_labels (S container) k)%plot
  end.

(** [plot_question_grouped_by_years(raw_df, question, title,
    question_name)]; nothing is drawn when the table cannot be built. *)
Definition plot_question_grouped_by_years (raw_df : DataFrame)
  (question title : string) (question_name : option string) : Plot unit :=
  (df_question_over_years <-
     plot_lift (add_question_answers_proportions_by_group raw_df (Question question)
                  "SurveyID") ;;
   call (plt_figure (12, 6)) ;;
   call (sns_barplot df_question_over_years "SurveyID" "Proportion" "AnswerText"
                     categorical_palette float_0_8) ;;
   bar_labels 0 (bar_containers df_question_over_years "AnswerText") ;;
   call (plt_ylim 0 1) ;;
   call (plt_title title) ;;
   match question_name with
   | Some name => call (plt_xlabel name)
   | None => call (plt_xlabel question)
   end ;;
   call (plt_ylabel "Proportion of Responses") ;;
   call (plt_legend "Survey Year" "upper right") ;;
   call sns_despine ;;
   call plt_show)%plot.

(** [plot_question_grouped_by_answers(raw_df, question, title,
    question_name)] *)
Definition plot_question_grouped_by_answers (raw_df : DataFrame)
  (question title : string) (question_name : option string) : Plot unit :=
  (df_question_over_years <-
     plot_lift (add_question_answers_proportions_by_group raw_df (Question question)
                  "SurveyID") ;;
   call (plt_figure (12, 6)) ;;
   call (sns_barplot df_question_over_years "AnswerText" "Proportion" "SurveyID"
                     categorical_palette float_0_8) ;;
   bar_labels 0 (bar_containers df_question_over_years "SurveyID") ;;
   call (plt_ylim 0 1) ;;
   call (plt_title title) ;;
   match question_name with
   | Some name => call (plt_xlabel name)
   | None => call (plt_xlabel question)
   end ;;
   call (plt_ylabel "Proportion of Responses") ;;
   call (plt_legend "Survey Year" "upper right") ;;
   call sns_despine ;;
   call plt_show)%plot.

(** * Definitions the further properties are stated with *)

(** The exact sum of a list of integers. *)
Definition sumZ (l : list Z) : Z := fold_right Z.add 0 l.

(** The row asks the question [q]. *)
Definition asks (q : string) (r : Row) : bool := String.eqb (questiontext r) q.

(** The float [2^63]. *)
Definition float_2_63 : float := S754_finite false 4503599627370496 11.

(** The rows of [response_counts] of one question. *)
Definition question_data (response_counts : list ResponseCounts.row) (question : string)
  : list ResponseCounts.row :=
  filter (fun r => String.eqb (ResponseCounts.questiontext r) question) response_counts.

(** The key [analyze_null_values] sorts by. *)
Definition null_proportion_value (r : NullAnalysis.row) : float :=
  num_to_float (NullAnalysis.null_proportion r).

(** The rows of [analyze_null_values] before they are sorted: one per
    question of [response_counts], in the order of first appearance. *)
Definition null_analysis (df : DataFrame) : list NullAnalysis.row :=
  map (null_analysis_row (response_counts df))
      (unique String.eqb (map ResponseCounts.questiontext (response_counts df))).

(** The number of selected rows of the group [g] that hold the answer
    [a], and the number of selected rows of the group. *)
Definition answer_count (df : DataFrame) (questions : questions_arg)
  (group_column : Row -> cell) (g : cell) (a : string) : Z :=
  len (select (fun r => question_mask questions r && cell_eqb (group_column r) g
                        && answers a r) df).

Definition group_total (df : DataFrame) (questions : questions_arg)
  (group_column : Row -> cell) (g : cell) : Z :=
  len (select (fun r => question_mask questions r && cell_eqb (group_column r) g) df).

(** The pairs of group and answer of the selected rows, in the order of
    the table [add_question_answers_proportions_by_group] returns. *)
Definition answer_keys (df : DataFrame) (questions : questions_arg)
  (group_column : Row -> cell) : list (cell * string) :=
  group_keys (pair_eqb cell_eqb String.eqb) (pair_leb cell_eqb cell_leb String.leb)
             (map (fun r => (group_column r, AnswerText r))
                  (select (question_mask questions) df)).

(** The row of the returned table for one pair of group and answer. *)
Definition proportion_row (df : DataFrame) (questions : questions_arg)
  (group_column : Row -> cell) (k : cell * string) : Proportions.row :=
  Proportions.mk (fst k) (snd k)
    (answer_count df questions group_column (fst k) (snd k))
    (int64_truediv (answer_count df questions group_column (fst k) (snd k))
                   (group_total df questions group_column (fst k))).

(** A small table of answers: the age was not given twice, the country
    always. *)
Definition example_answers : DataFrame :=
  [mkRow 2016 "Age" "-1"; mkRow 2016 "Age" "30"; mkRow 2017 "Age" "-1";
   mkRow 2016 "Country" "US"; mkRow 2017 "Country" "US"].

(** The counts of the answers to one question, as [response_counts] holds
    them. *)
Definition example_group : list ResponseCounts.row :=
  [ResponseCounts.mk "Age" "-1" 2; ResponseCounts.mk "Age" "30" 1;
   ResponseCounts.mk "Age" "41" 1].

(** A record of the level [ERROR]. *)
Definition errors (r : LogRecord) : bool := lr_level r =? ERROR.

(** The rows the prevalence looks at: those of 2016 that ask one of the
    two questions. *)
Definition relevant (r : Row) : bool := in_2016 r && (is_main r || is_follow_up r).

(** A computation that runs while [logging.disable(logging.INFO)] is in
    force leaves it in force, and of its records exactly those above
    [INFO] are shown. *)
Definition hushed {A : Type} (m : M A) : Prop :=
  forall w, disabled w = INFO ->
    disabled (snd (m w)) = INFO /\
    exists new, trace (snd (m w)) = trace w ++ new /\
                Forall (fun r => lr_shown r = (INFO <? lr_level r)) new.

(** The three records [analyze_disorder_prevalence] logs at its end. *)
Definition summary_records (res : BootstrapResult) : list LogRecord :=
  [mkLogRecord INFO "Original Prevalence Rate: %.2f" [AFloat (original_rate res)] true;
   mkLogRecord INFO "95%% Confidence Interval: (%.2f, %.2f)"
               [AFloat (fst (confidence_interval res));
                AFloat (snd (confidence_interval res))] true;
   mkLogRecord INFO "Standard Error: %.2f" [AFloat (standard_error res)] true].

(** A survey without any row of 2016. *)
Definition other_year_df : DataFrame :=
  [mkRow 2017 main_question "Yes"; mkRow 2017 follow_up_question "Anxiety"].

(** The five calls that draw the entry [results] with the colour [color]
    and the label [label]. *)
Definition disorder_artists (results : BootstrapResult) (color label : string)
  : list PlotCall :=
  [sns_kdeplot (bootstrap_rates results) color 2 label;
   ax_axvline (original_rate results) color "--" float_half;
   ax_axvline (fst (confidence_interval results)) color ":" float_half;
   ax_axvline (snd (confidence_interval results)) color ":" float_half;
   ax_axvspan (fst (confidence_interval results)) (snd (confidence_interval results))
              color float_0_07].

(** The calls that draw the entries [items], the first of them with the
    colour and the label at index [i]; entries without a colour or a label
    are left out. *)
Fixpoint artists_from (i : nat) (items : list (string * BootstrapResult))
  (disorder_names colors : list string) : list PlotCall :=
  match items with
  | [] => []
  | (_, results) :: items' =>
      match nth_error colors i, nth_error disorder_names i with
      | Some color, Some label =>
          disorder_artists results color label
          ++ artists_from (S i) items' disorder_names colors
      | _, _ => []
      end
  end.

(** The calls after the loop of [plot_multiple_disorders_distribution]. *)
Definition closing_calls : list PlotCall :=
  [ax_set_title "Bootstrap Distributions of Top 3 Mental Health Disorders";
   ax_set_xlabel "Prevalence Rate"; ax_set_ylabel "Density"; ax_legend; sns_despine;
   plt_tight_layout; plt_show].

(** The heights of the bars of a bar chart call. *)
Definition bar_heights (c : PlotCall) : list float :=
  match c with
  | sns_barplot data _ _ _ _ _ => map Proportions.Proportion data
  | _ => []
  end.

(** A drawing call stays on the axis of rates: a line at a rate in
    [0, 1], a band between two rates in [0, 1] in their order. *)
Definition on_unit_axis (c : PlotCall) : Prop :=
  match c with
  | ax_axvline x _ _ _ => in_unit_interval x = true
  | ax_axvspan xmin xmax _ _ =>
      in_unit_interval xmin = true /\ in_unit_interval xmax = true /\
      float_le xmin xmax = true
  | _ => True
  end.

(** A result that [analyze_disorder_prevalence] returned for some survey,
    on a positive number of iterations and a confidence level strictly
    between 0 and 1. *)
Definition analysed (res : BootstrapResult) : Prop :=
  exists (RS : RandomState) (df : DataFrame) (name : string) (n : Z) (cl : float)
         (seed : Z) (w : World),
    0 < n /\ wf cl /\ float_lt float_zero cl = true /\ float_lt cl float_one = true /\
    fst (analyze_disorder_prevalence df name n cl seed w) = Ok res.

(** A result to draw. *)
Definition example_result : BootstrapResult :=
  mkBootstrapResult float_0_2 (float_0_1, float_0_3) scenario_rates float_0_1.

(** The steps of a bar chart after the bars are drawn, for [labels]
    containers. *)
Definition bar_chart_finish (labels : nat) (title xlabel : string) : Plot unit :=
  (bar_labels 0 labels ;;
   call (plt_ylim 0 1) ;;
   call (plt_title title) ;;
   call (plt_xlabel xlabel) ;;
   call (plt_ylabel "Proportion of Responses") ;;
   call (plt_legend "Survey Year" "upper right") ;;
   call sns_despine ;;
   call plt_show)%plot.

(** * Floating-point arithmetic: rounding is exact and monotone

    [SpecFloat]'s operations shift, truncate and round bit by bit. The
    lemmas below show that each of them returns the exact result rounded to
    nearest, ties to even ([rnd]), that rounding is monotone, and that the
    float order is the order of the values ([F2Z]). *)

(** ** Number of binary digits *)

Lemma digits2_pos_size (p : positive) : digits2_pos p = Pos.size p.
Proof. induction p; simpl; congruence. Qed.

Lemma Zdigits2_log2 (m : Z) : 0 < m -> Zdigits2 m = Z.log2 m + 1.
Proof.
  destruct m as [|p|p]; try lia. intros _.
  destruct p; simpl; rewrite ?digits2_pos_size; lia.
Qed.

Lemma Zdigits2_nonneg (m : Z) : 0 <= Zdigits2 m.
Proof. destruct m; simpl; lia. Qed.

Lemma Zdigits2_bounds (m : Z) :
  0 < m -> 2 ^ (Zdigits2 m - 1) <= m < 2 ^ Zdigits2 m.
Proof.
  intros H. rewrite Zdigits2_log2 by assumption.
  replace (Z.log2 m + 1 - 1) with (Z.log2 m) by lia.
  pose proof (Z.log2_spec m H). rewrite <- Z.add_1_r in *. lia.
Qed.

Lemma Zdigits2_upper (m : Z) : 0 <= m -> m < 2 ^ Zdigits2 m.
Proof.
  intros H. destruct (Z.eq_dec m 0) as [->|]; [reflexivity|].
  apply Zdigits2_bounds. lia.
Qed.

Lemma Zdigits2_unique (m d : Z) :
  2 ^ (d - 1) <= m < 2 ^ d -> 0 < m -> Zdigits2 m = d.
Proof.
  intros H Hm. rewrite Zdigits2_log2 by assumption.
  assert (0 < d). { destruct (Z_lt_le_dec 0 d); auto. rewrite Z.pow_neg_r in H by lia. 
    destruct (Z.eq_dec d 0). subst. simpl in H. lia. rewrite Z.pow_neg_r in H; lia. }
  enough (Z.log2 m = d - 1) by lia.
  apply Z.log2_unique; [lia|]. replace (Z.succ (d - 1)) with d by lia. exact H.
Qed.

Lemma Zdigits2_le (m n : Z) : 0 <= m <= n -> Zdigits2 m <= Zdigits2 n.
Proof.
  intros [H0 H]. destruct (Z.eq_dec m 0) as [->|]. apply Zdigits2_nonneg.
  rewrite !Zdigits2_log2 by lia. pose proof (Z.log2_le_mono m n H). lia.
Qed.

Lemma Zdigits2_lt_pow (m d : Z) : 0 <= m -> 0 <= d -> m < 2 ^ d -> Zdigits2 m <= d.
Proof.
  intros Hm Hd H. destruct (Z.eq_dec m 0) as [->|]. simpl; lia.
  rewrite Zdigits2_log2 by lia.
  enough (Z.log2 m < d) by lia. apply Z.log2_lt_pow2; lia.
Qed.

Lemma Zdigits2_ge_pow (m d : Z) : 0 <= d -> 2 ^ d <= m -> d + 1 <= Zdigits2 m.
Proof.
  intros Hd H. assert (0 < m) by (pose proof (Z.pow_pos_nonneg 2 d); lia).
  rewrite Zdigits2_log2 by lia.
  enough (d <= Z.log2 m) by lia. apply Z.log2_le_pow2; lia.
Qed.

Lemma new_location_loc (D r : Z) : 0 < D -> 0 <= r < D -> new_location D r = loc D r.
Proof.
  intros HD Hr. unfold new_location, loc, new_location_even, new_location_odd.
  destruct (Z.even D) eqn:E; [reflexivity|].
  destruct (r =? 0); [reflexivity|]. f_equal.
  assert (Z.odd D = true) as O by (rewrite <- Z.negb_even, E; reflexivity).
  apply Z.odd_spec in O. destruct O as [k ->].
  destruct (Z.compare_spec (2 * r + 1) (2 * k + 1)), (Z.compare_spec (2 * r) (2 * k + 1)); 
    try reflexivity; lia.
Qed.

Lemma loc_of_shr_record_of_loc (m : Z) (l : location) :
  loc_of_shr_record (shr_record_of_loc m l) = l.
Proof. destruct l as [|[]]; reflexivity. Qed.

Lemma shr_m_record_of_loc (m : Z) (l : location) : shr_m (shr_record_of_loc m l) = m.
Proof. destruct l as [|[]]; reflexivity. Qed.

Lemma located_of_loc (N D : Z) :
  located N D (shr_record_of_loc (N / D) (loc D (N mod D))).
Proof. split; [apply shr_m_record_of_loc | apply loc_of_shr_record_of_loc]. Qed.

Lemma shr_1_m (m : Z) (r s : bool) :
  0 <= m ->
  shr_1 (Build_shr_record m r s) = Build_shr_record (m / 2) (Z.odd m) (r || s).
Proof.
  intros Hm. destruct m as [|p|p]; [reflexivity| |lia].
  destruct p as [p|p|]; simpl shr_1; f_equal.
  - change (Z.pos p~1) with (2 * Z.pos p + 1). symmetry. 
    rewrite Z.mul_comm, Z.div_add_l by lia. reflexivity.
  - change (Z.pos p~0) with (2 * Z.pos p). symmetry.
    rewrite Z.mul_comm, Z.div_mul by lia. reflexivity.
Qed.

Lemma loc_double (D r0 m m' : Z) (o r s : bool) :
  0 < D -> 0 <= r0 < D ->
  loc_of_shr_record (Build_shr_record m r s) = loc D r0 ->
  loc_of_shr_record (Build_shr_record m' o (r || s)) =
  loc (2 * D) (r0 + D * (if o then 1 else 0)).
Proof.
  intros HD Hr. unfold loc, loc_of_shr_record.
  destruct (Z.eqb_spec r0 0) as [E|E];
    destruct (Z.eqb_spec (r0 + D * (if o then 1 else 0)) 0) as [E2|E2];
    destruct (Z.compare_spec (2 * r0) D) as [C|C|C];
    destruct (Z.compare_spec (2 * (r0 + D * (if o then 1 else 0))) (2 * D)) as [C2|C2|C2];
    destruct o, r, s; cbn [orb]; intros Hl; try discriminate Hl; try reflexivity; lia.
Qed.

Lemma shr_1_located (N D : Z) (mrs : shr_record) :
  0 <= N -> 0 < D -> located N D mrs -> located N (2 * D) (shr_1 mrs).
Proof.
  intros HN HD [Hm Hl]. destruct mrs as [m r s]. cbn [shr_m] in Hm.
  assert (0 <= m) by (subst m; apply Z.div_pos; lia).
  rewrite shr_1_m by assumption.
  pose proof (Z.mod_pos_bound N D HD) as Hr.
  assert (N / (2 * D) = m / 2) as Hq.
  { subst m. rewrite (Z.mul_comm 2 D), Z.div_div by lia. reflexivity. }
  assert (N mod (2 * D) = N mod D + D * (m mod 2)) as Hrem.
  { subst m. rewrite (Z.mul_comm 2 D). apply Z.rem_mul_r; lia. }
  split; [exact (eq_sym Hq)|].
  rewrite Hrem, Zmod_odd. apply (loc_double D (N mod D) m); assumption.
Qed.

Lemma pow2_xI (p : positive) : 2 ^ Z.pos p~1 = 2 * (2 ^ Z.pos p * 2 ^ Z.pos p).
Proof.
  rewrite Pos2Z.inj_xI, <- Z.pow_add_r, <- Z.pow_succ_r by lia. f_equal. lia.
Qed.

Lemma pow2_xO (p : positive) : 2 ^ Z.pos p~0 = 2 ^ Z.pos p * 2 ^ Z.pos p.
Proof. rewrite Pos2Z.inj_xO, <- Z.pow_add_r by lia. f_equal. lia. Qed.

Lemma iter_pos_located (p : positive) :
  forall (N D : Z) (mrs : shr_record),
    0 <= N -> 0 < D -> located N D mrs ->
    located N (D * 2 ^ Z.pos p) (iter_pos shr_1 p mrs).
Proof.
  induction p as [p IH|p IH|]; intros N D mrs HN HD H; cbn [iter_pos].
  - replace (D * 2 ^ Z.pos p~1) with (2 * D * 2 ^ Z.pos p * 2 ^ Z.pos p)
      by (rewrite pow2_xI; ring).
    assert (0 < 2 ^ Z.pos p) by (apply Z.pow_pos_nonneg; lia).
    apply IH; try lia. apply IH; try lia. apply shr_1_located; assumption.
  - replace (D * 2 ^ Z.pos p~0) with (D * 2 ^ Z.pos p * 2 ^ Z.pos p)
      by (rewrite pow2_xO; ring).
    assert (0 < 2 ^ Z.pos p) by (apply Z.pow_pos_nonneg; lia).
    apply IH; try lia. apply IH; try lia. assumption.
  - change (2 ^ 1) with 2. rewrite Z.mul_comm. apply shr_1_located; assumption.
Qed.

(** Shifting right by [n] bits, as [SpecFloat] does it. *)
Lemma shr_located (N D e n : Z) (mrs : shr_record) :
  0 <= N -> 0 < D -> located N D mrs ->
  located N (D * 2 ^ Z.max 0 n) (fst (shr mrs e n)) /\
  snd (shr mrs e n) = e + Z.max 0 n.
Proof.
  intros HN HD H. destruct n as [|p|p]; simpl.
  - rewrite Z.mul_1_r, Z.add_0_r. auto.
  - split; [apply iter_pos_located; assumption | lia].
  - rewrite Z.mul_1_r, Z.add_0_r. auto.
Qed.

Lemma round_nearest_even_loc (N D : Z) :
  0 < D -> round_nearest_even (N / D) (loc D (N mod D)) = Zrne N D.
Proof.
  intros HD. unfold loc, Zrne, round_nearest_even.
  pose proof (Z.mod_pos_bound N D HD).
  destruct (Z.eqb_spec (N mod D) 0) as [E|E].
  - rewrite E. destruct (Z.compare_spec (2 * 0) D); lia.
  - destruct (2 * (N mod D) ?= D); reflexivity.
Qed.

(** The result is within half a unit of the quotient, and even on a tie. *)
Lemma Zrne_spec (N D : Z) :
  0 < D ->
  let q := Zrne N D in
  (2 * q - 1) * D <= 2 * N <= (2 * q + 1) * D /\
  (2 * N = (2 * q - 1) * D \/ 2 * N = (2 * q + 1) * D -> Z.even q = true).
Proof.
  intros HD. unfold Zrne.
  pose proof (Z.mod_pos_bound N D HD) as Hr.
  pose proof (Z.div_mod N D ltac:(lia)) as Hd.
  set (q0 := N / D) in *. set (r := N mod D) in *.
  destruct (Z.compare_spec (2 * r) D) as [C|C|C]; cbv zeta.
  - destruct (Z.even q0) eqn:E.
    + split; [nia|]. intros _. exact E.
    + split; [nia|]. intros _. rewrite Z.even_add, E. reflexivity.
  - split; [nia|]. intros [H|H]; nia.
  - split; [nia|]. intros [H|H]; nia.
Qed.

Lemma Zrne_mono (N D N' D' : Z) :
  0 < D -> 0 < D' -> N * D' <= N' * D -> Zrne N D <= Zrne N' D'.
Proof.
  intros HD HD' H.
  destruct (Zrne_spec N D HD) as [[L _] T].
  destruct (Zrne_spec N' D' HD') as [[_ U'] T'].
  set (q := Zrne N D) in *. set (q' := Zrne N' D') in *.
  destruct (Z_le_gt_dec q q') as [|G]; [assumption|exfalso].
  (* q' + 1 <= q, so both are ties and q = q' + 1 *)
  assert ((2 * q - 1) * D * D' <= 2 * N * D') as A1 by nia.
  assert (2 * N' * D <= (2 * q' + 1) * D' * D) as A2 by nia.
  assert (2 * N * D' <= 2 * N' * D) as A3 by lia.
  assert ((2 * q - 1) * (D * D') <= (2 * q' + 1) * (D * D')) as A4 by nia.
  assert (0 < D * D') as P by nia.
  assert (2 * q - 1 <= 2 * q' + 1) as A5 by nia.
  assert (q = q' + 1) as Eq by lia.
  assert (2 * N = (2 * q - 1) * D) as T1 by nia.
  assert (2 * N' = (2 * q' + 1) * D') as T2 by nia.
  specialize (T (or_introl T1)). specialize (T' (or_intror T2)).
  rewrite Eq, Z.even_add, T' in T. discriminate.
Qed.

Lemma Zrne_ext (N D N' D' : Z) :
  0 < D -> 0 < D' -> N * D' = N' * D -> Zrne N D = Zrne N' D'.
Proof.
  intros. apply Z.le_antisymm; apply Zrne_mono; lia.
Qed.

Lemma Zrne_exact (k D : Z) : 0 < D -> Zrne (k * D) D = k.
Proof.
  intros HD. unfold Zrne. rewrite Z.div_mul, Z.mod_mul by lia.
  destruct (Z.compare_spec (2 * 0) D); lia.
Qed.

Lemma Zrne_ge (N D k : Z) : 0 < D -> k * D <= N -> k <= Zrne N D.
Proof.
  intros HD H. rewrite <- (Zrne_exact k 1 ltac:(lia)) at 1. apply Zrne_mono; lia.
Qed.

Lemma Zrne_le (N D k : Z) : 0 < D -> N <= k * D -> Zrne N D <= k.
Proof.
  intros HD H. rewrite <- (Zrne_exact k 1 ltac:(lia)) at 1. apply Zrne_mono; lia.
Qed.

Lemma Zrne_floor (N D : Z) : 0 < D -> N / D <= Zrne N D <= N / D + 1.
Proof.
  intros HD. unfold Zrne.
  destruct (2 * (N mod D) ?= D); [destruct (Z.even (N / D))| |]; lia.
Qed.

Lemma fexp_eq (x : Z) : fexp x = Z.max (x - 53) (-1074).
Proof. reflexivity. Qed.

Lemma shr_fexp_located (N D e : Z) :
  0 <= N -> 0 < D ->
  let e1 := Z.max e (fexp (Zdigits2 (N / D) + e)) in
  located N (D * 2 ^ (e1 - e)) (fst (shr_fexp prec emax (N / D) e (loc D (N mod D)))) /\
  snd (shr_fexp prec emax (N / D) e (loc D (N mod D))) = e1.
Proof.
  intros HN HD e1. unfold shr_fexp.
  destruct (shr_located N D e (fexp (Zdigits2 (N / D) + e) - e) _ HN HD
              (located_of_loc N D)) as [H1 H2].
  replace (e1 - e) with (Z.max 0 (fexp (Zdigits2 (N / D) + e) - e)) by (unfold e1; lia).
  split; [exact H1|]. rewrite H2. unfold e1. lia.
Qed.

Lemma binary_round_aux_spec (s : bool) (N D e : Z) :
  0 <= N -> 0 < D ->
  binary_round_aux prec emax s (N / D) e (loc D (N mod D)) = round_spec s N D e.
Proof.
  intros HN HD. unfold binary_round_aux, round_spec.
  destruct (shr_fexp_located N D e HN HD) as [[Hm Hl] He].
  destruct (shr_fexp prec emax (N / D) e (loc D (N mod D))) as [mrs e1'].
  cbn [fst snd] in Hm, Hl, He. subst e1'.
  set (e1 := Z.max e (fexp (Zdigits2 (N / D) + e))) in *.
  assert (0 < D * 2 ^ (e1 - e)) as HD1.
  { apply Z.mul_pos_pos; [lia|]. apply Z.pow_pos_nonneg; unfold e1; lia. }
  rewrite Hl, Hm, round_nearest_even_loc by assumption.
  set (m1 := Zrne N (D * 2 ^ (e1 - e))).
  assert (0 <= m1) as Hm1.
  { unfold m1. apply (Zrne_ge _ _ 0); lia. }
  pose proof (shr_fexp_located m1 1 e1 Hm1 ltac:(lia)) as H2.
  rewrite Z.div_1_r, Z.mod_1_r in H2. change (loc 1 0) with loc_Exact in H2.
  destruct H2 as [[Hm2 _] He2].
  destruct (shr_fexp prec emax m1 e1 loc_Exact) as [mrs2 e2'].
  cbn [fst snd] in Hm2, He2. subst e2'.
  rewrite Hm2, Z.mul_1_l. reflexivity.
Qed.

Lemma pow2_pos (n : Z) : 0 <= n -> 0 < 2 ^ n.
Proof. intros. apply Z.pow_pos_nonneg; lia. Qed.

Lemma pow2_le (a b : Z) : 0 <= a <= b -> 2 ^ a <= 2 ^ b.
Proof. intros. apply Z.pow_le_mono_r; lia. Qed.

Lemma pow2_lt (a b : Z) : 0 <= a < b -> 2 ^ a < 2 ^ b.
Proof. intros. apply Z.pow_lt_mono_r; lia. Qed.

Lemma pow2_add (a b : Z) : 0 <= a -> 0 <= b -> 2 ^ (a + b) = 2 ^ a * 2 ^ b.
Proof. intros. apply Z.pow_add_r; assumption. Qed.

Lemma Zdigits2_div_pow2 (q j : Z) :
  0 <= q -> 0 <= j -> Zdigits2 (q / 2 ^ j) = Z.max (Zdigits2 q - j) 0.
Proof.
  intros Hq Hj. pose proof (pow2_pos j Hj) as Pj.
  destruct (Z.eq_dec q 0) as [->|Hq0].
  { rewrite Z.div_0_l by lia. simpl. lia. }
  pose proof (Zdigits2_bounds q ltac:(lia)) as [L U].
  set (d := Zdigits2 q) in *.
  assert (0 < d).
  { destruct (Z_lt_le_dec 0 d); [assumption|]. 
    assert (2 ^ d <= 2 ^ 0) by (destruct (Z.eq_dec d 0) as [->|]; [lia|rewrite Z.pow_neg_r; simpl; lia]).
    simpl in *. lia. }
  destruct (Z_le_gt_dec d j) as [C|C].
  - rewrite Z.div_small; [simpl; lia|]. split; [lia|].
    pose proof (pow2_le d j ltac:(lia)). lia.
  - rewrite Z.max_l by lia. apply Zdigits2_unique.
    + assert (2 ^ (d - 1) = 2 ^ (d - j - 1) * 2 ^ j) as E1
        by (rewrite <- pow2_add by lia; f_equal; lia).
      assert (2 ^ d = 2 ^ (d - j) * 2 ^ j) as E2
        by (rewrite <- pow2_add by lia; f_equal; lia).
      rewrite E1 in L. rewrite E2 in U. split.
      * apply Z.div_le_lower_bound; lia.
      * apply Z.div_lt_upper_bound; lia.
    + apply Z.div_str_pos. split; [lia|].
      pose proof (pow2_le j (d - 1) ltac:(lia)). lia.
Qed.

Lemma Zdigits2_mul_pow2_div (N D k : Z) :
  0 < D -> 1 <= N / D -> 0 <= k ->
  Zdigits2 (N * 2 ^ k / D) = Zdigits2 (N / D) + k.
Proof.
  intros HD Hq Hk. pose proof (pow2_pos k Hk) as Pk.
  pose proof (Zdigits2_bounds (N / D) ltac:(lia)) as [L U].
  set (d := Zdigits2 (N / D)) in *.
  assert (0 < d).
  { destruct (Z_lt_le_dec 0 d); [assumption|]. 
    assert (2 ^ d <= 2 ^ 0) by (destruct (Z.eq_dec d 0) as [->|]; [lia|rewrite Z.pow_neg_r; simpl; lia]).
    simpl in *. lia. }
  pose proof (Z.div_mod N D ltac:(lia)) as Hdm.
  pose proof (Z.mod_pos_bound N D HD) as Hr.
  assert (0 < N) by nia.
  assert (D * 2 ^ (d - 1) <= N) as LN by nia.
  assert (N < D * 2 ^ d) as UN by nia.
  apply Zdigits2_unique.
  - replace (d + k - 1) with ((d - 1) + k) by lia.
    rewrite !pow2_add by lia. split.
    + apply Z.div_le_lower_bound; [lia|].
      rewrite Z.mul_assoc. apply Z.mul_le_mono_nonneg_r; lia.
    + apply Z.div_lt_upper_bound; [lia|].
      rewrite Z.mul_assoc. apply Z.mul_lt_mono_pos_r; lia.
  - apply Z.div_str_pos. split; [lia|].
    assert (1 <= 2 ^ (d - 1)) by (pose proof (pow2_pos (d - 1)); lia). nia.
Qed.

Lemma pow2_53 : 2 ^ 53 = 9007199254740992. Proof. reflexivity. Qed.
Lemma pow2_52 : 2 ^ 52 = 4503599627370496. Proof. reflexivity. Qed.

Lemma round_spec_pack (s : bool) (N D e : Z) :
  0 <= N -> 0 < D ->
  let e1 := Z.max e (fexp (Zdigits2 (N / D) + e)) in
  let m1 := Zrne N (D * 2 ^ (e1 - e)) in
  -1074 <= e1 -> m1 <= 2 ^ 53 ->
  round_spec s N D e = pack s m1 e1.
Proof.
  intros HN HD e1 m1 He1 Hm1. unfold round_spec. fold e1. fold m1.
  assert (0 <= m1) as Hm0.
  { unfold m1. apply (Zrne_ge _ _ 0); [|lia].
    apply Z.mul_pos_pos; [lia|apply pow2_pos; unfold e1; lia]. }
  unfold pack. destruct (Z.eqb_spec m1 (2 ^ 53)) as [E|E].
  - rewrite E. change (Zdigits2 (2 ^ 53)) with 54.
    rewrite fexp_eq. replace (Z.max e1 (Z.max (54 + e1 - 53) (-1074))) with (e1 + 1) by lia.
    replace (e1 + 1 - e1) with 1 by lia. reflexivity.
  - assert (Zdigits2 m1 <= 53) by (apply Zdigits2_lt_pow; lia).
    rewrite fexp_eq. replace (Z.max e1 (Z.max (Zdigits2 m1 + e1 - 53) (-1074))) with e1 by lia.
    rewrite Z.sub_diag. change (2 ^ 0) with 1. rewrite Z.div_1_r. reflexivity.
Qed.

Lemma cond_Zopp_0 (s : bool) : cond_Zopp s 0 = 0.
Proof. destruct s; reflexivity. Qed.

Lemma top_eq : top = 2 ^ 53 * 2 ^ 2045.
Proof. unfold top. rewrite <- pow2_add by lia. reflexivity. Qed.

Lemma pack_value (s : bool) (m1 e1 : Z) :
  0 <= m1 <= 2 ^ 53 -> -1074 <= e1 -> (-1074 < e1 -> 2 ^ 52 <= m1) ->
  F2Z (pack s m1 e1) = cond_Zopp s (Z.min (m1 * 2 ^ (e1 + 1074)) top) /\
  wf (pack s m1 e1).
Proof.
  intros Hm He Hn. unfold pack, wf.
  assert (0 < 2 ^ (e1 + 1074)) as Pp by (apply pow2_pos; lia).
  destruct (Z.eqb_spec m1 (2 ^ 53)) as [E|E].
  - change (2 ^ 52) with (Z.pos 4503599627370496).
    cbv iota beta. destruct (Z.leb_spec (e1 + 1) (emax - prec)) as [L|L].
    + unfold F2Z. split; [f_equal|].
      * rewrite Z.min_l.
        -- rewrite E. replace (e1 + 1 + 1074) with (1 + (e1 + 1074)) by lia.
           rewrite pow2_add by lia. change (2 ^ 1) with 2.
           change (2 ^ 53) with (2 * Z.pos 4503599627370496). ring.
        -- rewrite E, top_eq. apply Z.mul_le_mono_nonneg_l; [lia|].
           apply pow2_le. unfold emax, prec in L. lia.
      * split; [|reflexivity]. unfold valid_binary, bounded, canonical_mantissa.
        change (Z.pos (digits2_pos 4503599627370496)) with 53.
        rewrite fexp_eq. apply andb_true_intro. split; [apply Z.eqb_eq; lia|apply Z.leb_le; lia].
    + unfold F2Z. split; [f_equal|split; reflexivity].
      rewrite Z.min_r; [reflexivity|].
      rewrite E, top_eq. apply Z.mul_le_mono_nonneg_l; [lia|].
      apply pow2_le. unfold emax, prec in L. lia.
  - destruct m1 as [|m|m]; [| |lia].
    + unfold F2Z. split; [|split; reflexivity].
      rewrite Z.mul_0_l, Z.min_l by (unfold top; pose proof (pow2_pos 2098); lia).
      symmetry; apply cond_Zopp_0.
    + destruct (Z.leb_spec e1 (emax - prec)) as [L|L].
      * unfold F2Z. split; [f_equal|].
        -- rewrite Z.min_l; [reflexivity|].
           rewrite top_eq. apply Z.mul_le_mono_nonneg; try lia.
           apply pow2_le. unfold emax, prec in L. lia.
        -- split; [|reflexivity]. unfold valid_binary, bounded, canonical_mantissa.
           apply andb_true_intro. split; [apply Z.eqb_eq|apply Z.leb_le; lia].
           rewrite fexp_eq. change (Z.pos (digits2_pos m)) with (Zdigits2 (Z.pos m)).
           assert (Zdigits2 (Z.pos m) <= 53) by (apply Zdigits2_lt_pow; lia).
           destruct (Z.eq_dec e1 (-1074)) as [->|]; [lia|].
           assert (53 + 1 <= Zdigits2 (Z.pos m) + 1).
           { apply Z.add_le_mono_r. apply (Zdigits2_ge_pow _ 52); [lia|]. apply Hn. lia. }
           lia.
      * unfold F2Z. split; [f_equal|split; reflexivity].
        rewrite Z.min_r; [reflexivity|].
        assert (2 ^ 52 <= Z.pos m) by (apply Hn; unfold emax, prec in L; lia).
        unfold top. replace 2098 with (52 + 2046) by lia. rewrite pow2_add by lia.
        apply Z.mul_le_mono_nonneg; try lia. 
        apply pow2_le. unfold emax, prec in L. lia.
Qed.

Lemma div_cross_le (A B A' B' : Z) :
  0 < B -> 0 < B' -> A * B' <= A' * B -> A / B <= A' / B'.
Proof.
  intros HB HB' H. apply Z.div_le_lower_bound; [assumption|].
  pose proof (Z.mul_div_le A B HB). nia.
Qed.

Lemma RN_upper (A B : Z) :
  0 <= A -> 0 < B ->
  let sh := Z.max (Zdigits2 (A / B) - 53) 0 in
  Zrne A (B * 2 ^ sh) <= 2 ^ 53.
Proof.
  intros HA HB sh. assert (0 < 2 ^ sh) by (apply pow2_pos; unfold sh; lia).
  apply Zrne_le; [nia|].
  assert (0 <= A / B) as Hq by (apply Z.div_pos; lia).
  pose proof (Zdigits2_upper (A / B) Hq) as U.
  pose proof (Zdigits2_nonneg (A / B)).
  assert (2 ^ Zdigits2 (A / B) <= 2 ^ (53 + sh)) by (apply pow2_le; unfold sh; lia).
  rewrite pow2_add in * by (unfold sh; lia).
  assert (A < B * (2 ^ 53 * 2 ^ sh)); [|lia].
  pose proof (Z.div_mod A B ltac:(lia)). pose proof (Z.mod_pos_bound A B HB).
  nia.
Qed.

Lemma RN_lower (A B : Z) :
  0 <= A -> 0 < B ->
  let sh := Z.max (Zdigits2 (A / B) - 53) 0 in
  0 < sh -> 2 ^ 52 <= Zrne A (B * 2 ^ sh).
Proof.
  intros HA HB sh Hsh. assert (0 < 2 ^ sh) by (apply pow2_pos; lia).
  apply Zrne_ge; [nia|].
  assert (0 < A / B) as Hq.
  { destruct (Z.eq_dec (A / B) 0) as [E|]; [|pose proof (Z.div_pos A B); lia].
    unfold sh in Hsh. rewrite E in Hsh. simpl in Hsh. lia. }
  pose proof (Zdigits2_bounds (A / B) Hq) as [L _].
  replace (Zdigits2 (A / B) - 1) with (52 + sh) in L by (unfold sh in *; lia).
  rewrite pow2_add in L by lia.
  pose proof (Z.mul_div_le A B HB). nia.
Qed.

(** [RN A B] is within half a unit in the last place of [A / B]. *)
Lemma RN_nearest (A B : Z) :
  0 <= A -> 0 < B ->
  let sh := Z.max (Zdigits2 (A / B) - 53) 0 in
  2 * Z.abs (RN A B * B - A) <= B * 2 ^ sh.
Proof.
  intros HA HB sh. unfold RN. fold sh.
  assert (0 < 2 ^ sh) by (apply pow2_pos; unfold sh; lia).
  assert (0 < B * 2 ^ sh) as HD by nia.
  destruct (Zrne_spec A (B * 2 ^ sh) HD) as [[L U] _].
  set (q := Zrne A (B * 2 ^ sh)) in *. set (D := B * 2 ^ sh) in *.
  replace (q * 2 ^ sh * B) with (q * D) by (unfold D; ring). lia.
Qed.

Lemma RN_nonneg (A B : Z) : 0 <= A -> 0 < B -> 0 <= RN A B.
Proof.
  intros HA HB. unfold RN.
  set (sh := Z.max (Zdigits2 (A / B) - 53) 0).
  assert (0 < 2 ^ sh) by (apply pow2_pos; unfold sh; lia).
  apply Z.mul_nonneg_nonneg; [|lia]. apply (Zrne_ge _ _ 0); nia.
Qed.

Lemma RN_mono (A B A' B' : Z) :
  0 <= A -> 0 < B -> 0 < B' -> A * B' <= A' * B -> RN A B <= RN A' B'.
Proof.
  intros HA HB HB' H.
  assert (0 <= A') as HA' by nia.
  pose proof (div_cross_le A B A' B' HB HB' H) as Hq.
  assert (0 <= A / B) as Hq0 by (apply Z.div_pos; lia).
  pose proof (Zdigits2_le (A / B) (A' / B') (conj Hq0 Hq)) as Hd.
  pose proof (RN_upper A B HA HB) as U. pose proof (RN_lower A' B' HA' HB') as L.
  unfold RN. cbv zeta in U, L.
  set (sh := Z.max (Zdigits2 (A / B) - 53) 0) in *.
  set (sh' := Z.max (Zdigits2 (A' / B') - 53) 0) in *.
  assert (0 <= sh <= sh') as [Hs0 Hs] by (unfold sh, sh'; lia).
  assert (0 < 2 ^ sh) by (apply pow2_pos; lia).
  assert (0 < 2 ^ sh') by (apply pow2_pos; lia).
  destruct (Z.eq_dec sh sh') as [E|E].
  - rewrite <- E. apply Z.mul_le_mono_nonneg_r; [lia|].
    apply Zrne_mono; nia.
  - specialize (L ltac:(lia)).
    apply Z.le_trans with (2 ^ 53 * 2 ^ sh).
    + apply Z.mul_le_mono_nonneg_r; lia.
    + apply Z.le_trans with (2 ^ 52 * 2 ^ sh').
      * replace sh' with ((sh' - sh - 1) + (1 + sh)) by lia.
        rewrite (pow2_add (sh' - sh - 1)), (pow2_add 1) by lia.
        pose proof (pow2_pos (sh' - sh - 1) ltac:(lia)).
        change (2 ^ 53) with (2 ^ 52 * 2 ^ 1). nia.
      * apply Z.mul_le_mono_nonneg_r; lia.
Qed.

Lemma RN_ext (A B A' B' : Z) :
  0 <= A -> 0 < B -> 0 < B' -> A * B' = A' * B -> RN A B = RN A' B'.
Proof.
  intros HA HB HB' H. assert (0 <= A') by nia.
  apply Z.le_antisymm; apply RN_mono; lia.
Qed.

(** [round_spec] rounds the exact value [N / D * 2^e], given here as a
    fraction [A / B] of units of [2^-1074]. *)
Lemma round_spec_value (s : bool) (N D e A B : Z) :
  0 <= N -> 0 < D -> 0 < B ->
  e <= fexp (Zdigits2 (N / D) + e) ->
  A * D * 2 ^ Z.max 0 (- (e + 1074)) = N * 2 ^ Z.max 0 (e + 1074) * B ->
  F2Z (round_spec s N D e) = cond_Zopp s (Z.min (RN A B) top) /\
  wf (round_spec s N D e).
Proof.
  intros HN HD HB Hpre HAB.
  set (k := Z.max 0 (e + 1074)) in *. set (j := Z.max 0 (- (e + 1074))) in *.
  assert (0 < 2 ^ k) as Pk by (apply pow2_pos; unfold k; lia).
  assert (0 < 2 ^ j) as Pj by (apply pow2_pos; unfold j; lia).
  assert (0 <= A) as HA by nia.
  (* the canonical fraction *)
  rewrite (RN_ext A B (N * 2 ^ k) (D * 2 ^ j)) by nia.
  set (d := Zdigits2 (N / D)) in *.
  assert (0 <= d) as Hd by apply Zdigits2_nonneg.
  assert (0 <= N / D) as Hq by (apply Z.div_pos; lia).
  set (e1 := Z.max e (fexp (d + e))).
  assert (e1 = fexp (d + e)) as He1 by (unfold e1; lia).
  rewrite fexp_eq in He1, Hpre.
  set (t := e1 + 1074).
  assert (0 <= t) as Ht by (unfold t; lia).
  assert (0 < 2 ^ t) as Pt by (apply pow2_pos; lia).
  assert (0 < 2 ^ (e1 - e)) as Pe by (apply pow2_pos; lia).
  (* the floor of the scaled quotient has d + e + 1074 digits *)
  assert (Zdigits2 (N * 2 ^ k / (D * 2 ^ j)) = Z.max (d + e + 1074) 0) as Hdig.
  { destruct (Z_le_gt_dec 0 (e + 1074)) as [C|C].
    - replace j with 0 by (unfold j; lia). change (2 ^ 0) with 1. rewrite Z.mul_1_r.
      destruct (Z.eq_dec (N / D) 0) as [E0|E0].
      + assert (d = 0) as Ed by (unfold d; rewrite E0; reflexivity).
        replace k with 0 by (unfold k; lia). change (2 ^ 0) with 1.
        rewrite Z.mul_1_r, E0. simpl. lia.
      + rewrite Zdigits2_mul_pow2_div by (unfold k; lia). fold d. unfold k. lia.
    - replace k with 0 by (unfold k; lia). change (2 ^ 0) with 1. rewrite Z.mul_1_r.
      rewrite <- Z.div_div by lia. rewrite Zdigits2_div_pow2 by (unfold j; lia).
      fold d. unfold j. lia. }
  assert (Z.max (Zdigits2 (N * 2 ^ k / (D * 2 ^ j)) - 53) 0 = t) as Hsh.
  { rewrite Hdig. unfold t. lia. }
  (* the mantissa before normalisation *)
  set (m1 := Zrne N (D * 2 ^ (e1 - e))).
  assert (m1 = Zrne (N * 2 ^ k) (D * 2 ^ j * 2 ^ t)) as Hm1.
  { unfold m1. apply Zrne_ext; [nia|nia|].
    destruct (Z_le_gt_dec 0 (e + 1074)) as [C|C].
    - replace j with 0 by (unfold j; lia). change (2 ^ 0) with 1.
      replace t with ((e1 - e) + k) by (unfold t, k; lia).
      rewrite pow2_add by (unfold k; lia). ring.
    - replace k with 0 by (unfold k; lia). change (2 ^ 0) with 1.
      replace (e1 - e) with (j + t) by (unfold t, j; lia).
      rewrite pow2_add by (unfold j; lia). ring. }
  assert (RN (N * 2 ^ k) (D * 2 ^ j) = m1 * 2 ^ t) as HRN.
  { unfold RN. rewrite Hsh, Hm1. reflexivity. }
  assert (m1 <= 2 ^ 53) as Hm1u.
  { rewrite Hm1. pose proof (RN_upper (N * 2 ^ k) (D * 2 ^ j) ltac:(nia) ltac:(nia)) as U.
    cbv zeta in U. rewrite Hsh in U. exact U. }
  assert (0 <= m1) as Hm1l by (unfold m1; apply (Zrne_ge _ _ 0); nia).
  assert (-1074 < e1 -> 2 ^ 52 <= m1) as Hm1n.
  { intros Hn. rewrite Hm1.
    pose proof (RN_lower (N * 2 ^ k) (D * 2 ^ j) ltac:(nia) ltac:(nia)) as L.
    cbv zeta in L. rewrite Hsh in L. apply L. unfold t. lia. }
  rewrite (round_spec_pack s N D e HN HD); fold d; fold e1; fold m1; try lia.
  rewrite HRN. unfold t. apply pack_value; lia.
Qed.

Lemma fexp_mono (x y : Z) : x <= y -> fexp x <= fexp y.
Proof. rewrite !fexp_eq. lia. Qed.

(** The division core: a truncated quotient with its location. *)
Lemma SFdiv_core_spec (m1 e1 m2 e2 : Z) :
  0 < m1 -> 0 < m2 ->
  let e' := Z.min (fexp (Zdigits2 m1 + e1 - (Zdigits2 m2 + e2))) (e1 - e2) in
  let N := m1 * 2 ^ (e1 - e2 - e') in
  SFdiv_core_binary prec emax m1 e1 m2 e2 = (N / m2, e', loc m2 (N mod m2)) /\
  e' <= fexp (Zdigits2 (N / m2) + e').
Proof.
  intros H1 H2 e' N. unfold SFdiv_core_binary. fold e'.
  set (s := e1 - e2 - e') in *.
  assert (0 <= s) as Hs by (unfold s, e'; lia).
  assert ((match s with Z.pos _ => Z.shiftl m1 s | 0 => m1 | Z.neg _ => 0 end) = N) as ->.
  { unfold N. destruct s as [|p|p] eqn:Es; [change (2 ^ 0) with 1; lia| |lia].
    apply Z.shiftl_mul_pow2. lia. }
  assert (0 < 2 ^ s) as Ps by (apply pow2_pos; lia).
  assert (0 < N) as HN by (unfold N; nia).
  split.
  - unfold Z.div, Z.modulo.
    pose proof (Z.mod_pos_bound N m2 H2) as Hr. unfold Z.modulo in Hr.
    destruct (Z.div_eucl N m2) as [q r]. 
    rewrite new_location_loc by assumption. reflexivity.
  - apply Z.le_trans with (fexp (Zdigits2 m1 + e1 - (Zdigits2 m2 + e2))); [unfold e'; lia|].
    apply fexp_mono.
    enough (Zdigits2 m1 + s - Zdigits2 m2 <= Zdigits2 (N / m2)) by (unfold s in *; lia).
    pose proof (Zdigits2_nonneg (N / m2)).
    destruct (Z_le_gt_dec (Zdigits2 m1 + s - Zdigits2 m2) 0) as [C|C]; [lia|].
    pose proof (Zdigits2_bounds m1 H1) as [L1 _].
    pose proof (Zdigits2_bounds m2 H2) as [_ U2].
    pose proof (Zdigits2_ge_pow m2 0 ltac:(lia) ltac:(simpl; lia)) as P2.
    pose proof (Zdigits2_ge_pow m1 0 ltac:(lia) ltac:(simpl; lia)) as P1.
    set (d1 := Zdigits2 m1) in *. set (d2 := Zdigits2 m2) in *.
    enough (d1 + s - d2 - 1 + 1 <= Zdigits2 (N / m2)) by lia.
    apply Zdigits2_ge_pow; [lia|].
    apply Z.div_le_lower_bound; [lia|].
    assert (2 ^ (d1 - 1) * 2 ^ s <= N) by (unfold N; nia).
    assert (2 ^ (d1 - 1) * 2 ^ s = 2 ^ (d1 + s - d2 - 1) * 2 ^ d2) as E.
    { rewrite <- !pow2_add by lia. f_equal. lia. }
    pose proof (pow2_pos (d1 + s - d2 - 1) ltac:(lia)). nia.
Qed.

Lemma round_spec_zero (s : bool) (D e : Z) : 0 < D -> round_spec s 0 D e = S754_zero s.
Proof.
  intros HD. unfold round_spec.
  set (e1 := Z.max e _).
  assert (0 < D * 2 ^ (e1 - e)) by (apply Z.mul_pos_pos; [lia|apply pow2_pos; unfold e1; lia]).
  replace (Zrne 0 (D * 2 ^ (e1 - e))) with 0.
  - rewrite Z.div_0_l; [reflexivity|].
    apply Z.pow_nonzero; lia.
  - symmetry. apply Z.le_antisymm; [apply Zrne_le|apply Zrne_ge]; lia.
Qed.

(** The correctly rounded quotient of two positive magnitudes. *)
Lemma quotient_value (s : bool) (m1 e1 m2 e2 : Z) :
  0 < m1 -> 0 < m2 -> -1074 <= e1 -> -1074 <= e2 ->
  let '(q, e, l) := SFdiv_core_binary prec emax m1 e1 m2 e2 in
  let f := binary_round_aux prec emax s q e l in
  F2Z f = cond_Zopp s (Z.min (RN (m1 * 2 ^ (e1 + 1074) * 2 ^ 1074)
                                 (m2 * 2 ^ (e2 + 1074))) top) /\ wf f.
Proof.
  intros H1 H2 He1 He2.
  destruct (SFdiv_core_spec m1 e1 m2 e2 H1 H2) as [-> Hpre].
  set (e' := Z.min (fexp (Zdigits2 m1 + e1 - (Zdigits2 m2 + e2))) (e1 - e2)) in *.
  set (N := m1 * 2 ^ (e1 - e2 - e')) in *.
  assert (0 <= e1 - e2 - e') as Hs by (unfold e'; lia).
  assert (0 < 2 ^ (e1 - e2 - e')) by (apply pow2_pos; lia).
  assert (0 < N) by (unfold N; nia).
  rewrite binary_round_aux_spec by lia.
  assert (0 < 2 ^ (e2 + 1074)) by (apply pow2_pos; lia).
  apply round_spec_value; try lia; try nia.
  unfold N.
  set (k := Z.max 0 (e' + 1074)). set (j := Z.max 0 (- (e' + 1074))).
  transitivity (m1 * m2 * (2 ^ (e1 + 1074) * 2 ^ 1074 * 2 ^ j)); [ring|].
  transitivity (m1 * m2 * (2 ^ (e1 - e2 - e') * 2 ^ k * 2 ^ (e2 + 1074))); [|ring].
  f_equal. rewrite <- !pow2_add by (unfold j, k; lia). f_equal. unfold j, k. lia.
Qed.

(** ** Canonical finite floats and the float order *)
Lemma bounded_inv (m : positive) (e : Z) :
  bounded prec emax m e = true ->
  -1074 <= e <= 971 /\ Z.pos m < 2 ^ 53 /\ (-1074 < e -> 2 ^ 52 <= Z.pos m).
Proof.
  unfold bounded, canonical_mantissa. intros H.
  apply andb_prop in H. destruct H as [C L].
  apply Z.eqb_eq in C. apply Z.leb_le in L. rewrite fexp_eq in C.
  change (emax - prec) with 971 in L.
  pose proof (Zdigits2_bounds (Z.pos m) ltac:(lia)) as [Lo Up].
  change (Zdigits2 (Z.pos m)) with (Z.pos (digits2_pos m)) in *.
  set (d := Z.pos (digits2_pos m)) in *.
  split; [lia|]. split.
  - assert (2 ^ d <= 2 ^ 53) by (apply pow2_le; lia). lia.
  - intros Hn. assert (d = 53) as -> by lia. exact Lo.
Qed.

Lemma finite_value_pos (m : positive) (e : Z) :
  bounded prec emax m e = true -> 0 < Z.pos m * 2 ^ (e + 1074) < top.
Proof.
  intros H. destruct (bounded_inv m e H) as (He & Hm & _).
  assert (0 < 2 ^ (e + 1074)) by (apply pow2_pos; lia).
  split; [nia|]. rewrite top_eq.
  assert (2 ^ (e + 1074) <= 2 ^ 2045) by (apply pow2_le; lia). nia.
Qed.

Lemma finite_value_lt (m1 m2 : positive) (e1 e2 : Z) :
  bounded prec emax m1 e1 = true -> bounded prec emax m2 e2 = true ->
  e1 < e2 -> Z.pos m1 * 2 ^ (e1 + 1074) < Z.pos m2 * 2 ^ (e2 + 1074).
Proof.
  intros H1 H2 L.
  destruct (bounded_inv m1 e1 H1) as (He1 & Hm1 & _).
  destruct (bounded_inv m2 e2 H2) as (He2 & _ & Hm2).
  specialize (Hm2 ltac:(lia)).
  assert (0 < 2 ^ (e1 + 1074)) by (apply pow2_pos; lia).
  apply Z.lt_le_trans with (2 ^ 53 * 2 ^ (e1 + 1074)); [nia|].
  apply Z.le_trans with (2 ^ 52 * 2 ^ (e2 + 1074)).
  - replace (e2 + 1074) with ((e2 - e1 - 1) + (1 + (e1 + 1074))) by lia.
    rewrite (pow2_add (e2 - e1 - 1)), (pow2_add 1) by lia.
    pose proof (pow2_pos (e2 - e1 - 1) ltac:(lia)).
    change (2 ^ 53) with (2 ^ 52 * 2 ^ 1). nia.
  - assert (0 < 2 ^ (e2 + 1074)) by (apply pow2_pos; lia). nia.
Qed.

Lemma finite_compare (m1 m2 : positive) (e1 e2 : Z) :
  bounded prec emax m1 e1 = true -> bounded prec emax m2 e2 = true ->
  match e1 ?= e2 with
  | Lt => Lt
  | Gt => Gt
  | Eq => Pos.compare_cont Eq m1 m2
  end = (Z.pos m1 * 2 ^ (e1 + 1074) ?= Z.pos m2 * 2 ^ (e2 + 1074)).
Proof.
  intros H1 H2. symmetry. destruct (Z.compare_spec e1 e2) as [E|L|G].
  - subst e2. destruct (bounded_inv m1 e1 H1) as (He1 & _).
    assert (0 < 2 ^ (e1 + 1074)) by (apply pow2_pos; lia).
    change (Pos.compare_cont Eq m1 m2) with (Z.pos m1 ?= Z.pos m2).
    destruct (Z.compare_spec (Z.pos m1) (Z.pos m2)) as [E|L|G].
    + rewrite E. apply Z.compare_refl.
    + apply Z.compare_lt_iff. nia.
    + apply Z.compare_gt_iff. nia.
  - apply Z.compare_lt_iff. apply finite_value_lt; assumption.
  - apply Z.compare_gt_iff. apply finite_value_lt; assumption.
Qed.

(** The order of floats is the order of their values. *)
Lemma SFcompare_F2Z (a b : spec_float) :
  wf a -> wf b -> SFcompare a b = Some (F2Z a ?= F2Z b).
Proof.
  intros [Va Na] [Vb Nb].
  pose proof (pow2_pos 2098 ltac:(lia)) as Pt. fold top in Pt.
  destruct a as [sa|sa| |sa ma ea], b as [sb|sb| |sb mb eb];
    try discriminate Na; try discriminate Nb; cbn [valid_binary] in Va, Vb;
    try pose proof (finite_value_pos ma ea Va) as Pa;
    try pose proof (finite_value_pos mb eb Vb) as Pb.
  9: { unfold SFcompare, F2Z, cond_Zopp. f_equal. destruct sa, sb.
       - rewrite Z.compare_opp.
         rewrite (Z.compare_antisym (Z.pos ma * 2 ^ (ea + 1074))
                                    (Z.pos mb * 2 ^ (eb + 1074))).
         rewrite <- (finite_compare ma mb ea eb Va Vb).
         destruct (ea ?= eb); reflexivity.
       - symmetry. apply Z.compare_lt_iff. lia.
       - symmetry. apply Z.compare_gt_iff. lia.
       - apply finite_compare; assumption. }
  all: unfold SFcompare, F2Z, cond_Zopp;
    repeat match goal with s : bool |- _ => destruct s end;
    f_equal; symmetry;
    first [ reflexivity | apply Z.compare_refl
          | apply Z.compare_lt_iff; lia | apply Z.compare_gt_iff; lia ].
Qed.

Lemma SFleb_F2Z (a b : spec_float) :
  wf a -> wf b -> SFleb a b = (F2Z a <=? F2Z b).
Proof.
  intros Ha Hb. unfold SFleb. rewrite SFcompare_F2Z by assumption.
  unfold Z.leb. destruct (F2Z a ?= F2Z b); reflexivity.
Qed.

Lemma SFltb_F2Z (a b : spec_float) :
  wf a -> wf b -> SFltb a b = (F2Z a <? F2Z b).
Proof.
  intros Ha Hb. unfold SFltb. rewrite SFcompare_F2Z by assumption.
  unfold Z.ltb. destruct (F2Z a ?= F2Z b); reflexivity.
Qed.

Lemma top_pos : 0 < top.
Proof. apply pow2_pos. lia. Qed.

Lemma RN_0 (B : Z) : 0 < B -> RN 0 B = 0.
Proof.
  intros HB. unfold RN. rewrite Z.div_0_l by lia. simpl Z.max.
  change (2 ^ 0) with 1. rewrite Z.mul_1_r, Z.mul_1_r.
  apply Z.le_antisymm; [apply Zrne_le|apply Zrne_ge]; lia.
Qed.

Lemma rnd_cond_Zopp (s : bool) (A B : Z) :
  0 <= A -> 0 < B ->
  cond_Zopp s (Z.min (RN A B) top) = rnd (cond_Zopp s A) B.
Proof.
  intros HA HB. unfold rnd. pose proof top_pos.
  destruct (Z.eq_dec A 0) as [->|].
  - rewrite cond_Zopp_0, RN_0 by assumption. simpl. rewrite Z.min_l by lia.
    apply cond_Zopp_0.
  - destruct s; unfold cond_Zopp.
    + rewrite Z.abs_opp, Z.abs_eq, Z.sgn_neg by lia. lia.
    + rewrite Z.abs_eq, Z.sgn_pos by lia. lia.
Qed.

Lemma rnd_mono (A B A' B' : Z) :
  0 < B -> 0 < B' -> A * B' <= A' * B -> rnd A B <= rnd A' B'.
Proof.
  intros HB HB' H. unfold rnd. pose proof top_pos.
  pose proof (RN_nonneg (Z.abs A) B ltac:(lia) HB).
  pose proof (RN_nonneg (Z.abs A') B' ltac:(lia) HB').
  destruct (Z.sgn_spec A) as [[SA EA]|[[SA EA]|[SA EA]]];
    destruct (Z.sgn_spec A') as [[SA' EA']|[[SA' EA']|[SA' EA']]];
    rewrite EA, EA'; try lia; try (exfalso; nia).
  - rewrite !Z.abs_eq by lia.
    pose proof (RN_mono A B A' B' ltac:(lia) HB HB' H). lia.
  - rewrite !Z.abs_neq by lia.
    pose proof (RN_mono (- A') B' (- A) B ltac:(lia) HB' HB ltac:(lia)). lia.
Qed.

Lemma rnd_ext (A B A' B' : Z) :
  0 < B -> 0 < B' -> A * B' = A' * B -> rnd A B = rnd A' B'.
Proof. intros. apply Z.le_antisymm; apply rnd_mono; lia. Qed.

Lemma rnd_bounds (A B : Z) : 0 < B -> - top <= rnd A B <= top.
Proof.
  intros HB. unfold rnd. pose proof top_pos.
  pose proof (RN_nonneg (Z.abs A) B ltac:(lia) HB).
  destruct (Z.sgn_spec A) as [[_ ->]|[[_ ->]|[_ ->]]]; lia.
Qed.

Lemma rnd_nonneg (A B : Z) : 0 < B -> 0 <= A -> 0 <= rnd A B.
Proof.
  intros HB HA. unfold rnd. pose proof top_pos.
  pose proof (RN_nonneg (Z.abs A) B ltac:(lia) HB).
  destruct (Z.sgn_spec A) as [[_ ->]|[[_ ->]|[? ->]]]; lia.
Qed.

(** A float is finite exactly when its value is strictly inside the range. *)
Lemma finite_iff_lt_top (f : spec_float) :
  wf f -> (is_finite f = true <-> - top < F2Z f < top).
Proof.
  intros [V N]. pose proof top_pos.
  destruct f as [s|s| |s m e]; try discriminate N; cbn [is_finite F2Z].
  - split; [lia|reflexivity].
  - split; [discriminate|]. destruct s; unfold cond_Zopp; lia.
  - cbn [valid_binary] in V. pose proof (finite_value_pos m e V).
    split; [|reflexivity]. intros _. destruct s; unfold cond_Zopp; lia.
Qed.

Lemma round_quotient_value (s : bool) (a b : Z) :
  0 <= a -> 0 < b ->
  F2Z (round_quotient s a b) = rnd (cond_Zopp s a * 2 ^ 1074) b /\
  wf (round_quotient s a b).
Proof.
  intros Ha Hb. unfold round_quotient.
  destruct (Z.eq_dec a 0) as [->|Hn].
  - unfold SFdiv_core_binary.
    assert (forall s0, match s0 with Z.pos _ => Z.shiftl 0 s0 | 0 => 0 | Z.neg _ => 0 end = 0) as E.
    { intros [|p|p]; try reflexivity. apply Z.shiftl_0_l. }
    rewrite E. cbn [Z.div_eucl].
    rewrite new_location_loc by lia.
    pose proof (binary_round_aux_spec s 0 b
      (Z.min (fexp (Zdigits2 0 + 0 - (Zdigits2 b + 0))) (0 - 0)) ltac:(lia) Hb) as R.
    rewrite Z.div_0_l, Z.mod_0_l in R by lia. rewrite R, round_spec_zero by assumption.
    rewrite cond_Zopp_0. split; [|split; reflexivity].
    unfold rnd. reflexivity.
  - pose proof (quotient_value s a 0 b 0 ltac:(lia) Hb ltac:(lia) ltac:(lia)) as Q.
    destruct (SFdiv_core_binary prec emax a 0 b 0) as [[q e] l].
    destruct Q as [Q W]. split; [|exact W]. rewrite Q.
    pose proof (pow2_pos 1074 ltac:(lia)).
    rewrite rnd_cond_Zopp by nia.
    apply rnd_ext; try nia. destruct s; unfold cond_Zopp; ring.
Qed.

(** Python's integer true division rounds the exact quotient. *)
Lemma int_truediv_value (a b : Z) :
  b <> 0 ->
  let v := rnd (a * Z.sgn b * 2 ^ 1074) (Z.abs b) in
  match int_truediv a b with
  | Ok f => F2Z f = v /\ wf f /\ is_finite f = true
  | Raise e => e = OverflowError /\ Z.abs v = top
  end.
Proof.
  intros Hb v. unfold int_truediv.
  destruct (Z.eqb_spec b 0) as [|_]; [contradiction|].
  destruct (round_quotient_value (xorb (a <? 0) (b <? 0)) (Z.abs a) (Z.abs b)
              ltac:(lia) ltac:(lia)) as [V W].
  assert (cond_Zopp (xorb (a <? 0) (b <? 0)) (Z.abs a) = a * Z.sgn b) as E.
  { destruct (Z.ltb_spec a 0), (Z.ltb_spec b 0); unfold cond_Zopp; cbn [xorb];
      rewrite ?Z.sgn_neg, ?Z.sgn_pos by lia; lia. }
  rewrite E in V. fold v in V.
  destruct (round_quotient _ _ _) as [s|s| |s m e] eqn:R.
  - repeat split; try assumption; apply W.
  - split; [reflexivity|]. rewrite <- V. pose proof top_pos.
    destruct s; unfold F2Z, cond_Zopp; lia.
  - destruct W as [_ W]. discriminate W.
  - repeat split; try assumption; apply W.
Qed.

Lemma rnd_0 (B : Z) : rnd 0 B = 0.
Proof. reflexivity. Qed.

Lemma Zdigits2_mul_ge (a b : Z) :
  0 < a -> 0 < b -> Zdigits2 a + Zdigits2 b - 1 <= Zdigits2 (a * b).
Proof.
  intros Ha Hb.
  pose proof (Zdigits2_bounds a Ha) as [La _]. pose proof (Zdigits2_bounds b Hb) as [Lb _].
  pose proof (Zdigits2_ge_pow a 0 ltac:(lia) ltac:(simpl; lia)).
  pose proof (Zdigits2_ge_pow b 0 ltac:(lia) ltac:(simpl; lia)).
  enough (Zdigits2 a - 1 + (Zdigits2 b - 1) + 1 <= Zdigits2 (a * b)) by lia.
  apply Zdigits2_ge_pow; [lia|]. rewrite pow2_add by lia.
  apply Z.mul_le_mono_nonneg; try assumption; apply Z.lt_le_incl, pow2_pos; lia.
Qed.

Lemma canonical_digits (m : positive) (e : Z) :
  bounded prec emax m e = true ->
  -1074 <= e <= 971 /\ 1 <= Zdigits2 (Z.pos m) <= 53 /\
  (-1074 < e -> Zdigits2 (Z.pos m) = 53).
Proof.
  intros H. destruct (bounded_inv m e H) as (He & Hm & Hn).
  pose proof (Zdigits2_ge_pow (Z.pos m) 0 ltac:(lia) ltac:(simpl; lia)).
  pose proof (Zdigits2_lt_pow (Z.pos m) 53 ltac:(lia) ltac:(lia) Hm).
  split; [assumption|]. split; [lia|]. intros Hl.
  pose proof (Zdigits2_ge_pow (Z.pos m) 52 ltac:(lia) (Hn Hl)). lia.
Qed.

(** Multiplication rounds the exact product. *)
Lemma float_mul_value (x y : float) :
  wf x -> wf y -> is_finite x = true -> is_finite y = true ->
  F2Z (float_mul x y) = rnd (F2Z x * F2Z y) (2 ^ 1074) /\ wf (float_mul x y).
Proof.
  intros [Vx Nx] [Vy Ny] Fx Fy.
  destruct x as [sx|sx| |sx mx ex]; try discriminate Fx;
    destruct y as [sy|sy| |sy my ey]; try discriminate Fy;
    unfold float_mul, SFmul.
  1-3: cbn [F2Z]; rewrite ?Z.mul_0_l, ?Z.mul_0_r, rnd_0; split; [reflexivity|split; reflexivity].
  cbn [valid_binary] in Vx, Vy.
  destruct (canonical_digits mx ex Vx) as (Hex & Hdx & Hnx).
  destruct (canonical_digits my ey Vy) as (Hey & Hdy & Hny).
  pose proof (Zdigits2_mul_ge (Z.pos mx) (Z.pos my) ltac:(lia) ltac:(lia)) as Hd.
  pose proof (binary_round_aux_spec (xorb sx sy) (Z.pos mx * Z.pos my) 1 (ex + ey)
                ltac:(lia) ltac:(lia)) as R.
  rewrite Z.div_1_r, Z.mod_1_r in R. change (loc 1 0) with loc_Exact in R.
  change (Z.pos (mx * my)) with (Z.pos mx * Z.pos my). rewrite R.
  assert (0 < 2 ^ (ex + 1074)) by (apply pow2_pos; lia).
  assert (0 < 2 ^ (ey + 1074)) by (apply pow2_pos; lia).
  assert (0 < 2 ^ 1074) by (apply pow2_pos; lia).
  destruct (round_spec_value (xorb sx sy) (Z.pos mx * Z.pos my) 1 (ex + ey)
              (Z.pos mx * 2 ^ (ex + 1074) * (Z.pos my * 2 ^ (ey + 1074))) (2 ^ 1074))
    as [V W]; try lia.
  - rewrite Z.div_1_r, fexp_eq. lia.
  - set (k := Z.max 0 (ex + ey + 1074)). set (j := Z.max 0 (- (ex + ey + 1074))).
    transitivity (Z.pos mx * Z.pos my * (2 ^ (ex + 1074) * 2 ^ (ey + 1074) * 2 ^ j)); [ring|].
    transitivity (Z.pos mx * Z.pos my * (2 ^ k * 2 ^ 1074)); [|ring].
    f_equal. rewrite <- !pow2_add by (unfold j, k; lia). f_equal. unfold j, k. lia.
  - split; [|exact W]. rewrite V, rnd_cond_Zopp by nia.
    apply rnd_ext; try lia. f_equal. unfold F2Z.
    destruct sx, sy; unfold cond_Zopp; cbn [xorb]; ring.
Qed.

Lemma Zdigits2_mul_pow2 (m k : Z) :
  0 < m -> 0 <= k -> Zdigits2 (m * 2 ^ k) = Zdigits2 m + k.
Proof.
  intros Hm Hk. pose proof (Zdigits2_mul_pow2_div m 1 k ltac:(lia)) as H.
  rewrite !Z.div_1_r in H. apply H; lia.
Qed.

(** A representable value rounds to itself. *)
Lemma RN_representable (m : positive) (e : Z) :
  bounded prec emax m e = true ->
  RN (Z.pos m * 2 ^ (e + 1074)) 1 = Z.pos m * 2 ^ (e + 1074).
Proof.
  intros H. destruct (canonical_digits m e H) as (He & Hd & Hn).
  unfold RN. rewrite Z.div_1_r, Zdigits2_mul_pow2 by lia.
  set (sh := Z.max (Zdigits2 (Z.pos m) + (e + 1074) - 53) 0).
  assert (sh = e + 1074) as -> by (unfold sh; lia).
  rewrite Z.mul_1_l, Zrne_exact by (apply pow2_pos; lia). reflexivity.
Qed.

Lemma rnd_representable (f : float) :
  wf f -> is_finite f = true -> rnd (F2Z f) 1 = F2Z f.
Proof.
  intros [V N] F. destruct f as [s|s| |s m e]; try discriminate F; [reflexivity|].
  cbn [valid_binary] in V. unfold F2Z.
  pose proof (finite_value_pos m e V) as P.
  rewrite <- rnd_cond_Zopp by lia. rewrite (RN_representable m e V).
  rewrite Z.min_l by lia. reflexivity.
Qed.

Lemma pos_iter_xO (m d : positive) :
  Z.pos (Pos.iter xO m d) = Z.pos m * 2 ^ Z.pos d.
Proof.
  induction d as [|d IH] using Pos.peano_ind.
  - simpl. lia.
  - rewrite Pos.iter_succ, Pos2Z.inj_succ, Z.pow_succ_r by lia.
    rewrite Pos2Z.inj_xO, IH. ring.
Qed.

Lemma shl_align_spec (mx : positive) (ex ex' : Z) :
  let '(mz, ez) := shl_align mx ex ex' in
  ez = Z.min ex ex' /\ Z.pos mz = Z.pos mx * 2 ^ (ex - ez).
Proof.
  unfold shl_align. destruct (ex' - ex) as [|d|d] eqn:E.
  - split; [lia|]. rewrite Z.sub_diag. simpl. lia.
  - split; [lia|]. rewrite Z.sub_diag. simpl. lia.
  - split; [lia|]. rewrite pos_iter_xO. f_equal. f_equal. lia.
Qed.

Lemma binary_round_value (s : bool) (m : positive) (e : Z) :
  -1074 <= e ->
  F2Z (binary_round prec emax s m e) = rnd (cond_Zopp s (Z.pos m * 2 ^ (e + 1074))) 1 /\
  wf (binary_round prec emax s m e).
Proof.
  intros He. unfold binary_round.
  pose proof (shl_align_spec m e (fexp (Z.pos (digits2_pos m) + e))) as A.
  destruct (shl_align m e (fexp (Z.pos (digits2_pos m) + e))) as [mz ez].
  destruct A as [Ez Hz].
  change (Z.pos (digits2_pos m)) with (Zdigits2 (Z.pos m)) in *.
  assert (-1074 <= ez <= e) as Hez by (rewrite Ez, fexp_eq; lia).
  pose proof (binary_round_aux_spec s (Z.pos mz) 1 ez ltac:(lia) ltac:(lia)) as R.
  rewrite Z.div_1_r, Z.mod_1_r in R. change (loc 1 0) with loc_Exact in R. rewrite R.
  assert (0 < 2 ^ (e + 1074)) by (apply pow2_pos; lia).
  destruct (round_spec_value s (Z.pos mz) 1 ez (Z.pos m * 2 ^ (e + 1074)) 1) as [V W];
    try lia.
  - rewrite Z.div_1_r, Hz, Zdigits2_mul_pow2 by lia.
    replace (Zdigits2 (Z.pos m) + (e - ez) + ez) with (Zdigits2 (Z.pos m) + e) by lia.
    lia.
  - replace (Z.max 0 (- (ez + 1074))) with 0 by lia.
    replace (Z.max 0 (ez + 1074)) with (ez + 1074) by lia.
    rewrite Hz. change (2 ^ 0) with 1.
    replace (e + 1074) with ((e - ez) + (ez + 1074)) by lia.
    rewrite (pow2_add (e - ez) (ez + 1074)) by lia. ring.
  - split; [|exact W]. rewrite V. apply rnd_cond_Zopp; nia.
Qed.

Lemma binary_normalize_value (m e : Z) (sz : bool) :
  -1074 <= e ->
  F2Z (binary_normalize prec emax m e sz) = rnd (m * 2 ^ (e + 1074)) 1 /\
  wf (binary_normalize prec emax m e sz).
Proof.
  intros He. destruct m as [|p|p]; unfold binary_normalize.
  - rewrite Z.mul_0_l. split; [reflexivity|split; reflexivity].
  - apply (binary_round_value false p e He).
  - destruct (binary_round_value true p e He) as [V W]. split; [|exact W].
    rewrite V. unfold cond_Zopp. f_equal. lia.
Qed.

Lemma aligned_value (m : positive) (e ez : Z) :
  ez <= e -> -1074 <= ez ->
  Z.pos (fst (shl_align m e ez)) * 2 ^ (ez + 1074) = Z.pos m * 2 ^ (e + 1074).
Proof.
  intros L He. pose proof (shl_align_spec m e ez) as A.
  destruct (shl_align m e ez) as [mz ez']. destruct A as [E H]. cbn [fst].
  rewrite H. replace ez' with ez by lia.
  replace (e + 1074) with ((e - ez) + (ez + 1074)) by lia.
  rewrite (pow2_add (e - ez) (ez + 1074)) by lia. ring.
Qed.

(** Subtraction rounds the exact difference. *)
Lemma float_sub_value (x y : float) :
  wf x -> wf y -> is_finite x = true -> is_finite y = true ->
  F2Z (float_sub x y) = rnd (F2Z x - F2Z y) 1 /\ wf (float_sub x y).
Proof.
  intros Wx Wy Fx Fy.
  destruct x as [sx|sx| |sx mx ex]; try discriminate Fx;
    destruct y as [sy|sy| |sy my ey]; try discriminate Fy;
    unfold float_sub, SFsub.
  - destruct sx, sy; split; try reflexivity; split; reflexivity.
  - assert (wf (S754_finite (negb sy) my ey)) as W by (destruct Wy; split; assumption).
    split; [|exact W].
    replace (F2Z (S754_zero sx) - F2Z (S754_finite sy my ey))
      with (F2Z (S754_finite (negb sy) my ey))
      by (unfold F2Z; destruct sy; unfold cond_Zopp; cbn [negb]; lia).
    symmetry. apply rnd_representable; [exact W|reflexivity].
  - split; [|exact Wx].
    replace (F2Z (S754_finite sx mx ex) - F2Z (S754_zero sy))
      with (F2Z (S754_finite sx mx ex)) by (cbn [F2Z]; lia).
    symmetry. apply rnd_representable; [exact Wx|reflexivity].
  - destruct Wx as [Vx _], Wy as [Vy _]. cbn [valid_binary] in Vx, Vy.
    destruct (canonical_digits mx ex Vx) as (Hex & _).
    destruct (canonical_digits my ey Vy) as (Hey & _).
    set (ez := Z.min ex ey).
    destruct (binary_normalize_value
                (cond_Zopp sx (Z.pos (fst (shl_align mx ex ez))) -
                 cond_Zopp sy (Z.pos (fst (shl_align my ey ez)))) ez false
                ltac:(unfold ez; lia)) as [V W].
    split; [|exact W]. rewrite V. f_equal.
    pose proof (aligned_value mx ex ez ltac:(unfold ez; lia) ltac:(unfold ez; lia)) as Ax.
    pose proof (aligned_value my ey ez ltac:(unfold ez; lia) ltac:(unfold ez; lia)) as Ay.
    unfold F2Z. destruct sx, sy; unfold cond_Zopp; lia.
Qed.

(** Division rounds the exact quotient. *)
Lemma float_div_value (x y : float) :
  wf x -> wf y -> is_finite x = true -> is_finite y = true -> F2Z y <> 0 ->
  F2Z (float_div x y) = rnd (F2Z x * Z.sgn (F2Z y) * 2 ^ 1074) (Z.abs (F2Z y)) /\
  wf (float_div x y).
Proof.
  intros Wx Wy Fx Fy Hy.
  destruct x as [sx|sx| |sx mx ex]; try discriminate Fx;
    destruct y as [sy|sy| |sy my ey]; try discriminate Fy;
    unfold float_div, SFdiv; try (cbn [F2Z] in Hy; congruence).
  - cbn [F2Z]. rewrite !Z.mul_0_l, rnd_0. split; [reflexivity|split; reflexivity].
  - destruct Wx as [Vx _], Wy as [Vy _]. cbn [valid_binary] in Vx, Vy.
    destruct (canonical_digits mx ex Vx) as (Hex & _).
    destruct (canonical_digits my ey Vy) as (Hey & _).
    pose proof (finite_value_pos mx ex Vx) as Px.
    pose proof (finite_value_pos my ey Vy) as Py.
    pose proof (quotient_value (xorb sx sy) (Z.pos mx) ex (Z.pos my) ey
                  ltac:(lia) ltac:(lia) ltac:(lia) ltac:(lia)) as Q.
    destruct (SFdiv_core_binary prec emax (Z.pos mx) ex (Z.pos my) ey) as [[q e] l].
    destruct Q as [V W]. split; [|exact W]. rewrite V.
    pose proof (pow2_pos 1074 ltac:(lia)).
    rewrite rnd_cond_Zopp by nia. unfold F2Z.
    destruct sx, sy; unfold cond_Zopp; cbn [xorb];
      rewrite ?Z.sgn_neg, ?Z.sgn_pos, ?Z.abs_neq, ?Z.abs_eq by lia;
      apply rnd_ext; lia.
Qed.

(** * The prevalence estimator *)

Ltac run_logger :=
  unfold bind, ret, lift, logger_info, logger_error, logger_warning, logger_log;
  cbn [fst snd disabled trace].

Lemma calculate_prevalence_rate_value (p d t c : Z) (w : World) :
  fst (calculate_prevalence_rate p d t c w) = prevalence_value p d t c.
Proof.
  unfold calculate_prevalence_rate, prevalence_value, bind, ret, lift,
    logger_info, logger_error, logger_warning, logger_log.
  destruct (p =? 0); [reflexivity|].
  destruct (d >? p); cbn [fst snd];
    (destruct (int_truediv d p); [|reflexivity]);
    (destruct (t >? 0); [destruct (int_truediv c t)|]; reflexivity).
Qed.

Lemma calculate_prevalence_rate_world (p d t c : Z) (w : World) :
  let w' := snd (calculate_prevalence_rate p d t c w) in
  disabled w' = disabled w /\
  exists new, trace w' = trace w ++ new /\
              existsb warns new = negb (p =? 0) && (d >? p).
Proof.
  unfold calculate_prevalence_rate. run_logger.
  destruct (p =? 0).
  { cbn [fst snd disabled trace]. split; [reflexivity|].
    rewrite <- app_assoc. eexists. split; [reflexivity|reflexivity]. }
  destruct (d >? p); cbn [fst snd disabled trace];
    (destruct (int_truediv d p);
     [destruct (t >? 0); [destruct (int_truediv c t)|]|]);
    cbn [fst snd disabled trace]; (split; [reflexivity|]);
    repeat rewrite <- app_assoc; eexists; (split; [reflexivity|reflexivity]).
Qed.

(** ** Bounds on the rate *)

Lemma F2Z_one : F2Z float_one = 2 ^ 1074.
Proof. reflexivity. Qed.

Lemma wf_one : wf float_one.
Proof. split; reflexivity. Qed.

Lemma wf_zero (s : bool) : wf (S754_zero s).
Proof. split; reflexivity. Qed.

Lemma rnd_one : rnd (2 ^ 1074) 1 = 2 ^ 1074.
Proof. rewrite <- F2Z_one. apply rnd_representable; [apply wf_one|reflexivity]. Qed.

Lemma one_lt_top : 2 ^ 1074 < top.
Proof. unfold top. apply pow2_lt. lia. Qed.

(** A quotient of non-negative integers that does not exceed [bound] times
    a representable value stays finite. *)
Lemma int_truediv_nonneg (a b : Z) :
  0 <= a -> 0 < b ->
  let v := rnd (a * 2 ^ 1074) b in
  0 <= v /\
  (v < top -> exists f, int_truediv a b = Ok f /\ F2Z f = v /\ wf f /\ is_finite f = true) /\
  (forall f, int_truediv a b = Ok f -> F2Z f = v /\ wf f /\ is_finite f = true).
Proof.
  intros Ha Hb v. pose proof (pow2_pos 1074 ltac:(lia)) as P.
  assert (0 <= v) as Hv by (apply rnd_nonneg; nia).
  pose proof (int_truediv_value a b ltac:(lia)) as H. cbv zeta in H.
  rewrite Z.sgn_pos, Z.mul_1_r, Z.abs_eq in H by lia. fold v in H.
  split; [assumption|]. split.
  - intros Hlt. destruct (int_truediv a b) as [f|e].
    + exists f. split; [reflexivity|assumption].
    + destruct H as [_ H]. lia.
  - intros f E. rewrite E in H. exact H.
Qed.

Lemma int_truediv_le_one (a b : Z) :
  0 <= a <= b -> 0 < b ->
  exists f, int_truediv a b = Ok f /\ 0 <= F2Z f <= 2 ^ 1074 /\ wf f /\ is_finite f = true.
Proof.
  intros Ha Hb. destruct (int_truediv_nonneg a b ltac:(lia) Hb) as (H0 & H1 & _).
  pose proof (pow2_pos 1074 ltac:(lia)) as P.
  assert (rnd (a * 2 ^ 1074) b <= 2 ^ 1074) as U.
  { rewrite <- rnd_one at 2. apply rnd_mono; nia. }
  pose proof one_lt_top.
  destruct (H1 ltac:(lia)) as (f & E & V & W & F).
  exists f. split; [exact E|]. split; [lia|]. split; assumption.
Qed.

Lemma float_mul_unit (x y : float) :
  wf x -> wf y -> 0 <= F2Z x <= 2 ^ 1074 -> 0 <= F2Z y <= 2 ^ 1074 ->
  is_finite x = true -> is_finite y = true ->
  0 <= F2Z (float_mul x y) <= 2 ^ 1074 /\ wf (float_mul x y).
Proof.
  intros Wx Wy Hx Hy Fx Fy.
  destruct (float_mul_value x y Wx Wy Fx Fy) as [V W].
  pose proof (pow2_pos 1074 ltac:(lia)) as P.
  split; [|exact W]. rewrite V. split.
  - apply rnd_nonneg; nia.
  - rewrite <- rnd_one at 2. apply rnd_mono; nia.
Qed.

Lemma in_unit_interval_F2Z (x : float) :
  wf x -> (in_unit_interval x = true <-> 0 <= F2Z x <= 2 ^ 1074).
Proof.
  intros W. unfold in_unit_interval, float_le.
  rewrite !SFleb_F2Z by (try apply wf_zero; try apply wf_one; assumption).
  rewrite F2Z_one. change (F2Z float_zero) with 0.
  rewrite andb_true_iff, !Z.leb_le. reflexivity.
Qed.

Lemma binary_round_aux_sign (s : bool) (m e : Z) (l : location) :
  has_sign s (binary_round_aux prec emax s m e l).
Proof.
  unfold binary_round_aux.
  destruct (shr_fexp prec emax m e l) as [mrs e1].
  destruct (shr_fexp prec emax _ e1 loc_Exact) as [mrs2 e2].
  destruct (shr_m mrs2); [reflexivity| |exact I].
  destruct (e2 <=? emax - prec); reflexivity.
Qed.

Lemma int_truediv_sign (a b : Z) (f : float) :
  0 <= a -> 0 < b -> int_truediv a b = Ok f -> has_sign false f.
Proof.
  intros Ha Hb. unfold int_truediv.
  destruct (Z.eqb_spec b 0); [lia|].
  replace (a <? 0) with false by (symmetry; apply Z.ltb_ge; lia).
  replace (b <? 0) with false by (symmetry; apply Z.ltb_ge; lia).
  cbn [xorb]. unfold round_quotient.
  destruct (SFdiv_core_binary _ _ _ _ _ _) as [[q e] l].
  pose proof (binary_round_aux_sign false q e l) as S.
  destruct (binary_round_aux prec emax false q e l); intros E; inversion E; subst; exact S.
Qed.

Lemma F2Z_max_float : F2Z (SFmax_float prec emax) = max_float_int * 2 ^ 1074.
Proof. vm_compute. reflexivity. Qed.

Lemma max_float_lt_top : max_float_int * 2 ^ 1074 < top.
Proof. vm_compute. reflexivity. Qed.

Lemma rnd_max_float : rnd (max_float_int * 2 ^ 1074) 1 = max_float_int * 2 ^ 1074.
Proof.
  rewrite <- F2Z_max_float. apply rnd_representable; split; reflexivity.
Qed.

(** Quotients up to the largest float do not overflow. *)
Lemma int_truediv_in_range (a b : Z) :
  0 <= a -> 0 < b -> a <= max_float_int * b ->
  exists f, int_truediv a b = Ok f /\ wf f /\ is_finite f = true /\
            has_sign false f /\ F2Z f = rnd (a * 2 ^ 1074) b.
Proof.
  intros Ha Hb Hm. destruct (int_truediv_nonneg a b Ha Hb) as (H0 & H1 & _).
  pose proof (pow2_pos 1074 ltac:(lia)) as P.
  assert (rnd (a * 2 ^ 1074) b <= max_float_int * 2 ^ 1074) as U.
  { rewrite <- rnd_max_float. apply rnd_mono; nia. }
  pose proof max_float_lt_top.
  destruct (H1 ltac:(lia)) as (f & E & V & W & F).
  exists f. split; [exact E|]. split; [exact W|]. split; [exact F|].
  split; [|exact V]. apply (int_truediv_sign a b); assumption.
Qed.

Lemma float_mul_zero_r (x : float) :
  is_finite x = true -> has_sign false x ->
  float_mul_num x (PInt 0) = S754_zero false.
Proof.
  intros F S. destruct x as [s|s| |s m e]; try discriminate F;
    cbn in S; subst s; reflexivity.
Qed.

Lemma prevalence_value_pos (p d t c : Z) :
  0 < p -> 0 < t ->
  prevalence_value p d t c =
  result_bind (int_truediv d p) (fun x =>
  result_bind (int_truediv c t) (fun y => Ok (float_mul x y))).
Proof.
  intros Hp Ht. unfold prevalence_value.
  destruct (Z.eqb_spec p 0); [lia|].
  replace (t >? 0) with true by (symmetry; apply Z.gtb_lt; lia).
  destruct (int_truediv d p); [|reflexivity]. cbn [result_bind].
  destruct (int_truediv c t); reflexivity.
Qed.

(** The returned value, when there is one, is the exact product of the two
    rounded quotients, rounded. *)
Lemma prevalence_value_exact (p d t c : Z) (r : float) :
  0 < p -> 0 < t -> 0 <= d -> 0 <= c ->
  prevalence_value p d t c = Ok r ->
  exists x y, int_truediv d p = Ok x /\ int_truediv c t = Ok y /\
    r = float_mul x y /\
    F2Z x = rnd (d * 2 ^ 1074) p /\ F2Z y = rnd (c * 2 ^ 1074) t /\
    F2Z r = rnd (F2Z x * F2Z y) (2 ^ 1074) /\ wf r.
Proof.
  intros Hp Ht Hd Hc. rewrite prevalence_value_pos by assumption.
  destruct (int_truediv_nonneg d p Hd Hp) as (_ & _ & Hx).
  destruct (int_truediv_nonneg c t Hc Ht) as (_ & _ & Hy).
  destruct (int_truediv d p) as [x|]; [|discriminate]. cbn [result_bind].
  destruct (int_truediv c t) as [y|]; [|discriminate]. cbn [result_bind].
  intros E. inversion E; subst r.
  destruct (Hx x eq_refl) as (Vx & Wx & Fx). destruct (Hy y eq_refl) as (Vy & Wy & Fy).
  destruct (float_mul_value x y Wx Wy Fx Fy) as [V W].
  exists x, y. repeat split; try assumption; try reflexivity; apply W.
Qed.

(** C1 (amended). For non-negative integers with [population > 0] and
    [total_condition_reports > 0], [calculate_prevalence_rate] returns
    [(diagnosed_cases / population) * (specific_condition_count /
    total_condition_reports)] in float arithmetic: each quotient and the
    product are the exact results rounded to the nearest float. For
    population=100, diagnosed_cases=40, total_condition_reports=50,
    specific_condition_count=10 it returns 0.08000000000000002, the float
    just above the one the literal 0.08 denotes. *)
Theorem C1_prevalence_formula (p d t c : Z) (w : World) :
  0 < p -> 0 <= d -> 0 < t -> 0 <= c ->
  fst (calculate_prevalence_rate p d t c w) =
    result_bind (int_truediv d p) (fun x =>
    result_bind (int_truediv c t) (fun y => Ok (float_mul x y))) /\
  (forall r, fst (calculate_prevalence_rate p d t c w) = Ok r ->
     F2Z r = rnd (rnd (d * 2 ^ 1074) p * rnd (c * 2 ^ 1074) t) (2 ^ 1074)) /\
  fst (calculate_prevalence_rate 100 40 50 10 w) = Ok float_0_08_next /\
  int_truediv 8 100 = Ok float_0_08 /\
  F2Z float_0_08_next = F2Z float_0_08 + 2 ^ (1074 - 56).
Proof.
  intros Hp Hd Ht Hc. rewrite !calculate_prevalence_rate_value.
  split; [apply prevalence_value_pos; assumption|]. split.
  - intros r E.
    destruct (prevalence_value_exact p d t c r Hp Ht Hd Hc E)
      as (x & y & _ & _ & _ & Vx & Vy & V & _).
    rewrite V, Vx, Vy. reflexivity.
  - split; [vm_compute; reflexivity|]. split; vm_compute; reflexivity.
Qed.

Lemma C1_prevalence_formula_witness :
  fst (calculate_prevalence_rate 100 40 50 10 initial_world) =
    result_bind (int_truediv 40 100) (fun x =>
    result_bind (int_truediv 10 50) (fun y => Ok (float_mul x y))) /\
  (forall r, fst (calculate_prevalence_rate 100 40 50 10 initial_world) = Ok r ->
     F2Z r = rnd (rnd (40 * 2 ^ 1074) 100 * rnd (10 * 2 ^ 1074) 50) (2 ^ 1074)) /\
  fst (calculate_prevalence_rate 100 40 50 10 initial_world) = Ok float_0_08_next /\
  int_truediv 8 100 = Ok float_0_08 /\
  F2Z float_0_08_next = F2Z float_0_08 + 2 ^ (1074 - 56).
Proof.
  apply (C1_prevalence_formula 100 40 50 10 initial_world); lia.
Defined.

(** C1 as stated fails: on the scenario input the result is neither the
    float 0.08 nor the number 8/100. *)
Lemma C1_counterexample :
  fst (calculate_prevalence_rate 100 40 50 10 initial_world) <> Ok float_0_08 /\
  forall r, fst (calculate_prevalence_rate 100 40 50 10 initial_world) = Ok r ->
            F2Z r * 100 <> 8 * 2 ^ 1074.
Proof.
  split.
  - vm_compute. discriminate.
  - intros r E. vm_compute in E. inversion E; subst r. vm_compute. discriminate.
Qed.

(** C2 (amended). [calculate_prevalence_rate] raises no exception on
    non-negative integers whose quotients [diagnosed_cases / population]
    and [specific_condition_count / total_condition_reports] do not exceed
    the largest finite float; if [population == 0] it returns exactly [0.0]
    whatever the other arguments are, so no division is performed; if
    [total_condition_reports == 0] the condition rate is [0] and the result
    is [0.0] regardless of [specific_condition_count]. *)
Theorem C2_no_exception (p d t c : Z) (w : World) :
  0 <= p -> 0 <= d -> 0 <= t -> 0 <= c ->
  (p <> 0 -> d <= max_float_int * p) ->
  (t <> 0 -> c <= max_float_int * t) ->
  (exists r, fst (calculate_prevalence_rate p d t c w) = Ok r /\
             (p = 0 -> r = S754_zero false) /\
             (t = 0 -> r = S754_zero false)) /\
  (forall d' t' c' w', fst (calculate_prevalence_rate 0 d' t' c' w') = Ok (S754_zero false)) /\
  (forall c', t = 0 -> fst (calculate_prevalence_rate p d t c' w) = Ok (S754_zero false)).
Proof.
  intros Hp Hd Ht Hc Bd Bc.
  assert (forall c', 0 <= c' -> (t <> 0 -> c' <= max_float_int * t) ->
            exists r, prevalence_value p d t c' = Ok r /\
                      (p = 0 -> r = S754_zero false) /\ (t = 0 -> r = S754_zero false)) as K.
  { intros c' Hc' Bc'. unfold prevalence_value.
    destruct (Z.eqb_spec p 0) as [E|E].
    { exists (S754_zero false). repeat split. }
    destruct (int_truediv_in_range d p Hd ltac:(lia) (Bd E)) as (x & Ex & Wx & Fx & Sx & _).
    rewrite Ex. cbn [result_bind].
    destruct (Z.gtb_spec t 0) as [G|G].
    - destruct (int_truediv_in_range c' t Hc' G (Bc' ltac:(lia))) as (y & Ey & _).
      rewrite Ey. cbn [result_map result_bind]. eexists. split; [reflexivity|]. split; lia.
    - cbn [result_bind]. eexists. split; [reflexivity|]. split; [lia|].
      intros _. apply float_mul_zero_r; assumption. }
  split; [|split].
  - rewrite calculate_prevalence_rate_value. apply K; assumption.
  - intros. rewrite calculate_prevalence_rate_value. reflexivity.
  - intros c' E. rewrite calculate_prevalence_rate_value.
    destruct (K c Hc Bc) as (r & Er & _ & Z0).
    specialize (Z0 E). subst r t. exact Er.
Qed.

Lemma C2_no_exception_witness :
  (exists r, fst (calculate_prevalence_rate 100 40 50 10 initial_world) = Ok r /\
             (100 = 0 -> r = S754_zero false) /\
             (50 = 0 -> r = S754_zero false)) /\
  (forall d' t' c' w', fst (calculate_prevalence_rate 0 d' t' c' w') = Ok (S754_zero false)) /\
  (forall c', 50 = 0 -> fst (calculate_prevalence_rate 100 40 50 c' initial_world) = Ok (S754_zero false)).
Proof.
  apply (C2_no_exception 100 40 50 10 initial_world); try lia;
    intros _; vm_compute; discriminate.
Defined.

(** C2 as stated fails: a quotient beyond the float range raises
    [OverflowError], also when [total_condition_reports] is [0]. *)
Lemma C2_counterexample :
  fst (calculate_prevalence_rate 1 (2 ^ 1024) 0 0 initial_world) = Raise OverflowError.
Proof. vm_compute. reflexivity. Qed.

(** C6 (amended). The rate is in [0, 1] whenever both denominators are
    positive and each numerator is at most its denominator, and is [0.0]
    when [population] is [0]. When [diagnosed_cases > population] a warning
    is logged and the value computed from the data as given is returned
    without clamping. *)
Theorem C6_rate_in_unit_interval (p d t c : Z) (w : World) :
  0 <= p -> 0 <= d -> 0 <= t -> 0 <= c ->
  (0 < p -> 0 < t -> d <= p -> c <= t ->
     exists r, fst (calculate_prevalence_rate p d t c w) = Ok r /\
               in_unit_interval r = true) /\
  (p = 0 -> fst (calculate_prevalence_rate p d t c w) = Ok (S754_zero false)) /\
  (0 < p -> d > p ->
     existsb warns (new_records w (snd (calculate_prevalence_rate p d t c w))) = true /\
     fst (calculate_prevalence_rate p d t c w) = prevalence_value p d t c).
Proof.
  intros Hp Hd Ht Hc. split; [|split].
  - intros Pp Pt Ld Lc. rewrite calculate_prevalence_rate_value.
    rewrite prevalence_value_pos by assumption.
    destruct (int_truediv_le_one d p ltac:(lia) Pp) as (x & Ex & Bx & Wx & Fx).
    destruct (int_truediv_le_one c t ltac:(lia) Pt) as (y & Ey & By & Wy & Fy).
    rewrite Ex, Ey. cbn [result_bind]. eexists. split; [reflexivity|].
    destruct (float_mul_unit x y Wx Wy Bx By Fx Fy) as [B W].
    apply in_unit_interval_F2Z; assumption.
  - intros ->. rewrite calculate_prevalence_rate_value. reflexivity.
  - intros Pp G. split; [|apply calculate_prevalence_rate_value].
    destruct (calculate_prevalence_rate_world p d t c w) as (_ & new & En & Ew).
    unfold new_records. rewrite En, skipn_app, skipn_all, Nat.sub_diag. cbn [skipn app].
    rewrite Ew. destruct (Z.eqb_spec p 0); [lia|].
    replace (d >? p) with true by (symmetry; apply Z.gtb_lt; lia). reflexivity.
Qed.

Lemma C6_rate_in_unit_interval_witness :
  (0 < 100 -> 0 < 50 -> 40 <= 100 -> 10 <= 50 ->
     exists r, fst (calculate_prevalence_rate 100 40 50 10 initial_world) = Ok r /\
               in_unit_interval r = true) /\
  (100 = 0 -> fst (calculate_prevalence_rate 100 40 50 10 initial_world) = Ok (S754_zero false)) /\
  (0 < 100 -> 40 > 100 ->
     existsb warns (new_records initial_world
                      (snd (calculate_prevalence_rate 100 40 50 10 initial_world))) = true /\
     fst (calculate_prevalence_rate 100 40 50 10 initial_world) = prevalence_value 100 40 50 10).
Proof.
  apply (C6_rate_in_unit_interval 100 40 50 10 initial_world); lia.
Defined.

(** C6 as stated fails: with both denominators positive and
    [diagnosed_cases > population] the rate can exceed 1. *)
Lemma C6_counterexample :
  fst (calculate_prevalence_rate 1 2 1 1 initial_world) = Ok float_two /\
  in_unit_interval float_two = false.
Proof. split; vm_compute; reflexivity. Qed.

Lemma prevalence_value_mono (p t d1 d2 c1 c2 : Z) (r2 : float) :
  0 < p -> 0 < t -> 0 <= d1 <= d2 -> 0 <= c1 <= c2 ->
  prevalence_value p d2 t c2 = Ok r2 ->
  exists r1, prevalence_value p d1 t c1 = Ok r1 /\ float_le r1 r2 = true.
Proof.
  intros Hp Ht Hd Hc E2.
  pose proof (pow2_pos 1074 ltac:(lia)) as P.
  destruct (prevalence_value_exact p d2 t c2 r2 Hp Ht ltac:(lia) ltac:(lia) E2)
    as (x2 & y2 & Ex2 & Ey2 & _ & Vx2 & Vy2 & V2 & W2).
  destruct (int_truediv_nonneg d2 p ltac:(lia) Hp) as (_ & _ & Hx2).
  destruct (int_truediv_nonneg c2 t ltac:(lia) Ht) as (_ & _ & Hy2).
  destruct (Hx2 x2 Ex2) as (_ & Wx2 & Fx2). destruct (Hy2 y2 Ey2) as (_ & Wy2 & Fy2).
  apply finite_iff_lt_top in Fx2; [|exact Wx2]. apply finite_iff_lt_top in Fy2; [|exact Wy2].
  destruct (int_truediv_nonneg d1 p ltac:(lia) Hp) as (Nx1 & Hx1 & _).
  destruct (int_truediv_nonneg c1 t ltac:(lia) Ht) as (Ny1 & Hy1 & _).
  assert (rnd (d1 * 2 ^ 1074) p <= rnd (d2 * 2 ^ 1074) p) as Mx by (apply rnd_mono; nia).
  assert (rnd (c1 * 2 ^ 1074) t <= rnd (c2 * 2 ^ 1074) t) as My by (apply rnd_mono; nia).
  destruct (Hx1 ltac:(lia)) as (x1 & Ex1 & Vx1 & Wx1 & Fx1).
  destruct (Hy1 ltac:(lia)) as (y1 & Ey1 & Vy1 & Wy1 & Fy1).
  rewrite prevalence_value_pos, Ex1, Ey1 by assumption. cbn [result_bind].
  eexists. split; [reflexivity|].
  destruct (float_mul_value x1 y1 Wx1 Wy1 Fx1 Fy1) as [V1 W1].
  unfold float_le. rewrite SFleb_F2Z by assumption. apply Z.leb_le.
  rewrite V1, V2. apply rnd_mono; try lia.
  apply Z.mul_le_mono_nonneg_r; [lia|].
  rewrite Vx1, Vy1, Vx2, Vy2. apply Z.mul_le_mono_nonneg; lia.
Qed.

(** C8. For fixed positive [population] and [total_condition_reports],
    [calculate_prevalence_rate] is non-decreasing in [diagnosed_cases] and
    in [specific_condition_count]: whenever the call with the larger
    argument returns, the call with the smaller one returns a rate that is
    not larger. *)
Theorem C8_monotone (p t d1 d2 c1 c2 : Z) (w1 w2 : World) :
  0 < p -> 0 < t -> 0 <= d1 <= d2 -> 0 <= c1 <= c2 ->
  (forall r2, fst (calculate_prevalence_rate p d2 t c1 w2) = Ok r2 ->
     exists r1, fst (calculate_prevalence_rate p d1 t c1 w1) = Ok r1 /\
                float_le r1 r2 = true) /\
  (forall r2, fst (calculate_prevalence_rate p d1 t c2 w2) = Ok r2 ->
     exists r1, fst (calculate_prevalence_rate p d1 t c1 w1) = Ok r1 /\
                float_le r1 r2 = true).
Proof.
  intros Hp Ht Hd Hc. rewrite !calculate_prevalence_rate_value. split; intros r2 E.
  - apply (prevalence_value_mono p t d1 d2 c1 c1 r2); try assumption; lia.
  - apply (prevalence_value_mono p t d1 d1 c1 c2 r2); try assumption; lia.
Qed.

Lemma C8_monotone_witness :
  (forall r2, fst (calculate_prevalence_rate 100 45 50 10 initial_world) = Ok r2 ->
     exists r1, fst (calculate_prevalence_rate 100 40 50 10 initial_world) = Ok r1 /\
                float_le r1 r2 = true) /\
  (forall r2, fst (calculate_prevalence_rate 100 40 50 20 initial_world) = Ok r2 ->
     exists r1, fst (calculate_prevalence_rate 100 40 50 10 initial_world) = Ok r1 /\
                float_le r1 r2 = true).
Proof.
  apply (C8_monotone 100 50 40 45 10 20 initial_world initial_world); lia.
Defined.

Lemma filter_and_length {A : Type} (p q : A -> bool) (l : list A) :
  (List.length (filter (fun r => p r && q r) l) <= List.length (filter p l))%nat.
Proof.
  induction l as [|a l IH]; [apply Nat.le_refl|]. cbn [filter].
  destruct (p a), (q a); cbn [andb List.length]; lia.
Qed.

Lemma disorder_counts_subset (df : DataFrame) (name : string) :
  let '(p, d, t, c) := disorder_counts df name in
  0 <= d <= p /\ 0 <= c <= t.
Proof.
  unfold disorder_counts, len, select.
  pose proof (filter_and_length is_main (answers "Yes") (filter in_2016 df)).
  pose proof (filter_and_length is_follow_up (answers name) (filter in_2016 df)).
  lia.
Qed.

Lemma is_rate_zero : is_rate (S754_zero false).
Proof. split; [apply wf_zero|split; reflexivity]. Qed.

Lemma prevalence_value_rate (p d t c : Z) :
  0 <= d <= p -> 0 <= c <= t ->
  exists r, prevalence_value p d t c = Ok r /\ is_rate r.
Proof.
  intros Hd Hc. unfold prevalence_value.
  destruct (Z.eqb_spec p 0) as [E|E].
  { exists (S754_zero false). split; [reflexivity|apply is_rate_zero]. }
  destruct (int_truediv_le_one d p Hd ltac:(lia)) as (x & Ex & Bx & Wx & Fx).
  rewrite Ex. cbn [result_bind].
  destruct (Z.gtb_spec t 0) as [G|G].
  - destruct (int_truediv_le_one c t Hc G) as (y & Ey & By & Wy & Fy).
    rewrite Ey. cbn [result_map result_bind float_mul_num].
    eexists. split; [reflexivity|].
    destruct (float_mul_unit x y Wx Wy Bx By Fx Fy) as [B W].
    split; [exact W|]. split.
    + apply finite_iff_lt_top; [exact W|]. pose proof one_lt_top. pose proof top_pos. lia.
    + apply in_unit_interval_F2Z; assumption.
  - cbn [result_bind float_mul_num]. eexists. split; [reflexivity|].
    change (float_of_int 0) with (S754_zero false).
    destruct (float_mul_unit x (S754_zero false) Wx (wf_zero false) Bx) as [B W];
      try assumption; try reflexivity.
    { cbn [F2Z]. pose proof (pow2_pos 1074). lia. }
    split; [exact W|]. split.
    + apply finite_iff_lt_top; [exact W|]. pose proof one_lt_top. pose proof top_pos. lia.
    + apply in_unit_interval_F2Z; assumption.
Qed.

Lemma calculate_disorder_prevalence_value (df : DataFrame) (name : string) (w : World) :
  fst (calculate_disorder_prevalence df name w) = disorder_prevalence_value df name.
Proof.
  unfold calculate_disorder_prevalence, disorder_prevalence_value, disorder_counts.
  unfold bind at 1 2 3 4 5. unfold logger_info at 1 2 3 4, logger_log. cbn [fst snd].
  match goal with
  | |- fst (match calculate_prevalence_rate ?p ?d ?t ?c ?w0 with _ => _ end) = _ =>
      pose proof (calculate_prevalence_rate_value p d t c w0) as V;
      destruct (calculate_prevalence_rate p d t c w0) as [[r|e] w1]
  end; cbn [fst] in V; rewrite <- V; reflexivity.
Qed.

Lemma disorder_prevalence_value_rate (df : DataFrame) (name : string) :
  exists r, disorder_prevalence_value df name = Ok r /\ is_rate r.
Proof.
  unfold disorder_prevalence_value.
  pose proof (disorder_counts_subset df name) as S.
  destruct (disorder_counts df name) as [[[p d] t] c]. destruct S.
  apply prevalence_value_rate; assumption.
Qed.

Lemma quiet_ret {A : Type} (a : A) : quiet (ret a).
Proof.
  intros w. split; [reflexivity|]. exists []. split; [symmetry; apply app_nil_r|reflexivity].
Qed.

Lemma quiet_lift {A : Type} (r : result A) : quiet (lift r).
Proof.
  intros w. split; [reflexivity|]. exists []. split; [symmetry; apply app_nil_r|reflexivity].
Qed.

Lemma quiet_logger_info (msg : string) (args : list log_arg) :
  quiet (logger_info msg args).
Proof.
  intros w. split; [reflexivity|]. eexists. split; reflexivity.
Qed.

Lemma quiet_bind {A B : Type} (m : M A) (k : A -> M B) :
  quiet m -> (forall a, quiet (k a)) -> quiet (bind m k).
Proof.
  intros Hm Hk w. unfold bind. specialize (Hm w).
  destruct (m w) as [[a|e] w1]; cbn [snd] in *.
  - destruct Hm as (D1 & n1 & T1 & E1). destruct (Hk a w1) as (D2 & n2 & T2 & E2).
    split; [congruence|]. exists (n1 ++ n2). split.
    + rewrite T2, T1. symmetry. apply app_assoc.
    + rewrite existsb_app, E1, E2. reflexivity.
  - exact Hm.
Qed.

Lemma quiet_new_records {A : Type} (m : M A) (w : World) :
  quiet m -> existsb warns (new_records w (snd (m w))) = false.
Proof.
  intros Q. destruct (Q w) as (_ & new & En & Ew).
  unfold new_records. rewrite En, skipn_app, skipn_all, Nat.sub_diag. exact Ew.
Qed.

Lemma quiet_calculate_prevalence_rate (p d t c : Z) :
  d <= p -> quiet (calculate_prevalence_rate p d t c).
Proof.
  intros L w. destruct (calculate_prevalence_rate_world p d t c w) as (D & new & En & Ew).
  split; [exact D|]. exists new. split; [exact En|]. rewrite Ew.
  rewrite Z.gtb_ltb. replace (p <? d) with false by (symmetry; apply Z.ltb_ge; lia).
  apply andb_false_r.
Qed.

Lemma quiet_calculate_disorder_prevalence (df : DataFrame) (name : string) :
  quiet (calculate_disorder_prevalence df name).
Proof.
  unfold calculate_disorder_prevalence.
  pose proof (disorder_counts_subset df name) as S. unfold disorder_counts in S.
  cbv zeta.
  do 4 (apply quiet_bind; [apply quiet_logger_info|intros _]).
  apply quiet_bind; [apply quiet_calculate_prevalence_rate; lia|intros r].
  apply quiet_bind; [apply quiet_logger_info|intros _]. apply quiet_ret.
Qed.

(** C10. The four counts of [calculate_disorder_prevalence] satisfy
    [diagnosed_cases <= population] and [specific_condition_count <=
    total_condition_reports], since each numerator counts rows of its
    denominator that pass one more test; so the call logs no warning,
    raises nothing and returns a rate in [0, 1]. *)
Theorem C10_counts_are_subsets (df : DataFrame) (disorder_name : string) (w : World) :
  (let '(population, diagnosed_cases, total_condition_reports, specific_condition_count) :=
     disorder_counts df disorder_name in
   0 <= diagnosed_cases <= population /\
   0 <= specific_condition_count <= total_condition_reports /\
   fst (calculate_disorder_prevalence df disorder_name w) =
     prevalence_value population diagnosed_cases total_condition_reports
                      specific_condition_count) /\
  existsb warns
    (new_records w (snd (calculate_disorder_prevalence df disorder_name w))) = false /\
  exists r, fst (calculate_disorder_prevalence df disorder_name w) = Ok r /\
            in_unit_interval r = true.
Proof.
  split; [|split].
  - pose proof (disorder_counts_subset df disorder_name) as S.
    pose proof (calculate_disorder_prevalence_value df disorder_name w) as V.
    unfold disorder_prevalence_value in V.
    destruct (disorder_counts df disorder_name) as [[[p d] t] c].
    destruct S. repeat split; try lia. exact V.
  - apply quiet_new_records, quiet_calculate_disorder_prevalence.
  - rewrite calculate_disorder_prevalence_value.
    destruct (disorder_prevalence_value_rate df disorder_name) as (r & E & _ & _ & U).
    exists r. split; assumption.
Qed.

(** * The bootstrap loop as a function of the seed *)

Section BootstrapFacts.

Context {RS : RandomState}.

Lemma disorder_prevalence_value_rate_of (df : DataFrame) (name : string) :
  disorder_prevalence_value df name = Ok (rate_of name df) /\ is_rate (rate_of name df).
Proof.
  unfold rate_of. destruct (disorder_prevalence_value_rate df name) as (r & E & R).
  rewrite E. split; [reflexivity|exact R].
Qed.

Lemma bootstrap_loop_value (name : string) (ss : option Z) (main follow : DataFrame) :
  forall (k : nat) (g : rng) (acc : list float) (w : World),
    fst (bootstrap_loop k main follow name ss g acc w) =
    result_map (fun samples => acc ++ map (rate_of name) samples)
               (bootstrap_samples_from k main follow ss g).
Proof.
  induction k as [|k IH]; intros g acc w.
  - cbn. rewrite app_nil_r. reflexivity.
  - cbn [bootstrap_loop bootstrap_samples_from]. unfold bind at 1, lift.
    destruct (draw_samples main follow ss g) as [[[bm bf] g']|e]; [|reflexivity].
    cbn [result_bind]. unfold bind at 1 2 3. unfold logger_info at 1 2, logger_log.
    cbn [fst snd].
    match goal with
    | |- context [calculate_disorder_prevalence ?d ?n ?w0] =>
        pose proof (calculate_disorder_prevalence_value d n w0) as V;
        destruct (calculate_disorder_prevalence d n w0) as [[r|e] w1]
    end; cbn [fst] in V;
      destruct (disorder_prevalence_value_rate_of (bm ++ bf) name) as [Er _];
      rewrite Er in V; [|discriminate V].
    inversion V; subst r. rewrite IH.
    destruct (bootstrap_samples_from k main follow ss g') as [samples|e]; [|reflexivity].
    cbn [result_map map]. rewrite <- app_assoc. reflexivity.
Qed.

Lemma bootstrap_prevalence_rate_value (df : DataFrame) (name : string)
  (n : Z) (ss : option Z) (seed : Z) (w : World) :
  fst (bootstrap_prevalence_rate df name n ss seed w) = bootstrap_value df name n ss seed.
Proof.
  unfold bootstrap_prevalence_rate, bootstrap_value. unfold bind at 1.
  pose proof (calculate_disorder_prevalence_value df name w) as V.
  destruct (calculate_disorder_prevalence df name w) as [[r|e] w1]; cbn [fst] in V;
    rewrite <- V; [|reflexivity].
  cbn [result_bind]. unfold bind at 1, lift.
  destruct (np_random_RandomState seed) as [g|e]; [|reflexivity].
  cbn [result_bind]. unfold bind at 1.
  match goal with
  | |- context [bootstrap_loop ?k ?m ?f ?nm ?s ?g0 ?acc ?w0] =>
      pose proof (bootstrap_loop_value nm s m f k g0 acc w0) as L;
      destruct (bootstrap_loop k m f nm s g0 acc w0) as [[rates|e] w2]
  end; cbn [fst] in L;
    destruct (bootstrap_samples_from _ _ _ _ _) as [samples|e'];
    cbn [result_map] in *; try discriminate L; inversion L; subst; reflexivity.
Qed.

Lemma bootstrap_samples_length (main follow : DataFrame) (ss : option Z) :
  forall (k : nat) (g : rng) (samples : list DataFrame),
    bootstrap_samples_from k main follow ss g = Ok samples ->
    List.length samples = k.
Proof.
  induction k as [|k IH]; intros g samples E; cbn in E.
  - inversion E. reflexivity.
  - destruct (draw_samples main follow ss g) as [[[bm bf] g']|e]; [|discriminate].
    cbn [result_bind] in E.
    destruct (bootstrap_samples_from k main follow ss g') as [rest|e] eqn:R; [|discriminate].
    inversion E. cbn. f_equal. apply (IH g'). exact R.
Qed.

Lemma take_length (df : DataFrame) (idx : list nat) :
  Forall (fun i => (i < List.length df)%nat) idx ->
  List.length (take df idx) = List.length idx.
Proof.
  induction 1 as [|i idx Hi _ IH]; [reflexivity|].
  unfold take in *. cbn [flat_map]. rewrite length_app, IH.
  destruct (nth_error df i) eqn:E; [reflexivity|].
  apply nth_error_None in E. lia.
Qed.

Lemma DataFrame_sample_length (df sample : DataFrame) (n : Z) (g g' : rng) :
  rng_lawful RS ->
  DataFrame_sample df n g = Ok (sample, g') -> len sample = n.
Proof.
  intros [Len Rng].
  unfold DataFrame_sample. destruct (Z.ltb_spec n 0) as [|Hn]; [discriminate|].
  destruct ((len df =? 0) && (0 <? n)) eqn:C; [discriminate|].
  pose proof (Len g (List.length df) (Z.to_nat n)) as L.
  pose proof (Rng g (List.length df) (Z.to_nat n)) as R.
  destruct (rng_choice g (List.length df) (Z.to_nat n)) as [idx g1]. cbn [fst] in L, R.
  intros E. inversion E; subst. unfold len.
  destruct (Nat.eq_dec (List.length df) 0) as [Z0|NZ].
  - assert (n = 0).
    { unfold len in C. rewrite Z0 in C. cbn in C. apply Z.ltb_ge in C. lia. }
    subst n. destruct idx; [reflexivity|discriminate L].
  - rewrite take_length by (apply R; lia). lia.
Qed.

Lemma DataFrame_sample_own_size (df : DataFrame) (g : rng) :
  exists sample g', DataFrame_sample df (len df) g = Ok (sample, g').
Proof.
  unfold DataFrame_sample, len.
  replace (Z.of_nat (List.length df) <? 0) with false by (symmetry; apply Z.ltb_ge; lia).
  destruct (Z.eqb_spec (Z.of_nat (List.length df)) 0) as [E|E].
  - rewrite E. cbn [andb Z.ltb Z.compare].
    destruct (rng_choice g _ _) as [idx g1]. eauto.
  - cbn [andb]. destruct (rng_choice g _ _) as [idx g1]. eauto.
Qed.

(** The sizes of the two samples of an iteration. *)
Lemma draw_samples_sizes (main follow bm bf : DataFrame) (ss : option Z) (g g' : rng) :
  rng_lawful RS ->
  draw_samples main follow ss g = Ok (bm, bf, g') ->
  len bm = sample_n ss main /\ len bf = sample_n ss follow.
Proof.
  intros Law. unfold draw_samples.
  destruct (DataFrame_sample main (sample_n ss main) g) as [[bm' g1]|e] eqn:E1; [|discriminate].
  cbn [result_bind].
  destruct (DataFrame_sample follow (sample_n ss follow) g1) as [[bf' g2]|e] eqn:E2; [|discriminate].
  cbn [result_bind]. intros E. inversion E; subst.
  split; eapply DataFrame_sample_length; eassumption.
Qed.

Lemma draw_samples_default (main follow : DataFrame) (ss : option Z) (g : rng) :
  ss = None \/ ss = Some 0 ->
  exists bm bf g', draw_samples main follow ss g = Ok (bm, bf, g').
Proof.
  intros H. unfold draw_samples.
  assert (forall group, sample_n ss group = len group) as S
    by (intros group; destruct H; subst ss; reflexivity).
  rewrite !S. destruct (DataFrame_sample_own_size main g) as (bm & g1 & E1).
  rewrite E1. cbn [result_bind].
  destruct (DataFrame_sample_own_size follow g1) as (bf & g2 & E2).
  rewrite E2. cbn [result_bind]. eauto.
Qed.

Lemma bootstrap_samples_default (main follow : DataFrame) (ss : option Z) :
  ss = None \/ ss = Some 0 ->
  forall (k : nat) (g : rng),
    exists samples, bootstrap_samples_from k main follow ss g = Ok samples.
Proof.
  intros H. induction k as [|k IH]; intros g; cbn.
  - eauto.
  - destruct (draw_samples_default main follow ss g H) as (bm & bf & g' & E).
    rewrite E. cbn [result_bind]. destruct (IH g') as (rest & R). rewrite R.
    cbn. eauto.
Qed.

End BootstrapFacts.

(** * Percentiles *)

Lemma round_ratio_value (num den : Z) :
  0 < den -> F2Z (round_ratio num den) = rnd num den /\ wf (round_ratio num den).
Proof.
  intros Hd. unfold round_ratio. pose proof (pow2_pos 1074 ltac:(lia)) as P.
  destruct (round_quotient_value (num <? 0) (Z.abs num) (den * 2 ^ 1074)
              ltac:(lia) ltac:(nia)) as [V W].
  split; [|exact W]. rewrite V. apply rnd_ext; try nia.
  destruct (Z.ltb_spec num 0); unfold cond_Zopp; [rewrite Z.abs_neq by lia|rewrite Z.abs_eq by lia]; ring.
Qed.

Lemma rank_den_pos : 0 < rank_den.
Proof. unfold rank_den. pose proof (pow2_pos 1074 ltac:(lia)). lia. Qed.

(** *** Sorting *)

Lemma insert_sorted_perm (x : float) (l : list float) :
  Permutation (insert_sorted x l) (x :: l).
Proof.
  induction l as [|y l IH]; cbn; [apply Permutation_refl|].
  destruct (float_le x y); [apply Permutation_refl|].
  apply perm_trans with (y :: x :: l); [apply perm_skip, IH|apply perm_swap].
Qed.

Lemma np_sort_perm (a : list float) : Permutation (np_sort a) a.
Proof.
  induction a as [|x a IH]; cbn; [apply perm_nil|].
  apply perm_trans with (x :: np_sort a); [apply insert_sorted_perm|apply perm_skip, IH].
Qed.

Lemma np_sort_length (a : list float) : List.length (np_sort a) = List.length a.
Proof. apply Permutation_length, np_sort_perm. Qed.

Lemma np_sort_Forall (P : float -> Prop) (a : list float) :
  Forall P a -> Forall P (np_sort a).
Proof.
  intros H. apply Forall_forall. intros x Hx. rewrite Forall_forall in H. apply H.
  apply (Permutation_in x (np_sort_perm a)). exact Hx.
Qed.

Lemma insert_sorted_sorted (x : float) (l : list float) :
  wf x -> Forall wf l -> StronglySorted le_value l ->
  StronglySorted le_value (insert_sorted x l).
Proof.
  intros Wx Wl S. induction S as [|y l S IH Hy]; cbn.
  - constructor; constructor.
  - inversion Wl as [|? ? Wy Wl']; subst.
    unfold float_le. rewrite SFleb_F2Z by assumption.
    destruct (Z.leb_spec (F2Z x) (F2Z y)) as [L|G].
    + constructor; [constructor; assumption|].
      constructor; [exact L|].
      rewrite Forall_forall in *. intros z Hz. specialize (Hy z Hz).
      unfold le_value in *. lia.
    + constructor; [apply IH; assumption|].
      apply Forall_forall. intros z Hz.
      apply (Permutation_in z (insert_sorted_perm x l)) in Hz.
      destruct Hz as [<-|Hz]; [unfold le_value; lia|].
      rewrite Forall_forall in Hy. apply Hy, Hz.
Qed.

Lemma insert_sorted_wf (x : float) (l : list float) :
  wf x -> Forall wf l -> Forall wf (insert_sorted x l).
Proof.
  intros Wx Wl. apply Forall_forall. intros z Hz.
  apply (Permutation_in z (insert_sorted_perm x l)) in Hz.
  destruct Hz as [<-|Hz]; [assumption|]. rewrite Forall_forall in Wl. apply Wl, Hz.
Qed.

Lemma np_sort_sorted (a : list float) :
  Forall wf a -> StronglySorted le_value (np_sort a).
Proof.
  induction 1 as [|x a Wx Wa IH]; cbn; [constructor|].
  apply insert_sorted_sorted; [assumption|apply np_sort_Forall; assumption|assumption].
Qed.

Lemma StronglySorted_values (s : list float) :
  StronglySorted le_value s -> sorted_values s.
Proof.
  induction 1 as [|x s S IH Hx]; intros i j [Hij Hj]; cbn in Hj; [lia|].
  destruct i as [|i], j as [|j]; cbn [nth]; try lia.
  - rewrite Forall_forall in Hx. apply Hx. apply nth_In. lia.
  - apply IH. lia.
Qed.

Lemma np_sort_sorted_values (a : list float) :
  Forall wf a -> sorted_values (np_sort a).
Proof. intros H. apply StronglySorted_values, np_sort_sorted, H. Qed.

(** *** The interpolated value is monotone in the virtual index *)

Lemma interpolate_mono (s : list float) (T1 T2 : Z) :
  sorted_values s -> s <> [] ->
  0 <= T1 <= T2 -> T2 <= rank_den * (Z.of_nat (List.length s) - 1) ->
  interpolate s T1 <= interpolate s T2.
Proof.
  intros Hs Hne HT HU. unfold interpolate, lerp_num.
  pose proof rank_den_pos as HR. set (R := rank_den) in *.
  set (n := Z.of_nat (List.length s)) in *.
  assert (1 <= n) by (destruct s; [contradiction|unfold n; cbn [List.length]; lia]).
  pose proof (Z.div_mod T1 R ltac:(lia)) as D1. pose proof (Z.mod_pos_bound T1 R HR) as B1.
  pose proof (Z.div_mod T2 R ltac:(lia)) as D2. pose proof (Z.mod_pos_bound T2 R HR) as B2.
  assert (0 <= T1 / R) as P1 by (apply Z.div_pos; lia).
  assert (T1 / R <= T2 / R) as M by (apply Z.div_le_mono; lia).
  assert (T2 / R <= n - 1) as U2.
  { apply Z.div_le_upper_bound; [lia|]. lia. }
  set (i1 := T1 / R) in *. set (i2 := T2 / R) in *.
  set (g1 := T1 mod R) in *. set (g2 := T2 mod R) in *.
  assert (forall i j, 0 <= i <= j -> j <= n - 1 ->
            F2Z (nth (Z.to_nat i) s S754_nan) <= F2Z (nth (Z.to_nat j) s S754_nan)) as S.
  { intros i j Hij Hj. apply Hs. unfold n in *. lia. }
  pose proof (S i1 (Z.min (i1 + 1) (n - 1)) ltac:(lia) ltac:(lia)) as A1.
  pose proof (S i2 (Z.min (i2 + 1) (n - 1)) ltac:(lia) ltac:(lia)) as A2.
  destruct (Z.eq_dec i1 i2) as [E|NE].
  - rewrite <- E in *. 
    set (a := F2Z (nth (Z.to_nat i1) s S754_nan)) in *.
    set (b := F2Z (nth (Z.to_nat (Z.min (i1 + 1) (n - 1))) s S754_nan)) in *.
    assert (g1 <= g2) by lia. nia.
  - pose proof (S (Z.min (i1 + 1) (n - 1)) i2 ltac:(lia) ltac:(lia)) as A3.
    set (a1 := F2Z (nth (Z.to_nat i1) s S754_nan)) in *.
    set (b1 := F2Z (nth (Z.to_nat (Z.min (i1 + 1) (n - 1))) s S754_nan)) in *.
    set (a2 := F2Z (nth (Z.to_nat i2) s S754_nan)) in *.
    set (b2 := F2Z (nth (Z.to_nat (Z.min (i2 + 1) (n - 1))) s S754_nan)) in *.
    apply Z.le_trans with (b1 * R); [nia|].
    apply Z.le_trans with (a2 * R); nia.
Qed.

(** The interpolated value lies between the smallest and the largest
    entry. *)
Lemma interpolate_bounds (s : list float) (T : Z) :
  sorted_values s -> s <> [] ->
  0 <= T -> T <= rank_den * (Z.of_nat (List.length s) - 1) ->
  F2Z (nth 0 s S754_nan) * rank_den <= interpolate s T <=
  F2Z (nth (List.length s - 1) s S754_nan) * rank_den.
Proof.
  intros Hs Hne HT HU. unfold interpolate, lerp_num.
  pose proof rank_den_pos as HR. set (R := rank_den) in *.
  set (n := Z.of_nat (List.length s)) in *.
  assert (1 <= n) by (destruct s; [contradiction|unfold n; cbn [List.length]; lia]).
  pose proof (Z.mod_pos_bound T R HR) as B.
  assert (0 <= T / R) as P1 by (apply Z.div_pos; lia).
  assert (T / R <= n - 1) as U2 by (apply Z.div_le_upper_bound; lia).
  set (i := T / R) in *. set (g := T mod R) in *.
  assert (forall i j : nat, (i <= j)%nat -> (Z.of_nat j <= n - 1) ->
            F2Z (nth i s S754_nan) <= F2Z (nth j s S754_nan)) as S.
  { intros i0 j0 Hij Hj. apply Hs. unfold n in *. lia. }
  pose proof (S 0%nat (Z.to_nat i) ltac:(lia) ltac:(lia)).
  pose proof (S 0%nat (Z.to_nat (Z.min (i + 1) (n - 1))) ltac:(lia) ltac:(lia)).
  pose proof (S (Z.to_nat i) (List.length s - 1)%nat ltac:(unfold n in *; lia) ltac:(unfold n in *; lia)).
  pose proof (S (Z.to_nat (Z.min (i + 1) (n - 1))) (List.length s - 1)%nat
                ltac:(unfold n in *; lia) ltac:(unfold n in *; lia)).
  set (a := F2Z (nth (Z.to_nat i) s S754_nan)) in *.
  set (b := F2Z (nth (Z.to_nat (Z.min (i + 1) (n - 1))) s S754_nan)) in *.
  set (lo := F2Z (nth 0 s S754_nan)) in *.
  set (hi := F2Z (nth (List.length s - 1) s S754_nan)) in *.
  split; nia.
Qed.

(** *** [np.percentile] on finite data *)

Lemma F2Z_100 : F2Z float_100 = 100 * 2 ^ 1074.
Proof. vm_compute. reflexivity. Qed.
Lemma F2Z_50 : F2Z float_50 = 50 * 2 ^ 1074.
Proof. vm_compute. reflexivity. Qed.
Lemma F2Z_half : F2Z float_half * 2 = 2 ^ 1074.
Proof. vm_compute. reflexivity. Qed.
Lemma F2Z_two : F2Z float_two = 2 * 2 ^ 1074.
Proof. vm_compute. reflexivity. Qed.

Lemma finite_float_const (m : positive) (e : Z) :
  bounded prec emax m e = true -> finite_float (S754_finite false m e).
Proof. intros H. split; [split; [exact H|reflexivity]|reflexivity]. Qed.

Lemma finite_float_two : finite_float float_two.
Proof. apply finite_float_const. reflexivity. Qed.
Lemma finite_float_half : finite_float float_half.
Proof. apply finite_float_const. reflexivity. Qed.
Lemma finite_float_50 : finite_float float_50.
Proof. apply finite_float_const. reflexivity. Qed.
Lemma finite_float_100 : finite_float float_100.
Proof. apply finite_float_const. reflexivity. Qed.

Lemma rnd_const (f : float) (A B : Z) :
  finite_float f -> 0 < B -> A = F2Z f * B -> rnd A B = F2Z f.
Proof.
  intros [W F] HB ->. rewrite <- (rnd_representable f W F) at 2.
  apply rnd_ext; lia.
Qed.

Lemma finite_float_in (a : list float) (x : float) :
  Forall finite_float a -> In x a -> finite_float x.
Proof. intros H. rewrite Forall_forall in H. apply H. Qed.

Lemma finite_no_nan (a : list float) :
  Forall finite_float a -> existsb is_nan a = false.
Proof.
  induction 1 as [|x a [[_ N] _] _ IH]; [reflexivity|]. cbn. rewrite N, IH. reflexivity.
Qed.

Lemma np_percentile_finite (a : list float) (q : float) :
  a <> [] -> Forall finite_float a -> wf q -> 0 <= F2Z q <= 100 * 2 ^ 1074 ->
  let v := round_ratio
             (interpolate (np_sort a) (F2Z q * (Z.of_nat (List.length a) - 1))) rank_den in
  np_percentile a q = Ok v /\
  F2Z v = rnd (interpolate (np_sort a) (F2Z q * (Z.of_nat (List.length a) - 1))) rank_den /\
  finite_float v.
Proof.
  intros Hne Hfin Wq Hq v.
  pose proof rank_den_pos as HR.
  assert (wf float_100) as W100 by apply finite_float_100.
  assert (1 <= Z.of_nat (List.length a)) as Hn
    by (destruct a; [contradiction|cbn [List.length]; lia]).
  set (n := Z.of_nat (List.length a)) in *.
  set (T := F2Z q * (n - 1)) in *.
  assert (0 <= T <= rank_den * (n - 1)) as HT by (unfold T, rank_den; nia).
  assert (Forall wf a) as Wa.
  { eapply Forall_impl; [|exact Hfin]. intros x [W _]. exact W. }
  pose proof (np_sort_sorted_values a Wa) as Srt.
  assert (np_sort a <> []) as Sne.
  { intros E. pose proof (np_sort_length a) as L. rewrite E in L. destruct a; [contradiction|discriminate L]. }
  assert (0 <= T / rank_den <= n - 1) as Hi.
  { split; [apply Z.div_pos; lia|apply Z.div_le_upper_bound; lia]. }
  assert (forall k, 0 <= k <= n - 1 -> finite_float (nth (Z.to_nat k) (np_sort a) S754_nan)) as Fk.
  { intros k Hk. apply (finite_float_in (np_sort a)); [apply np_sort_Forall; exact Hfin|].
    apply nth_In. rewrite np_sort_length. unfold n in *. lia. }
  destruct (round_ratio_value (interpolate (np_sort a) T) rank_den HR) as [V W].
  fold v in V, W.
  split; [|split; [exact V|]].
  - unfold np_percentile. unfold float_le.
    change (float_of_int 100) with float_100.
    rewrite !SFleb_F2Z by (try apply wf_zero; assumption).
    rewrite F2Z_100. change (F2Z float_zero) with 0.
    replace (0 <=? F2Z q) with true by (symmetry; apply Z.leb_le; lia).
    replace (F2Z q <=? 100 * 2 ^ 1074) with true by (symmetry; apply Z.leb_le; lia).
    cbn [andb negb].
    destruct a as [|x a']; [contradiction|].
    rewrite (finite_no_nan _ Hfin). fold n. fold T.
    destruct (Fk (T / rank_den) ltac:(lia)) as [_ F1].
    destruct (Fk (Z.min (T / rank_den + 1) (n - 1)) ltac:(lia)) as [_ F2].
    rewrite F1, F2. cbn [andb]. unfold v, interpolate.
    rewrite np_sort_length. fold n. reflexivity.
  - split; [exact W|]. apply finite_iff_lt_top; [exact W|]. rewrite V.
    (* the interpolated value lies between two finite entries *)
    pose proof (interpolate_bounds (np_sort a) T Srt Sne ltac:(lia)
                  ltac:(rewrite np_sort_length; fold n; lia)) as [Lo Hi'].
    destruct (Fk 0 ltac:(lia)) as [W0 F0].
    assert (finite_float (nth (List.length (np_sort a) - 1) (np_sort a) S754_nan)) as [W1 F1].
    { replace (List.length (np_sort a) - 1)%nat with (Z.to_nat (n - 1))
        by (rewrite np_sort_length; unfold n; lia).
      apply Fk. lia. }
    apply finite_iff_lt_top in F0; [|exact W0]. apply finite_iff_lt_top in F1; [|exact W1].
    change (Z.to_nat 0) with 0%nat in F0.
    set (lo := nth 0 (np_sort a) S754_nan) in *.
    set (hi := nth (List.length (np_sort a) - 1) (np_sort a) S754_nan) in *.
    assert (rnd (F2Z lo * rank_den) rank_den = F2Z lo) as Elo.
    { assert (is_finite lo = true) as Fl by (apply finite_iff_lt_top; assumption).
      apply rnd_const; [split; assumption|lia|reflexivity]. }
    assert (rnd (F2Z hi * rank_den) rank_den = F2Z hi) as Ehi.
    { assert (is_finite hi = true) as Fh by (apply finite_iff_lt_top; assumption).
      apply rnd_const; [split; assumption|lia|reflexivity]. }
    assert (F2Z lo <= rnd (interpolate (np_sort a) T) rank_den).
    { rewrite <- Elo. apply rnd_mono; nia. }
    assert (rnd (interpolate (np_sort a) T) rank_den <= F2Z hi).
    { rewrite <- Ehi. apply rnd_mono; nia. }
    lia.
Qed.

Lemma np_percentile_mono (a : list float) (q1 q2 v1 v2 : float) :
  a <> [] -> Forall finite_float a -> wf q1 -> wf q2 ->
  0 <= F2Z q1 <= F2Z q2 -> F2Z q2 <= 100 * 2 ^ 1074 ->
  np_percentile a q1 = Ok v1 -> np_percentile a q2 = Ok v2 ->
  float_le v1 v2 = true.
Proof.
  intros Hne Hfin W1 W2 H12 H2 E1 E2.
  destruct (np_percentile_finite a q1 Hne Hfin W1 ltac:(lia)) as (E1' & V1 & [Wv1 _]).
  destruct (np_percentile_finite a q2 Hne Hfin W2 ltac:(lia)) as (E2' & V2 & [Wv2 _]).
  rewrite E1 in E1'. rewrite E2 in E2'. inversion E1'; inversion E2'; subst v1 v2.
  unfold float_le. rewrite SFleb_F2Z by assumption. apply Z.leb_le.
  rewrite V1, V2. pose proof rank_den_pos.
  assert (1 <= Z.of_nat (List.length a)) as Hn
    by (destruct a; [contradiction|cbn [List.length]; lia]).
  apply rnd_mono; try lia. apply Z.mul_le_mono_nonneg_r; [lia|].
  assert (Forall wf a) as Wa.
  { eapply Forall_impl; [|exact Hfin]. intros x [W _]. exact W. }
  apply interpolate_mono.
  - apply np_sort_sorted_values, Wa.
  - intros E. pose proof (np_sort_length a) as L. rewrite E in L.
    destruct a; [contradiction|discriminate L].
  - nia.
  - rewrite np_sort_length. unfold rank_den. nia.
Qed.

(** *** The two percentile ranks *)

Lemma float_sub_from_one (x : float) :
  finite_float x -> 0 <= F2Z x <= 2 ^ 1074 ->
  finite_float (float_sub float_one x) /\
  F2Z (float_sub float_one x) = rnd (2 ^ 1074 - F2Z x) 1 /\
  0 <= F2Z (float_sub float_one x) <= 2 ^ 1074.
Proof.
  intros [W F] B.
  destruct (float_sub_value float_one x wf_one W eq_refl F) as [V Ws].
  rewrite F2Z_one in V.
  assert (0 <= rnd (2 ^ 1074 - F2Z x) 1 <= 2 ^ 1074) as R.
  { split; [apply rnd_nonneg; lia|]. rewrite <- rnd_one at 2. apply rnd_mono; lia. }
  pose proof one_lt_top. pose proof top_pos.
  split; [split; [exact Ws|apply finite_iff_lt_top; [exact Ws|lia]]|].
  split; [exact V|lia].
Qed.

Lemma confidence_ranks (cl : float) :
  wf cl -> float_lt float_zero cl = true -> float_lt cl float_one = true ->
  let lower_percentile := float_div (float_sub float_one cl) float_two in
  let upper_percentile := float_sub float_one lower_percentile in
  let q_lo := float_mul lower_percentile float_100 in
  let q_hi := float_mul upper_percentile float_100 in
  float_truediv (float_sub float_one cl) float_two = Ok lower_percentile /\
  wf q_lo /\ wf q_hi /\
  0 <= F2Z q_lo <= 50 * 2 ^ 1074 /\
  50 * 2 ^ 1074 <= F2Z q_hi <= 100 * 2 ^ 1074.
Proof.
  intros W L0 L1 lp up q_lo q_hi.
  unfold float_lt in L0, L1.
  rewrite SFltb_F2Z in L0 by (try apply wf_zero; assumption).
  rewrite SFltb_F2Z in L1 by (try apply wf_one; assumption).
  apply Z.ltb_lt in L0, L1. change (F2Z float_zero) with 0 in L0. rewrite F2Z_one in L1.
  pose proof one_lt_top as OT. pose proof top_pos as TP.
  pose proof (pow2_pos 1074 ltac:(lia)) as P.
  assert (finite_float cl) as Fc.
  { split; [exact W|]. apply finite_iff_lt_top; [exact W|lia]. }
  destruct (float_sub_from_one cl Fc ltac:(lia)) as ([Wx Fx] & _ & Bx).
  set (x := float_sub float_one cl) in *.
  destruct finite_float_two as [W2 F2].
  destruct (float_div_value x float_two Wx W2 Fx F2) as [Vl Wl].
  { rewrite F2Z_two. lia. }
  fold lp in Vl, Wl. rewrite F2Z_two in Vl.
  rewrite Z.sgn_pos, Z.abs_eq, Z.mul_1_r in Vl by lia.
  pose proof F2Z_half as Hh.
  assert (0 <= F2Z lp /\ F2Z lp * 2 <= 2 ^ 1074) as Bl.
  { rewrite Vl. split; [apply rnd_nonneg; nia|].
    assert (rnd (F2Z float_half * (2 * 2 ^ 1074)) (2 * 2 ^ 1074) = F2Z float_half) as Rh
      by (apply rnd_const; [apply finite_float_half|lia|reflexivity]).
    assert (rnd (F2Z x * 2 ^ 1074) (2 * 2 ^ 1074) <= F2Z float_half); [|lia].
    rewrite <- Rh. apply rnd_mono; first [lia|nia]. }
  assert (finite_float lp) as Fl.
  { split; [exact Wl|]. apply finite_iff_lt_top; [exact Wl|lia]. }
  destruct (float_sub_from_one lp Fl ltac:(lia)) as ([Wu Fu] & Vu & Bu).
  fold up in Wu, Fu, Vu, Bu.
  assert (2 ^ 1074 <= F2Z up * 2) as Bu2.
  { rewrite Vu.
    assert (rnd (F2Z float_half) 1 = F2Z float_half) as Rh
      by (apply rnd_const; [apply finite_float_half|lia|lia]).
    assert (F2Z float_half <= rnd (2 ^ 1074 - F2Z lp) 1); [|lia].
    rewrite <- Rh. apply rnd_mono; lia. }
  destruct finite_float_100 as [W100 F100].
  destruct (float_mul_value lp float_100 Wl W100 (proj2 Fl) F100) as [Vql Wql].
  destruct (float_mul_value up float_100 Wu W100 Fu F100) as [Vqh Wqh].
  fold q_lo in Vql, Wql. fold q_hi in Vqh, Wqh. rewrite F2Z_100 in Vql, Vqh.
  assert (rnd (50 * 2 ^ 1074 * 2 ^ 1074) (2 ^ 1074) = 50 * 2 ^ 1074) as R50.
  { rewrite <- F2Z_50. apply rnd_const; [apply finite_float_50|lia|reflexivity]. }
  assert (rnd (100 * 2 ^ 1074 * 2 ^ 1074) (2 ^ 1074) = 100 * 2 ^ 1074) as R100.
  { rewrite <- F2Z_100. apply rnd_const; [apply finite_float_100|lia|reflexivity]. }
  split; [reflexivity|]. split; [exact Wql|]. split; [exact Wqh|].
  rewrite Vql, Vqh. split; split.
  - apply rnd_nonneg; nia.
  - rewrite <- R50. apply rnd_mono; nia.
  - rewrite <- R50. apply rnd_mono; nia.
  - rewrite <- R100. apply rnd_mono; nia.
Qed.

(** * Confidence interval, analysis and bootstrap *)

Lemma float_literals :
  int_truediv 95 100 = Ok float_0_95 /\ int_truediv 8 10 = Ok float_0_8 /\
  int_truediv 1 10 = Ok float_0_1 /\ int_truediv 2 10 = Ok float_0_2 /\
  int_truediv 3 10 = Ok float_0_3 /\ int_truediv 4 10 = Ok float_0_4 /\
  int_truediv 5 10 = Ok float_half.
Proof. repeat split; vm_compute; reflexivity. Qed.

(** The ends of the float range, as Python has them: the largest quotient
    that still rounds to a float, the first that overflows, the smallest
    positive float, a tie that rounds to zero, the sign of a zero, and a
    zero divisor. *)
Lemma int_truediv_edge_cases :
  int_truediv (2 ^ 1024 - 2 ^ 970 - 1) 1 = Ok (SFmax_float prec emax) /\
  int_truediv (2 ^ 1024 - 2 ^ 970) 1 = Raise OverflowError /\
  int_truediv 1 (2 ^ 1074) = Ok (S754_finite false 1 (-1074)) /\
  int_truediv 1 (2 ^ 1075) = Ok (S754_zero false) /\
  int_truediv 0 (-5) = Ok (S754_zero true) /\
  int_truediv 1 0 = Raise ZeroDivisionError.
Proof. repeat split; vm_compute; reflexivity. Qed.

Lemma calculate_confidence_interval_finite (rates : list float) (cl : float) :
  rates <> [] -> Forall finite_float rates ->
  wf cl -> float_lt float_zero cl = true -> float_lt cl float_one = true ->
  let lower_percentile := float_div (float_sub float_one cl) float_two in
  let upper_percentile := float_sub float_one lower_percentile in
  let q_lo := float_mul lower_percentile float_100 in
  let q_hi := float_mul upper_percentile float_100 in
  let n := Z.of_nat (List.length rates) in
  exists lower upper,
    calculate_confidence_interval rates cl = Ok (lower, upper) /\
    np_percentile rates q_lo = Ok lower /\
    np_percentile rates q_hi = Ok upper /\
    F2Z lower = rnd (interpolate (np_sort rates) (F2Z q_lo * (n - 1))) rank_den /\
    F2Z upper = rnd (interpolate (np_sort rates) (F2Z q_hi * (n - 1))) rank_den /\
    float_le lower upper = true.
Proof.
  intros Hne Hfin W L0 L1 lp up q_lo q_hi n.
  destruct (confidence_ranks cl W L0 L1) as (Ediv & Wl & Wh & Bl & Bh).
  fold lp in Ediv. fold lp up q_lo in Wl, Bl. fold lp up q_hi in Wh, Bh.
  destruct (np_percentile_finite rates q_lo Hne Hfin Wl ltac:(lia)) as (El & Vl & _).
  destruct (np_percentile_finite rates q_hi Hne Hfin Wh ltac:(lia)) as (Eh & Vh & _).
  fold n in El, Vl, Eh, Vh.
  eexists. eexists. split; [|split; [exact El|split; [exact Eh|split; [exact Vl|split; [exact Vh|]]]]].
  - unfold calculate_confidence_interval.
    change (float_of_int 1) with float_one. change (float_of_int 2) with float_two.
    change (float_of_int 100) with float_100.
    rewrite Ediv. cbn [result_bind]. fold lp. fold up. fold q_lo. fold q_hi.
    rewrite El. cbn [result_bind]. rewrite Eh. reflexivity.
  - apply (np_percentile_mono rates q_lo q_hi); try assumption; lia.
Qed.




(** The specification's scenario: on 0.1, ..., 0.5 at level 0.8 the
    interval is the pair of floats 0.14 and 0.46. *)
Lemma scenario_interval :
  exists lower upper,
    calculate_confidence_interval scenario_rates float_0_8 = Ok (lower, upper) /\
    int_truediv 14 100 = Ok lower /\ int_truediv 46 100 = Ok upper.
Proof.
  eexists. eexists. split; [vm_compute; reflexivity|].
  split; vm_compute; reflexivity.
Qed.


(** ** The complete analysis *)

Lemma float_mul_abs (d : float) : float_mul (float_abs d) (float_abs d) = float_mul d d.
Proof.
  destruct d as [[]|[]| |[] m e]; reflexivity.
Qed.

(** [np.std] with its default [ddof] is the population standard
    deviation. *)
Lemma np_std_population (a : list float) : np_std a = population_std a.
Proof.
  unfold np_std, np_std_ddof, np_var_ddof, population_std, np_mean.
  rewrite Z.sub_0_r, Z.max_l by lia. f_equal. f_equal. f_equal.
  apply map_ext. intros v. apply float_mul_abs.
Qed.

Section AnalysisFacts.

Context {RS : RandomState}.

Lemma analyze_disorder_prevalence_value (df : DataFrame) (name : string)
  (n : Z) (cl : float) (seed : Z) (w : World) :
  fst (analyze_disorder_prevalence df name n cl seed w) = analysis_value df name n cl seed.
Proof.
  unfold analyze_disorder_prevalence, analysis_value.
  unfold bind at 1. unfold logging_disable at 1. cbn [fst snd].
  unfold bind at 1.
  match goal with
  | |- context [bootstrap_prevalence_rate ?d ?nm ?k ?s ?sd ?w0] =>
      pose proof (bootstrap_prevalence_rate_value d nm k s sd w0) as V;
      destruct (bootstrap_prevalence_rate d nm k s sd w0) as [[[orig rates]|e] w1]
  end; cbn [fst] in V; rewrite <- V; [|reflexivity].
  cbn [result_bind]. unfold bind at 1, lift.
  destruct (calculate_confidence_interval rates cl) as [[lo hi]|e]; reflexivity.
Qed.

Lemma bootstrap_value_default (df : DataFrame) (name : string) (n : Z) (ss : option Z)
  (seed : Z) :
  ss = None \/ ss = Some 0 -> 0 <= seed < 2 ^ 32 ->
  exists orig rates, bootstrap_value df name n ss seed = Ok (orig, rates).
Proof.
  intros Hs Hseed. unfold bootstrap_value.
  destruct (disorder_prevalence_value_rate df name) as (r & E & _). rewrite E.
  cbn [result_bind]. unfold np_random_RandomState.
  replace (0 <=? seed) with true by (symmetry; apply Z.leb_le; lia).
  replace (seed <? 2 ^ 32) with true by (symmetry; apply Z.ltb_lt; lia).
  cbn [andb result_bind].
  destruct (bootstrap_samples_default (select is_main (select in_2016 df))
              (select is_follow_up (select in_2016 df)) ss Hs (Z.to_nat n) (rng_seed seed))
    as (samples & S).
  rewrite S. cbn [result_map]. eauto.
Qed.

Lemma bootstrap_value_rates (df : DataFrame) (name : string) (n : Z) (ss : option Z)
  (seed : Z) (orig : float) (rates : list float) :
  bootstrap_value df name n ss seed = Ok (orig, rates) ->
  List.length rates = Z.to_nat n /\ Forall is_rate rates /\ is_rate orig /\
  orig = rate_of name df /\
  exists samples,
    bootstrap_samples_from (Z.to_nat n) (select is_main (select in_2016 df))
      (select is_follow_up (select in_2016 df)) ss (rng_seed seed) = Ok samples /\
    rates = map (rate_of name) samples.
Proof.
  unfold bootstrap_value.
  destruct (disorder_prevalence_value_rate_of df name) as [E R]. rewrite E.
  cbn [result_bind]. unfold np_random_RandomState.
  destruct ((0 <=? seed) && (seed <? 2 ^ 32)); [|discriminate]. cbn [result_bind].
  destruct (bootstrap_samples_from _ _ _ _ _) as [samples|e] eqn:S; [|discriminate].
  cbn [result_map]. intros H. inversion H; subst.
  split; [rewrite length_map; eapply bootstrap_samples_length; exact S|].
  split; [|split; [exact R|split; [reflexivity|exists samples; split; reflexivity]]].
  apply Forall_forall. intros r Hr. apply in_map_iff in Hr. destruct Hr as (d & <- & _).
  apply disorder_prevalence_value_rate_of.
Qed.

Lemma is_rate_finite (r : float) : is_rate r -> finite_float r.
Proof. intros (W & F & _). split; assumption. Qed.

End AnalysisFacts.

(** C9. The result of [analyze_disorder_prevalence] holds in
    [standard_error] the population standard deviation (divisor [N]) of the
    [bootstrap_rates] that [bootstrap_prevalence_rate] produced, and in
    [confidence_interval] what [calculate_confidence_interval] returns on
    that same list; and the call does return on a positive number of
    iterations, a confidence level strictly between 0 and 1 and a seed of
    32 bits. *)
Theorem C9_analysis_fields {RS : RandomState} (df : DataFrame) (disorder_name : string)
  (n_iterations : Z) (confidence_level : float) (random_state : Z) (w : World) :
  (forall res,
     fst (analyze_disorder_prevalence df disorder_name n_iterations confidence_level
            random_state w) = Ok res ->
     exists original rates,
       fst (bootstrap_prevalence_rate df disorder_name n_iterations None random_state
              (snd (logging_disable INFO w))) = Ok (original, rates) /\
       original_rate res = original /\
       bootstrap_rates res = rates /\
       standard_error res = population_std rates /\
       standard_error res = np_std_ddof 0 rates /\
       calculate_confidence_interval rates confidence_level =
         Ok (confidence_interval res)) /\
  (0 < n_iterations -> 0 <= random_state < 2 ^ 32 ->
   wf confidence_level -> float_lt float_zero confidence_level = true ->
   float_lt confidence_level float_one = true ->
   exists res,
     fst (analyze_disorder_prevalence df disorder_name n_iterations confidence_level
            random_state w) = Ok res).
Proof.
  rewrite analyze_disorder_prevalence_value, bootstrap_prevalence_rate_value.
  unfold analysis_value. split.
  - intros res E.
    destruct (bootstrap_value df disorder_name n_iterations None random_state)
      as [[orig rates]|e]; [|discriminate].
    cbn [result_bind] in E.
    destruct (calculate_confidence_interval rates confidence_level) as [ci|e] eqn:Eci;
      [|discriminate].
    cbn [result_bind] in E. inversion E; subst res.
    cbn [original_rate bootstrap_rates standard_error confidence_interval].
    exists orig, rates. repeat split; try reflexivity; try assumption.
    apply np_std_population.
  - intros Hn Hseed W L0 L1.
    destruct (bootstrap_value_default df disorder_name n_iterations None random_state
                (or_introl eq_refl) Hseed) as (orig & rates & E).
    rewrite E. cbn [result_bind].
    destruct (bootstrap_value_rates _ _ _ _ _ _ _ E) as (Len & Hr & _).
    assert (rates <> []) as Hne.
    { intros ->. cbn in Len. lia. }
    assert (Forall finite_float rates) as Hf.
    { eapply Forall_impl; [|exact Hr]. intros r. apply is_rate_finite. }
    destruct (calculate_confidence_interval_finite rates confidence_level Hne Hf W L0 L1)
      as (lo & hi & Eci & _).
    rewrite Eci. cbn [result_bind]. eauto.
Qed.

Lemma C9_analysis_fields_witness :
  0 < 3 /\ 0 <= 42 < 2 ^ 32 /\ wf float_0_95 /\
  float_lt float_zero float_0_95 = true /\ float_lt float_0_95 float_one = true /\
  exists res,
    fst (analyze_disorder_prevalence (RS := LCG) example_df "Anxiety" 3 float_0_95 42
           initial_world) = Ok res.
Proof.
  assert (0 < 3) as H1 by lia.
  assert (0 <= 42 < 2 ^ 32) as H2 by (split; [lia|reflexivity]).
  assert (wf float_0_95) as H3 by (split; reflexivity).
  assert (float_lt float_zero float_0_95 = true) as H4 by reflexivity.
  assert (float_lt float_0_95 float_one = true) as H5 by reflexivity.
  repeat (split; [assumption|]).
  exact (proj2 (C9_analysis_fields (RS := LCG) example_df "Anxiety" 3 float_0_95 42
                  initial_world) H1 H2 H3 H4 H5).
Defined.

(** The two divisors differ: on [0.0, 1.0] the population standard
    deviation is 0.5 and the sample one is not. *)
Lemma population_std_example :
  np_std [float_zero; float_one] = float_half /\
  sample_std [float_zero; float_one] <> float_half.
Proof. split; vm_compute; [reflexivity|discriminate]. Qed.

(** ** The bootstrap *)

(** C4. [bootstrap_prevalence_rate] is deterministic in its seed: whatever
    the logging state and history of the two calls, identical arguments and
    the same [random_state] give the identical [original_rate] and the
    identical [bootstrap_rates]. Both are a function of the arguments
    alone ([bootstrap_value]): one generator is seeded from [random_state],
    and [bootstrap_samples_from] hands it from the first draw of each
    iteration to the second and on to the next iteration. *)
Theorem C4_bootstrap_deterministic {RS : RandomState} (df : DataFrame)
  (disorder_name : string) (n_iterations : Z) (sample_size : option Z)
  (random_state : Z) (w1 w2 : World) :
  fst (bootstrap_prevalence_rate df disorder_name n_iterations sample_size random_state w1) =
  fst (bootstrap_prevalence_rate df disorder_name n_iterations sample_size random_state w2) /\
  fst (bootstrap_prevalence_rate df disorder_name n_iterations sample_size random_state w1) =
  bootstrap_value df disorder_name n_iterations sample_size random_state /\
  (forall k main follow g,
     bootstrap_samples_from (S k) main follow sample_size g =
     result_bind (DataFrame_sample main (sample_n sample_size main) g) (fun '(bm, g1) =>
     result_bind (DataFrame_sample follow (sample_n sample_size follow) g1) (fun '(bf, g2) =>
     result_map (cons (bm ++ bf))
       (bootstrap_samples_from k main follow sample_size g2)))).
Proof.
  rewrite !bootstrap_prevalence_rate_value. split; [reflexivity|]. split; [reflexivity|].
  intros k main follow g. cbn [bootstrap_samples_from]. unfold draw_samples.
  destruct (DataFrame_sample main (sample_n sample_size main) g) as [[bm g1]|e];
    [|reflexivity].
  cbn [result_bind].
  destruct (DataFrame_sample follow (sample_n sample_size follow) g1) as [[bf g2]|e];
    reflexivity.
Qed.

(** C5. For a positive [n_iterations] the [bootstrap_rates] that
    [bootstrap_prevalence_rate] returns has exactly [n_iterations] entries,
    each a rate in [0, 1], in the order of the iterations; and it does
    return when [sample_size] is left out and the seed has 32 bits. *)
Theorem C5_bootstrap_rates {RS : RandomState} (df : DataFrame) (disorder_name : string)
  (n_iterations : Z) (sample_size : option Z) (random_state : Z) (w : World) :
  0 < n_iterations ->
  (forall original rates,
     fst (bootstrap_prevalence_rate df disorder_name n_iterations sample_size
            random_state w) = Ok (original, rates) ->
     Z.of_nat (List.length rates) = n_iterations /\
     Forall (fun r => in_unit_interval r = true) rates /\
     exists samples,
       bootstrap_samples_from (Z.to_nat n_iterations)
         (select is_main (select in_2016 df)) (select is_follow_up (select in_2016 df))
         sample_size (rng_seed random_state) = Ok samples /\
       rates = map (rate_of disorder_name) samples) /\
  (sample_size = None -> 0 <= random_state < 2 ^ 32 ->
   exists original rates,
     fst (bootstrap_prevalence_rate df disorder_name n_iterations sample_size
            random_state w) = Ok (original, rates)).
Proof.
  intros Hn. rewrite bootstrap_prevalence_rate_value. split.
  - intros orig rates E.
    destruct (bootstrap_value_rates _ _ _ _ _ _ _ E) as (Len & Hr & _ & _ & S).
    split; [lia|]. split; [|exact S].
    eapply Forall_impl; [|exact Hr]. intros r (_ & _ & U). exact U.
  - intros Hs Hseed. apply bootstrap_value_default; [left; exact Hs|exact Hseed].
Qed.

Lemma C5_bootstrap_rates_witness :
  0 < 3 /\
  exists original rates,
    fst (bootstrap_prevalence_rate (RS := LCG) example_df "Anxiety" 3 None 42
           initial_world) = Ok (original, rates) /\
    Z.of_nat (List.length rates) = 3 /\
    Forall (fun r => in_unit_interval r = true) rates.
Proof.
  assert (0 < 3) as H by lia. split; [exact H|].
  destruct (C5_bootstrap_rates (RS := LCG) example_df "Anxiety" 3 None 42 initial_world H)
    as [P Q].
  destruct (Q eq_refl ltac:(split; [lia|reflexivity])) as (original & rates & E).
  exists original, rates. split; [exact E|].
  destruct (P original rates E) as (L & U & _). split; assumption.
Defined.

(** The sample sizes of an iteration, for a generator that keeps its
    promises: [sample_size] when it is given and not zero, the size of the
    group otherwise. *)
Lemma sample_sizes {RS : RandomState} (main follow bm bf : DataFrame)
  (sample_size : option Z) (g g' : rng) :
  rng_lawful RS ->
  draw_samples main follow sample_size g = Ok (bm, bf, g') ->
  match sample_size with
  | Some z => if z =? 0 then len bm = len main /\ len bf = len follow
              else len bm = z /\ len bf = z
  | None => len bm = len main /\ len bf = len follow
  end.
Proof.
  intros Law E. destruct (draw_samples_sizes _ _ _ _ _ _ _ Law E) as [A B].
  destruct sample_size as [z|]; cbn [sample_n] in *; [|split; assumption].
  destruct (z =? 0); split; assumption.
Qed.

Lemma lcg_lawful : rng_lawful LCG.
Proof.
  split; intros g a size; [|intros Ha]; revert g; induction size as [|k IH]; intros g;
    cbn [rng_choice LCG lcg_choice].
  - reflexivity.
  - specialize (IH (lcg_next g)). cbn [rng_choice LCG] in IH.
    destruct (lcg_choice (lcg_next g) a k) as [l g1]. cbn [fst List.length] in *.
    f_equal. exact IH.
  - constructor.
  - specialize (IH (lcg_next g)). cbn [rng_choice LCG] in IH.
    destruct (lcg_choice (lcg_next g) a k) as [l g1]. cbn [fst] in *.
    constructor; [|exact IH].
    pose proof (Z.mod_pos_bound (lcg_next g) (Z.of_nat a) ltac:(lia)). lia.
Qed.

(** C7 fails on the code for [sample_size = 0]: the argument is given, and
    the samples have the sizes of the groups (3 and 2 here), not 0. *)
Theorem C7_sample_size_zero :
  exists bm bf g',
    draw_samples (RS := LCG) (select is_main (select in_2016 example_df))
      (select is_follow_up (select in_2016 example_df)) (Some 0) 42 = Ok (bm, bf, g') /\
    len bm = 3 /\ len bf = 2 /\
    fst (bootstrap_prevalence_rate (RS := LCG) example_df "Anxiety" 1 (Some 0) 42
           initial_world) =
    fst (bootstrap_prevalence_rate (RS := LCG) example_df "Anxiety" 1 None 42
           initial_world).
Proof.
  eexists. eexists. eexists. split; [vm_compute; reflexivity|].
  split; [reflexivity|]. split; [reflexivity|]. vm_compute. reflexivity.
Qed.

(** * Further properties: counts and proportions of answers *)

(** ** Arithmetic of [int64] *)

Lemma two_63 : 2 ^ 63 = 9223372036854775808.
Proof. reflexivity. Qed.

Lemma two_64 : 2 ^ 64 = 18446744073709551616.
Proof. reflexivity. Qed.

Lemma wrap64_small (z : Z) : - 2 ^ 63 <= z < 2 ^ 63 -> wrap64 z = z.
Proof.
  unfold wrap64. rewrite two_63, two_64. intros H. rewrite Z.mod_small; lia.
Qed.

Lemma wrap64_add_l (a b : Z) : wrap64 (wrap64 a + b) = wrap64 (a + b).
Proof.
  unfold wrap64. rewrite two_63, two_64. f_equal.
  replace ((a + 9223372036854775808) mod 18446744073709551616 - 9223372036854775808 + b
           + 9223372036854775808)
    with ((a + 9223372036854775808) mod 18446744073709551616 + b) by lia.
  rewrite Z.add_mod_idemp_l by lia. f_equal. lia.
Qed.

Lemma wrap64_add_r (a b : Z) : wrap64 (a + wrap64 b) = wrap64 (a + b).
Proof. rewrite Z.add_comm, wrap64_add_l. f_equal. lia. Qed.

Lemma wrap64_idem (a : Z) : wrap64 (wrap64 a) = wrap64 a.
Proof.
  replace (wrap64 a) with (wrap64 a + 0) at 1 by lia.
  rewrite wrap64_add_l. f_equal. lia.
Qed.

Lemma int64_sum_from (l : list Z) (acc : Z) :
  fold_left int64_add l (wrap64 acc) = wrap64 (acc + sumZ l).
Proof.
  revert acc. induction l as [|x l IH]; intros acc; cbn [fold_left sumZ fold_right].
  - f_equal. lia.
  - unfold int64_add at 2. rewrite wrap64_add_l, IH. f_equal. unfold sumZ. lia.
Qed.

Lemma int64_sum_spec (l : list Z) : int64_sum l = wrap64 (sumZ l).
Proof.
  unfold int64_sum. change 0 with (wrap64 0) at 1. rewrite int64_sum_from. reflexivity.
Qed.

Lemma int64_add_sums (l1 l2 : list Z) :
  int64_add (int64_sum l1) (int64_sum l2) = wrap64 (sumZ l1 + sumZ l2).
Proof.
  unfold int64_add. rewrite !int64_sum_spec, wrap64_add_l, wrap64_add_r. reflexivity.
Qed.

Lemma sumZ_app (l1 l2 : list Z) : sumZ (l1 ++ l2) = sumZ l1 + sumZ l2.
Proof. unfold sumZ. induction l1 as [|x l1 IH]; cbn [app fold_right] in *; lia. Qed.

Lemma sumZ_wrap (A : Type) (f : A -> Z) (l : list A) :
  wrap64 (sumZ (map (fun a => wrap64 (f a)) l)) = wrap64 (sumZ (map f l)).
Proof.
  induction l as [|a l IH]; [reflexivity|].
  change (wrap64 (wrap64 (f a) + sumZ (map (fun a => wrap64 (f a)) l)) =
          wrap64 (f a + sumZ (map f l))).
  rewrite wrap64_add_l. rewrite <- wrap64_add_r, IH, wrap64_add_r. reflexivity.
Qed.

Lemma sumZ_partition (A : Type) (p : A -> bool) (f : A -> Z) (l : list A) :
  sumZ (map f (filter p l)) + sumZ (map f (filter (fun a => negb (p a)) l)) =
  sumZ (map f l).
Proof.
  unfold sumZ. induction l as [|a l IH]; [reflexivity|]. cbn [filter map fold_right].
  destruct (p a); cbn [negb map fold_right]; lia.
Qed.

Lemma sumZ_nonneg (l : list Z) : Forall (fun z => 0 <= z) l -> 0 <= sumZ l.
Proof. unfold sumZ. induction 1; cbn [fold_right]; lia. Qed.

Lemma sumZ_filter_le (A : Type) (p : A -> bool) (f : A -> Z) (l : list A) :
  Forall (fun a => 0 <= f a) l ->
  0 <= sumZ (map f (filter p l)) <= sumZ (map f l).
Proof.
  unfold sumZ. induction 1 as [|a l Ha _ IH]; cbn [filter map fold_right]; [lia|].
  destruct (p a); cbn [map fold_right]; lia.
Qed.

Lemma filter_length_partition (A : Type) (p : A -> bool) (l : list A) :
  (List.length (filter p l) + List.length (filter (fun a => negb (p a)) l)
   = List.length l)%nat.
Proof.
  induction l as [|a l IH]; [reflexivity|]. cbn [filter].
  destruct (p a); cbn [negb List.length]; lia.
Qed.

Lemma filter_map_comm (A B : Type) (f : A -> B) (p : B -> bool) (l : list A) :
  filter p (map f l) = map f (filter (fun a => p (f a)) l).
Proof.
  induction l as [|a l IH]; [reflexivity|]. cbn [map filter].
  destruct (p (f a)); cbn [map]; rewrite IH; reflexivity.
Qed.

Lemma filter_filter (A : Type) (p q : A -> bool) (l : list A) :
  filter p (filter q l) = filter (fun a => q a && p a) l.
Proof.
  induction l as [|a l IH]; [reflexivity|]. cbn [filter].
  destruct (q a); cbn [filter andb]; [destruct (p a)|]; rewrite IH; reflexivity.
Qed.

(** ** Conversion of integers and the quotient of two counts *)

Lemma float_of_int_value (z : Z) :
  F2Z (float_of_int z) = rnd (z * 2 ^ 1074) 1 /\ wf (float_of_int z).
Proof.
  unfold float_of_int.
  destruct (binary_normalize_value z 0 false ltac:(lia)) as [V W].
  split; [exact V|exact W].
Qed.

Lemma finite_float_2_63 : finite_float float_2_63.
Proof. apply finite_float_const. reflexivity. Qed.

Lemma F2Z_2_63 : F2Z float_2_63 = 2 ^ 63 * 2 ^ 1074.
Proof.
  unfold float_2_63. cbn [F2Z cond_Zopp].
  change (Z.pos 4503599627370496) with (2 ^ 52).
  rewrite <- !pow2_add by lia. reflexivity.
Qed.

(** Counts up to [2^63] convert to finite floats, in the order of the
    counts. *)
Lemma float_of_int_count (z : Z) :
  0 <= z <= 2 ^ 63 ->
  wf (float_of_int z) /\ is_finite (float_of_int z) = true /\
  0 <= F2Z (float_of_int z) <= 2 ^ 63 * 2 ^ 1074 /\
  (1 <= z -> 2 ^ 1074 <= F2Z (float_of_int z)).
Proof.
  intros Hz. destruct (float_of_int_value z) as [V W].
  pose proof (pow2_pos 1074 ltac:(lia)) as P.
  assert (0 <= F2Z (float_of_int z)) as L.
  { rewrite V. apply rnd_nonneg; nia. }
  assert (F2Z (float_of_int z) <= 2 ^ 63 * 2 ^ 1074) as U.
  { rewrite V, <- F2Z_2_63.
    rewrite <- (rnd_const float_2_63 (F2Z float_2_63) 1 finite_float_2_63) by lia.
    apply rnd_mono; try lia. rewrite F2Z_2_63. nia. }
  split; [exact W|]. split; [|split; [lia|]].
  - apply finite_iff_lt_top; [exact W|].
    assert (2 ^ 63 * 2 ^ 1074 < top) as T.
    { unfold top. rewrite <- pow2_add by lia. apply pow2_lt. lia. }
    pose proof top_pos. lia.
  - intros H1. rewrite V. transitivity (rnd (2 ^ 1074) 1); [rewrite rnd_one; lia|].
    apply rnd_mono; nia.
Qed.

Lemma float_of_int_mono (a b : Z) :
  a <= b -> F2Z (float_of_int a) <= F2Z (float_of_int b).
Proof.
  intros H. destruct (float_of_int_value a) as [Va _].
  destruct (float_of_int_value b) as [Vb _]. rewrite Va, Vb.
  pose proof (pow2_pos 1074 ltac:(lia)). apply rnd_mono; nia.
Qed.

(** The quotient of a count by a larger one is a float in [0, 1], and it
    is zero only for a zero count. *)
Lemma int64_truediv_unit (a b : Z) :
  0 <= a <= b -> 0 < b <= 2 ^ 63 ->
  let p := int64_truediv a b in
  wf p /\ is_finite p = true /\ 0 <= F2Z p <= 2 ^ 1074 /\
  (F2Z p = 0 <-> a = 0) /\ (a = b -> F2Z p = 2 ^ 1074).
Proof.
  intros Ha Hb p. unfold int64_truediv in p.
  destruct (float_of_int_count a ltac:(lia)) as (Wx & Fx & Bx & Px).
  destruct (float_of_int_count b ltac:(lia)) as (Wy & Fy & By & Py).
  specialize (Py ltac:(lia)).
  pose proof (float_of_int_mono a b ltac:(lia)) as Mono.
  pose proof (pow2_pos 1074 ltac:(lia)) as P.
  set (X := F2Z (float_of_int a)) in *. set (Y := F2Z (float_of_int b)) in *.
  destruct (float_div_value (float_of_int a) (float_of_int b) Wx Wy Fx Fy) as [V W].
  { fold Y. lia. }
  fold X Y in V. rewrite Z.sgn_pos, Z.mul_1_r, Z.abs_eq in V by lia.
  fold p in V, W.
  assert (0 <= F2Z p <= 2 ^ 1074) as B.
  { rewrite V. split; [apply rnd_nonneg; nia|].
    rewrite <- rnd_one at 2. apply rnd_mono; nia. }
  split; [exact W|]. split; [|split; [exact B|split]].
  - apply finite_iff_lt_top; [exact W|]. pose proof one_lt_top. pose proof top_pos. lia.
  - split.
    + intros Z0. destruct (Z.eq_dec a 0) as [|Na]; [assumption|exfalso].
      specialize (Px ltac:(lia)).
      assert (rnd (2 ^ 1074 * 2 ^ 1074) (2 ^ 63 * 2 ^ 1074) <= F2Z p) as L.
      { rewrite V. apply rnd_mono; nia. }
      assert (rnd (2 ^ 1074 * 2 ^ 1074) (2 ^ 63 * 2 ^ 1074) = 2 ^ 1011) as E.
      { change (2 ^ 1011) with (F2Z (S754_finite false 4503599627370496 (-115))).
        apply rnd_const; [apply finite_float_const; reflexivity|nia|].
        cbn [F2Z cond_Zopp]. change (Z.pos 4503599627370496) with (2 ^ 52).
        rewrite <- !pow2_add by lia. reflexivity. }
      pose proof (pow2_pos 1011 ltac:(lia)). lia.
    + intros ->. rewrite V. subst X. change (float_of_int 0) with (S754_zero false).
      cbn [F2Z]. rewrite Z.mul_0_l. apply rnd_0.
  - intros E. rewrite V. subst b. transitivity (rnd (2 ^ 1074) 1); [|apply rnd_one].
    apply rnd_ext; lia.
Qed.

(** ** Grouping: keys and sizes *)

Section GroupFacts.

Context {K : Type} (key_eqb key_leb : K -> K -> bool).
Hypothesis key_eqb_eq : forall x y : K, key_eqb x y = true <-> x = y.

Lemma key_eqb_refl (x : K) : key_eqb x x = true.
Proof. apply key_eqb_eq. reflexivity. Qed.

Lemma unique_In (l : list K) (k : K) : In k (unique key_eqb l) <-> In k l.
Proof.
  induction l as [|x l IH]; [reflexivity|]. cbn [unique In].
  rewrite filter_In, IH. split.
  - intros [E|[H _]]; [left; exact E|right; exact H].
  - intros [E|H]; [left; exact E|].
    destruct (key_eqb k x) eqn:E.
    + left. symmetry. apply key_eqb_eq. exact E.
    + right. split; [exact H|reflexivity].
Qed.

Lemma unique_NoDup (l : list K) : NoDup (unique key_eqb l).
Proof.
  induction l as [|x l IH]; [constructor|]. cbn [unique]. constructor.
  - rewrite filter_In. intros [_ H]. rewrite key_eqb_refl in H. discriminate H.
  - apply NoDup_filter. exact IH.
Qed.

Lemma insert_key_perm (k : K) (l : list K) :
  Permutation (insert_key key_leb k l) (k :: l).
Proof.
  induction l as [|x l IH]; [reflexivity|]. cbn [insert_key].
  destruct (key_leb k x); [reflexivity|].
  rewrite IH. apply perm_swap.
Qed.

Lemma group_keys_perm (l : list K) :
  Permutation (group_keys key_eqb key_leb l) (unique key_eqb l).
Proof.
  unfold group_keys. induction (unique key_eqb l) as [|x u IH]; [reflexivity|].
  cbn [fold_right]. rewrite insert_key_perm, IH. reflexivity.
Qed.

Lemma group_keys_In (l : list K) (k : K) :
  In k (group_keys key_eqb key_leb l) <-> In k l.
Proof.
  split; intros H.
  - apply unique_In. eapply Permutation_in; [apply group_keys_perm|exact H].
  - eapply Permutation_in; [symmetry; apply group_keys_perm|]. apply unique_In. exact H.
Qed.

Lemma group_keys_NoDup (l : list K) : NoDup (group_keys key_eqb key_leb l).
Proof.
  eapply Permutation_NoDup; [symmetry; apply group_keys_perm|apply unique_NoDup].
Qed.

Lemma count_absent (x : K) (ks : list K) :
  ~ In x ks -> filter (fun k => key_eqb k x) ks = [].
Proof.
  induction ks as [|k ks IH]; [reflexivity|]. intros N. cbn [filter].
  destruct (key_eqb k x) eqn:E.
  - exfalso. apply N. left. apply key_eqb_eq. exact E.
  - apply IH. intros H. apply N. right. exact H.
Qed.

Lemma count_present (x : K) (ks : list K) :
  NoDup ks -> In x ks -> filter (fun k => key_eqb k x) ks = [x].
Proof.
  induction 1 as [|k ks Nk _ IH]; [intros []|]. intros H. cbn [filter].
  destruct (key_eqb k x) eqn:E.
  - apply key_eqb_eq in E. subst k. rewrite count_absent by exact Nk. reflexivity.
  - destruct H as [H|H]; [|apply IH; exact H].
    subst k. rewrite key_eqb_refl in E. discriminate E.
Qed.

Lemma sumZ_map_add (A : Type) (g h : A -> Z) (l : list A) :
  sumZ (map (fun a => g a + h a) l) = sumZ (map g l) + sumZ (map h l).
Proof.
  unfold sumZ. induction l as [|a l IH]; [reflexivity|]. cbn [map fold_right]. lia.
Qed.

Lemma sumZ_indicator (A : Type) (p : A -> bool) (l : list A) :
  sumZ (map (fun a => if p a then 1 else 0) l) = Z.of_nat (List.length (filter p l)).
Proof.
  unfold sumZ. induction l as [|a l IH]; [reflexivity|]. cbn [map fold_right filter].
  destruct (p a); cbn [List.length]; lia.
Qed.

(** The group sizes of the keys that pass a test add up to the number of
    rows whose key passes it. *)
Lemma sum_sizes (P : K -> bool) (ks keys : list K) :
  NoDup ks -> (forall k, In k keys -> In k ks) ->
  sumZ (map (fun k => Z.of_nat (List.length (filter (key_eqb k) keys))) (filter P ks))
  = Z.of_nat (List.length (filter P keys)).
Proof.
  intros N. induction keys as [|x keys IH]; intros Hin.
  - cbn [filter List.length]. unfold sumZ.
    induction (filter P ks) as [|k l IHl]; [reflexivity|]. cbn [map fold_right]. lia.
  - assert (In x ks) as Hx by (apply Hin; left; reflexivity).
    specialize (IH (fun k H => Hin k (or_intror H))).
    rewrite (map_ext _ (fun k => (if key_eqb k x then 1 else 0)
                                 + Z.of_nat (List.length (filter (key_eqb k) keys)))).
    2:{ intros k. cbn [filter]. destruct (key_eqb k x); cbn [List.length]; lia. }
    rewrite sumZ_map_add, IH, sumZ_indicator, filter_filter.
    cbn [filter]. destruct (P x) eqn:Px.
    + rewrite (filter_ext _ (fun k => key_eqb k x)).
      2:{ intros k. destruct (key_eqb k x) eqn:E; [|apply andb_false_r].
          apply key_eqb_eq in E. subst k. rewrite Px. reflexivity. }
      rewrite (count_present x ks N Hx). cbn [List.length]. lia.
    + rewrite (filter_ext _ (fun _ => false)).
      2:{ intros k. destruct (key_eqb k x) eqn:E; [|apply andb_false_r].
          apply key_eqb_eq in E. subst k. rewrite Px. reflexivity. }
      replace (filter (fun _ : K => false) ks) with (@nil K).
      * cbn [List.length]. lia.
      * clear. induction ks as [|k ks IH]; [reflexivity|exact IH].
Qed.

(** The sum of the sizes that [groupby_size] gives the keys passing a test
    is the number of rows whose key passes it, as an [int64]. *)
Lemma groupby_size_sum (P : K -> bool) (keys : list K) :
  int64_sum (map snd (filter (fun kn => P (fst kn))
                             (groupby_size key_eqb key_leb keys)))
  = wrap64 (Z.of_nat (List.length (filter P keys))).
Proof.
  unfold groupby_size. rewrite filter_map_comm, map_map. cbn [fst snd].
  rewrite (filter_ext _ P) by reflexivity.
  rewrite int64_sum_spec, sumZ_wrap.
  rewrite (sum_sizes P _ keys (group_keys_NoDup keys)); [reflexivity|].
  intros k. apply group_keys_In.
Qed.

Lemma groupby_size_keys (keys : list K) :
  map fst (groupby_size key_eqb key_leb keys) = group_keys key_eqb key_leb keys.
Proof.
  unfold groupby_size. rewrite map_map. cbn [fst]. apply map_id.
Qed.

End GroupFacts.

(** ** The counts of [response_counts] *)

Lemma pair_eqb_eq (A B : Type) (eqa : A -> A -> bool) (eqb : B -> B -> bool) :
  (forall x y, eqa x y = true <-> x = y) -> (forall x y, eqb x y = true <-> x = y) ->
  forall x y : A * B, pair_eqb eqa eqb x y = true <-> x = y.
Proof.
  intros Ha Hb [a b] [a' b']. unfold pair_eqb. cbn [fst snd].
  rewrite andb_true_iff, Ha, Hb. split; [intros [-> ->]; reflexivity|].
  intros E. inversion E. split; reflexivity.
Qed.

Lemma cell_eqb_eq (x y : cell) : cell_eqb x y = true <-> x = y.
Proof.
  destruct x as [x|x], y as [y|y]; cbn [cell_eqb];
    try (split; [discriminate|intros E; discriminate E]).
  - rewrite Z.eqb_eq. split; [intros ->; reflexivity|intros E; inversion E; reflexivity].
  - rewrite String.eqb_eq. split; [intros ->; reflexivity|intros E; inversion E; reflexivity].
Qed.

Lemma string_pair_eqb_eq (x y : string * string) :
  pair_eqb String.eqb String.eqb x y = true <-> x = y.
Proof. apply pair_eqb_eq; apply String.eqb_eq. Qed.

Lemma filter_length_le (A : Type) (p : A -> bool) (l : list A) :
  (List.length (filter p l) <= List.length l)%nat.
Proof.
  induction l as [|a l IH]; [apply Nat.le_refl|]. cbn [filter].
  destruct (p a); cbn [List.length]; lia.
Qed.

Lemma select_len_bounds (p : Row -> bool) (df : DataFrame) :
  0 <= len (select p df) <= len df.
Proof.
  unfold len, select. pose proof (filter_length_le Row p df). lia.
Qed.

Lemma select_len_pos (p : Row -> bool) (df : DataFrame) (r : Row) :
  In r df -> p r = true -> 0 < len (select p df).
Proof.
  intros Hin Hp. unfold len, select.
  assert (In r (filter p df)) as H by (apply filter_In; split; assumption).
  destruct (filter p df); [destruct H|]. cbn [List.length]. lia.
Qed.

(** The counts of the rows of [response_counts] that pass a test on the
    question and the answer add up to the number of survey rows that pass
    it. *)
Lemma response_counts_sum (P : string -> string -> bool) (df : DataFrame) :
  int64_sum (map ResponseCounts.count
               (filter (fun r => P (ResponseCounts.questiontext r)
                                   (ResponseCounts.AnswerText r))
                       (response_counts df)))
  = wrap64 (len (select (fun r => P (questiontext r) (AnswerText r)) df)).
Proof.
  unfold response_counts, len, select.
  set (keys := map (fun r => (questiontext r, AnswerText r)) df).
  pose proof (groupby_size_sum (pair_eqb String.eqb String.eqb)
                (pair_leb String.eqb String.leb String.leb) string_pair_eqb_eq
                (fun k => P (fst k) (snd k)) keys) as H.
  subst keys. rewrite filter_map_comm, length_map in H. cbn [fst snd] in H.
  rewrite <- H. f_equal. rewrite filter_map_comm, !map_map.
  rewrite (filter_ext
             (fun a => P (ResponseCounts.questiontext
                            (let '(question, answer, n) := a in
                             ResponseCounts.mk question answer n))
                         (ResponseCounts.AnswerText
                            (let '(question, answer, n) := a in
                             ResponseCounts.mk question answer n)))
             (fun kn => P (fst (fst kn)) (snd (fst kn)))).
  2:{ intros [[q a] n]. reflexivity. }
  apply map_ext. intros [[q a] n]. reflexivity.
Qed.

Lemma response_counts_questions (df : DataFrame) (q : string) :
  In q (map ResponseCounts.questiontext (response_counts df)) <->
  In q (map questiontext df).
Proof.
  unfold response_counts.
  set (keys := map (fun r => (questiontext r, AnswerText r)) df).
  rewrite map_map.
  rewrite (map_ext _ (fun kn : string * string * Z => fst (fst kn))).
  2:{ intros [[q' a] n]. reflexivity. }
  rewrite <- (map_map fst fst).
  rewrite (groupby_size_keys (pair_eqb String.eqb String.eqb)).
  rewrite !in_map_iff. split.
  - intros (k & E & Hk).
    apply (proj1 (group_keys_In (pair_eqb String.eqb String.eqb)
             (pair_leb String.eqb String.leb String.leb) string_pair_eqb_eq _ _)) in Hk.
    subst keys.
    apply in_map_iff in Hk. destruct Hk as (r & Er & Hr).
    exists r. split; [|exact Hr]. subst k q. reflexivity.
  - intros (r & E & Hr). exists (questiontext r, AnswerText r). split; [exact E|].
    apply (proj2 (group_keys_In (pair_eqb String.eqb String.eqb)
             (pair_leb String.eqb String.leb String.leb) string_pair_eqb_eq _ _)).
    subst keys.
    apply in_map_iff. exists r. split; [reflexivity|exact Hr].
Qed.

(** The row of a question holds the numbers of survey rows. *)
Lemma null_analysis_row_counts (df : DataFrame) (q : string) :
  len df < 2 ^ 63 ->
  let r := null_analysis_row (response_counts df) q in
  NullAnalysis.questiontext r = q /\
  NullAnalysis.null_count r = len (select (fun x => asks q x && answers "-1" x) df) /\
  NullAnalysis.other_count r =
    len (select (fun x => asks q x && negb (answers "-1" x)) df) /\
  NullAnalysis.total_count r = len (select (asks q) df) /\
  NullAnalysis.null_count r + NullAnalysis.other_count r = NullAnalysis.total_count r.
Proof.
  intros Hlen r. subst r. unfold null_analysis_row.
  cbn [NullAnalysis.questiontext NullAnalysis.null_count NullAnalysis.other_count
       NullAnalysis.total_count].
  rewrite !filter_filter.
  pose proof (response_counts_sum (fun qt a => String.eqb qt q && String.eqb a "-1") df)
    as Hn.
  pose proof (response_counts_sum
                (fun qt a => String.eqb qt q && negb (String.eqb a "-1")) df) as Ho.
  unfold is_null_answer. cbv beta in Hn, Ho. rewrite Hn, Ho.
  fold (asks q) in *.
  change (fun r => String.eqb (questiontext r) q && String.eqb (AnswerText r) "-1")
    with (fun x => asks q x && answers "-1" x).
  change (fun r => String.eqb (questiontext r) q && negb (String.eqb (AnswerText r) "-1"))
    with (fun x => asks q x && negb (answers "-1" x)).
  pose proof (select_len_bounds (fun x => asks q x && answers "-1" x) df) as Bn.
  pose proof (select_len_bounds (fun x => asks q x && negb (answers "-1" x)) df) as Bo.
  pose proof (select_len_bounds (asks q) df) as Bt.
  assert (len (select (fun x => asks q x && answers "-1" x) df)
          + len (select (fun x => asks q x && negb (answers "-1" x)) df)
          = len (select (asks q) df)) as Sum.
  { unfold len, select.
    pose proof (filter_length_partition Row (answers "-1") (filter (asks q) df)) as H.
    rewrite !filter_filter in H. lia. }
  rewrite two_63 in *.
  rewrite !wrap64_small by (rewrite two_63; lia).
  unfold int64_add. rewrite Sum, wrap64_small by (rewrite two_63; lia).
  repeat split; first [reflexivity|exact Sum].
Qed.

(** ** The insertion sort keeps the promises of [sort_values] *)

Lemma insert_row_perm (A : Type) (by_column : A -> float) (ascending : bool)
  (a : A) (l : list A) :
  Permutation (insert_row by_column ascending a l) (a :: l).
Proof.
  induction l as [|b l IH]; [reflexivity|]. cbn [insert_row].
  destruct (if ascending then _ else _); [reflexivity|].
  rewrite IH. apply perm_swap.
Qed.

Lemma in_order_trans (A : Type) (by_column : A -> float) (ascending : bool) (a b c : A) :
  in_order by_column ascending a b -> in_order by_column ascending b c ->
  in_order by_column ascending a c.
Proof. unfold in_order, le_value. destruct ascending; lia. Qed.

Lemma insert_row_sorted (A : Type) (by_column : A -> float) (ascending : bool)
  (a : A) (l : list A) :
  wf (by_column a) -> Forall (fun b => wf (by_column b)) l ->
  StronglySorted (in_order by_column ascending) l ->
  StronglySorted (in_order by_column ascending) (insert_row by_column ascending a l).
Proof.
  intros Wa Wl S. induction S as [|b l S IH Hb].
  - cbn [insert_row]. constructor; constructor.
  - inversion Wl as [|? ? Wb Wl']; subst. cbn [insert_row].
    assert ((if ascending then float_le (by_column a) (by_column b)
             else float_le (by_column b) (by_column a)) = true
            <-> in_order by_column ascending a b) as T.
    { unfold in_order, le_value, float_le. destruct ascending;
        rewrite SFleb_F2Z by assumption; apply Z.leb_le. }
    destruct (if ascending then _ else _) eqn:E.
    + apply proj1 in T. specialize (T eq_refl).
      constructor; [constructor; assumption|].
      constructor; [exact T|].
      eapply Forall_impl; [|exact Hb]. intros c Hc.
      eapply in_order_trans; eassumption.
    + constructor; [apply IH; exact Wl'|].
      apply (Permutation_Forall (Permutation_sym (insert_row_perm A by_column ascending a l))).
      constructor; [|exact Hb].
      assert (~ in_order by_column ascending a b) as N.
      { intros H. apply T in H. discriminate H. }
      unfold in_order, le_value in *. destruct ascending; lia.
Qed.

Lemma insertion_sort_lawful : sort_values_lawful insertion_sort_values.
Proof.
  intros A by_column ascending l W. cbn [sort_values insertion_sort_values].
  induction W as [|a l Wa W [IHp IHs]]; cbn [fold_right].
  - split; [reflexivity|constructor].
  - split.
    + rewrite insert_row_perm, IHp. reflexivity.
    + apply insert_row_sorted; [exact Wa| |exact IHs].
      apply (Permutation_Forall (Permutation_sym IHp)). exact W.
Qed.

(** ** The rows of [analyze_null_values] *)

Lemma null_analysis_questions (df : DataFrame) :
  map NullAnalysis.questiontext (null_analysis df) =
  unique String.eqb (map ResponseCounts.questiontext (response_counts df)).
Proof.
  unfold null_analysis. rewrite map_map. apply map_id.
Qed.

Lemma null_analysis_In (df : DataFrame) (r : NullAnalysis.row) :
  In r (null_analysis df) ->
  r = null_analysis_row (response_counts df) (NullAnalysis.questiontext r) /\
  In (NullAnalysis.questiontext r) (map questiontext df).
Proof.
  unfold null_analysis. intros H. apply in_map_iff in H. destruct H as (q & <- & Hq).
  cbn [null_analysis_row NullAnalysis.questiontext]. split; [reflexivity|].
  apply (proj1 (unique_In String.eqb String.eqb_eq _ _)) in Hq.
  apply response_counts_questions. exact Hq.
Qed.

Lemma null_analysis_row_proportion (rc : list ResponseCounts.row) (q : string) :
  let r := null_analysis_row rc q in
  NullAnalysis.null_proportion r =
  if NullAnalysis.total_count r >? 0
  then PFloat (int64_truediv (NullAnalysis.null_count r) (NullAnalysis.total_count r))
  else PInt 0.
Proof. reflexivity. Qed.

(** What every row of the table holds, on a survey of fewer than [2^63]
    rows. *)
Lemma null_analysis_row_facts (df : DataFrame) (r : NullAnalysis.row) :
  len df < 2 ^ 63 -> In r (null_analysis df) ->
  let q := NullAnalysis.questiontext r in
  In q (map questiontext df) /\
  NullAnalysis.null_count r = len (select (fun x => asks q x && answers "-1" x) df) /\
  NullAnalysis.other_count r =
    len (select (fun x => asks q x && negb (answers "-1" x)) df) /\
  NullAnalysis.total_count r = len (select (asks q) df) /\
  NullAnalysis.null_count r + NullAnalysis.other_count r = NullAnalysis.total_count r /\
  0 <= NullAnalysis.null_count r /\ 0 <= NullAnalysis.other_count r /\
  0 < NullAnalysis.total_count r < 2 ^ 63 /\
  NullAnalysis.null_proportion r =
    PFloat (int64_truediv (NullAnalysis.null_count r) (NullAnalysis.total_count r)).
Proof.
  intros Hlen Hin q. destruct (null_analysis_In df r Hin) as [Er Hq]. fold q in Er, Hq.
  destruct (null_analysis_row_counts df q Hlen) as (_ & En & Eo & Et & Sum).
  rewrite <- Er in En, Eo, Et, Sum.
  pose proof (select_len_bounds (fun x => asks q x && answers "-1" x) df) as Bn.
  pose proof (select_len_bounds (fun x => asks q x && negb (answers "-1" x)) df) as Bo.
  pose proof (select_len_bounds (asks q) df) as Bt.
  assert (0 < len (select (asks q) df)) as Pos.
  { apply in_map_iff in Hq. destruct Hq as (x & Ex & Hx).
    apply (select_len_pos (asks q) df x Hx). unfold asks. apply String.eqb_eq. exact Ex. }
  repeat (split; [first [assumption|lia]|]).
  pose proof (null_analysis_row_proportion (response_counts df) q) as Hp.
  rewrite <- Er in Hp. rewrite Hp.
  replace (NullAnalysis.total_count r >? 0) with true; [reflexivity|].
  symmetry. apply Z.gtb_lt. lia.
Qed.

Lemma pd_DataFrame_floats (rows : list NullAnalysis.row) :
  Forall (fun r => is_float (NullAnalysis.null_proportion r) = true) rows ->
  pd_DataFrame rows = rows.
Proof.
  intros H. unfold pd_DataFrame, common_dtype.
  destruct (existsb is_float (map NullAnalysis.null_proportion rows));
    (rewrite <- (map_id rows) at 2; apply map_ext_in; intros r Hr;
     rewrite Forall_forall in H; specialize (H r Hr);
     destruct r as [q n o t [z|p]]; [discriminate H|reflexivity]).
Qed.

Lemma null_analysis_nonempty (df : DataFrame) : df <> [] -> null_analysis df <> [].
Proof.
  intros Hne E. destruct df as [|r df]; [apply Hne; reflexivity|].
  assert (In (questiontext r) (map NullAnalysis.questiontext (null_analysis (r :: df))))
    as H.
  { rewrite null_analysis_questions. apply (unique_In String.eqb String.eqb_eq).
    apply response_counts_questions. left. reflexivity. }
  rewrite E in H. destruct H.
Qed.

Lemma null_analysis_empty : null_analysis [] = [].
Proof. reflexivity. Qed.

Lemma null_analysis_proportions (df : DataFrame) (r : NullAnalysis.row) :
  len df < 2 ^ 63 -> In r (null_analysis df) ->
  let p := null_proportion_value r in
  NullAnalysis.null_proportion r = PFloat p /\
  p = int64_truediv (NullAnalysis.null_count r) (NullAnalysis.total_count r) /\
  wf p /\ is_finite p = true /\ 0 <= F2Z p <= 2 ^ 1074 /\
  (F2Z p = 0 <-> NullAnalysis.null_count r = 0) /\
  (NullAnalysis.other_count r = 0 -> F2Z p = 2 ^ 1074).
Proof.
  intros Hlen Hin p.
  destruct (null_analysis_row_facts df r Hlen Hin)
    as (_ & _ & _ & _ & Sum & Hn & Ho & Ht & Ep).
  unfold null_proportion_value in p. subst p. rewrite Ep. cbn [num_to_float].
  destruct (int64_truediv_unit (NullAnalysis.null_count r) (NullAnalysis.total_count r)
              ltac:(lia) ltac:(lia)) as (W & F & B & Z0 & One).
  repeat (split; [first [reflexivity|assumption]|]). intros O. apply One. lia.
Qed.

(** [analyze_null_values] returns the rows of the questions, sorted. *)
Lemma analyze_null_values_rows {SV : SortValues} (df : DataFrame) :
  sort_values_lawful SV -> df <> [] -> len df < 2 ^ 63 ->
  exists rows,
    analyze_null_values df = Returns rows /\
    Permutation rows (null_analysis df) /\
    StronglySorted (in_order null_proportion_value false) rows.
Proof.
  intros Law Hne Hlen. unfold analyze_null_values. cbv zeta.
  fold (null_analysis df).
  pose proof (null_analysis_nonempty df Hne) as N.
  assert (Forall (fun r => is_float (NullAnalysis.null_proportion r) = true)
                 (null_analysis df)) as Fl.
  { apply Forall_forall. intros r Hr.
    destruct (null_analysis_proportions df r Hlen Hr) as (E & _). rewrite E. reflexivity. }
  assert (Forall (fun r => wf (null_proportion_value r)) (null_analysis df)) as Wf.
  { apply Forall_forall. intros r Hr.
    destruct (null_analysis_proportions df r Hlen Hr) as (_ & _ & W & _). exact W. }
  destruct (null_analysis df) as [|r0 rows0] eqn:E; [exfalso; apply N; reflexivity|].
  rewrite pd_DataFrame_floats by exact Fl.
  destruct (Law NullAnalysis.row null_proportion_value false (r0 :: rows0) Wf) as [P S].
  eexists. split; [reflexivity|]. split; [exact P|exact S].
Qed.

(** ** [calculate_counts] *)

Lemma calculate_counts_cases (group : list ResponseCounts.row) :
  let null := int64_sum (map ResponseCounts.count (filter is_null_answer group)) in
  let other :=
    int64_sum (map ResponseCounts.count
                   (filter (fun r => negb (is_null_answer r)) group)) in
  let total := int64_add null other in
  calculate_counts group =
  if total >? 0
  then [("null_count", PFloat (float_of_int null));
        ("other_count", PFloat (float_of_int other));
        ("total_count", PFloat (float_of_int total));
        ("null_proportion", PFloat (int64_truediv null total))]%string
  else [("null_count", PInt null); ("other_count", PInt other);
        ("total_count", PInt total); ("null_proportion", PInt 0)]%string.
Proof.
  intros null other total. unfold calculate_counts. fold null other. fold total.
  destruct (total >? 0); reflexivity.
Qed.

Lemma int64_partition (A : Type) (p : A -> bool) (f : A -> Z) (l : list A) :
  int64_add (int64_sum (map f (filter p l)))
            (int64_sum (map f (filter (fun a => negb (p a)) l)))
  = int64_sum (map f l).
Proof.
  rewrite int64_add_sums, sumZ_partition, int64_sum_spec. reflexivity.
Qed.

(** ** [add_question_answers_proportions_by_group] *)

Lemma apply_rows_returns (A B : Type) (f : A -> outcome B) (g : A -> B) (rows : list A) :
  (forall row, In row rows -> f row = Returns (g row)) ->
  apply_rows f rows = Returns (map g rows).
Proof.
  induction rows as [|row rows IH]; intros H; [reflexivity|]. cbn [apply_rows map].
  rewrite (H row (or_introl eq_refl)). cbn [outcome_bind].
  rewrite IH by (intros r Hr; apply H; right; exact Hr). reflexivity.
Qed.

Lemma series_loc_map (K V : Type) (key_eqb : K -> K -> bool) (F : K -> V)
  (ks : list K) (x : K) :
  (forall a b, key_eqb a b = true <-> a = b) ->
  In x ks -> series_loc key_eqb (map (fun k => (k, F k)) ks) x = Some (F x).
Proof.
  intros Heq. induction ks as [|k ks IH]; [intros []|]. intros H. cbn [map series_loc].
  destruct (key_eqb k x) eqn:E.
  - apply Heq in E. subst k. reflexivity.
  - destruct H as [H|H]; [|apply IH; exact H].
    subst k. rewrite (proj2 (Heq x x) eq_refl) in E. discriminate E.
Qed.

Lemma cell_eqb_sym (a b : cell) : cell_eqb a b = cell_eqb b a.
Proof.
  destruct a, b; cbn [cell_eqb]; try reflexivity; [apply Z.eqb_sym|apply String.eqb_sym].
Qed.

Lemma cell_pair_eqb_eq (x y : cell * string) :
  pair_eqb cell_eqb String.eqb x y = true <-> x = y.
Proof. apply pair_eqb_eq; [apply cell_eqb_eq|apply String.eqb_eq]. Qed.

Section ProportionFacts.

Variables (df : DataFrame) (questions : questions_arg) (group_column : Row -> cell).

Let keys : list (cell * string) :=
  map (fun r => (group_column r, AnswerText r)) (select (question_mask questions) df).

Let sizes : list (cell * string * Z) :=
  groupby_size (pair_eqb cell_eqb String.eqb) (pair_leb cell_eqb cell_leb String.leb) keys.

Let df_processed : list Counts.row :=
  map (fun '((g, answer), n) => Counts.mk g answer n) sizes.

Hypothesis Hlen : len df < 2 ^ 63.

Lemma answer_count_bounds (g : cell) (a : string) :
  0 <= answer_count df questions group_column g a
    <= group_total df questions group_column g /\
  group_total df questions group_column g <= len df.
Proof.
  unfold answer_count, group_total, len, select.
  pose proof (filter_and_length
                (fun r => question_mask questions r && cell_eqb (group_column r) g)
                (answers a) df).
  pose proof (filter_length_le Row
                (fun r => question_mask questions r && cell_eqb (group_column r) g) df).
  cbv beta in *. lia.
Qed.

Lemma answer_keys_In (g : cell) (a : string) :
  In (g, a) (answer_keys df questions group_column) <->
  exists r, In r df /\ question_mask questions r = true /\
            group_column r = g /\ AnswerText r = a.
Proof.
  unfold answer_keys. rewrite (group_keys_In _ _ cell_pair_eqb_eq), in_map_iff.
  unfold select. split.
  - intros (r & E & Hr). apply filter_In in Hr. destruct Hr as [Hr Hm].
    inversion E. exists r. repeat split; assumption.
  - intros (r & Hr & Hm & <- & <-). exists r. split; [reflexivity|].
    apply filter_In. split; assumption.
Qed.

Lemma answer_count_pos (k : cell * string) :
  In k (answer_keys df questions group_column) ->
  0 < answer_count df questions group_column (fst k) (snd k).
Proof.
  destruct k as [g a]. intros H. apply answer_keys_In in H.
  destruct H as (r & Hr & Hm & Hg & Ha). cbn [fst snd].
  apply (select_len_pos _ df r Hr). rewrite Hm, Hg, (proj2 (cell_eqb_eq g g) eq_refl).
  unfold answers. rewrite Ha. apply String.eqb_refl.
Qed.

Lemma size_of_key (k : cell * string) :
  wrap64 (Z.of_nat (List.length (filter (pair_eqb cell_eqb String.eqb k) keys)))
  = answer_count df questions group_column (fst k) (snd k).
Proof.
  destruct (answer_count_bounds (fst k) (snd k)) as [B1 B2].
  assert (Z.of_nat (List.length (filter (pair_eqb cell_eqb String.eqb k) keys))
          = answer_count df questions group_column (fst k) (snd k)) as E.
  { unfold answer_count, len, select. subst keys. unfold select.
    rewrite filter_map_comm, length_map, filter_filter. do 2 f_equal.
    apply filter_ext. intros r. unfold pair_eqb, answers. cbn [fst snd].
    rewrite (cell_eqb_sym (fst k)), (String.eqb_sym (snd k)).
    rewrite andb_assoc. reflexivity. }
  rewrite E. apply wrap64_small. rewrite two_63 in *. lia.
Qed.

Lemma df_processed_rows :
  df_processed =
  map (fun k => Counts.mk (fst k) (snd k)
                  (answer_count df questions group_column (fst k) (snd k)))
      (answer_keys df questions group_column).
Proof.
  subst df_processed sizes. unfold groupby_size. fold keys. rewrite map_map.
  unfold answer_keys. fold keys. apply map_ext. intros [g a].
  rewrite size_of_key. reflexivity.
Qed.

Lemma group_sum (g : cell) :
  int64_sum (map Counts.Count
               (filter (fun r => cell_eqb (Counts.group r) g) df_processed))
  = group_total df questions group_column g.
Proof.
  pose proof (groupby_size_sum (pair_eqb cell_eqb String.eqb)
                (pair_leb cell_eqb cell_leb String.leb) cell_pair_eqb_eq
                (fun k => cell_eqb (fst k) g) keys) as H.
  fold sizes in H.
  replace (map Counts.Count (filter (fun r => cell_eqb (Counts.group r) g) df_processed))
    with (map snd (filter (fun kn : cell * string * Z => cell_eqb (fst (fst kn)) g) sizes)).
  2:{ subst df_processed. rewrite filter_map_comm, map_map.
      rewrite (filter_ext
                 (fun a => cell_eqb (Counts.group (let '(g0, answer, n) := a in
                                                   Counts.mk g0 answer n)) g)
                 (fun kn => cell_eqb (fst (fst kn)) g)).
      2:{ intros [[g0 a] n]. reflexivity. }
      apply map_ext. intros [[g0 a] n]. reflexivity. }
  rewrite H. subst keys. unfold select.
  rewrite filter_map_comm, length_map, filter_filter. cbn [fst].
  destruct (answer_count_bounds g EmptyString) as [_ B].
  unfold group_total, len, select in *.
  apply wrap64_small. rewrite two_63. lia.
Qed.

(** The sum of the counts of a group is the number of selected rows of the
    group. *)
Lemma group_counts_sum (g : cell) :
  sumZ (map (fun k => answer_count df questions group_column (fst k) (snd k))
            (filter (fun k => cell_eqb (fst k) g)
                    (answer_keys df questions group_column)))
  = group_total df questions group_column g.
Proof.
  rewrite (map_ext_in _ (fun k => Z.of_nat (List.length
                                   (filter (pair_eqb cell_eqb String.eqb k) keys)))).
  2:{ intros k _. pose proof (size_of_key k) as E.
      destruct (answer_count_bounds (fst k) (snd k)) as [B1 B2].
      rewrite <- E. apply wrap64_small.
      pose proof (filter_length_le _ (pair_eqb cell_eqb String.eqb k) keys) as L.
      subst keys. rewrite length_map in L. unfold select in *.
      pose proof (filter_length_le _ (question_mask questions) df).
      unfold len in Hlen. rewrite two_63 in *. lia. }
  unfold answer_keys. fold keys.
  rewrite (sum_sizes (pair_eqb cell_eqb String.eqb) cell_pair_eqb_eq
             (fun k => cell_eqb (fst k) g) _ keys).
  - subst keys. unfold group_total, len, select.
    rewrite filter_map_comm, length_map, filter_filter. reflexivity.
  - apply group_keys_NoDup. exact cell_pair_eqb_eq.
  - intros k. apply (group_keys_In _ _ cell_pair_eqb_eq).
Qed.

Lemma total_per_question_loc (row : Counts.row) :
  In row df_processed ->
  series_loc cell_eqb
    (groupby_sum cell_eqb cell_leb Counts.group Counts.Count df_processed)
    (Counts.group row)
  = Some (group_total df questions group_column (Counts.group row)).
Proof.
  intros H. unfold groupby_sum.
  rewrite (series_loc_map cell Z cell_eqb
             (fun k => int64_sum (map Counts.Count
                         (filter (fun r => cell_eqb (Counts.group r) k) df_processed)))
             _ (Counts.group row) cell_eqb_eq).
  - rewrite group_sum. reflexivity.
  - apply (group_keys_In _ _ cell_eqb_eq). apply in_map. exact H.
Qed.

End ProportionFacts.

(** What [add_question_answers_proportions_by_group] returns when rows are
    selected: one row per pair of group and answer. *)
Lemma add_question_answers_rows (df : DataFrame) (questions : questions_arg)
  (group_by : string) (group_column : Row -> cell) :
  len df < 2 ^ 63 ->
  column group_by = Some group_column -> group_by <> "AnswerText"%string ->
  select (question_mask questions) df <> [] ->
  add_question_answers_proportions_by_group df questions group_by =
  Returns (map (proportion_row df questions group_column)
               (answer_keys df questions group_column)).
Proof.
  intros Hlen Hcol Hname Hsel. unfold add_question_answers_proportions_by_group.
  rewrite Hcol. replace (String.eqb group_by "AnswerText") with false
    by (symmetry; apply String.eqb_neq; exact Hname).
  cbv zeta.
  pose proof (df_processed_rows df questions group_column Hlen) as Rows.
  pose proof (total_per_question_loc df questions group_column Hlen) as Loc.
  cbv zeta in Rows, Loc.
  set (dfp := map (fun '(g, answer, n) => Counts.mk g answer n) _) in *.
  assert (dfp <> []) as Ne.
  { rewrite Rows. intros E. apply map_eq_nil in E.
    destruct (select (question_mask questions) df) as [|r sel] eqn:S;
      [apply Hsel; reflexivity|].
    assert (In (group_column r, AnswerText r) (answer_keys df questions group_column)) as H.
    { unfold answer_keys. apply (group_keys_In _ _ cell_pair_eqb_eq).
      rewrite S. left. reflexivity. }
    rewrite E in H. destruct H. }
  destruct dfp as [|row0 rest] eqn:D; [exfalso; apply Ne; reflexivity|].
  rewrite (apply_rows_returns _ _ _
             (fun row => Proportions.mk (Counts.group row) (Counts.AnswerText row)
                           (Counts.Count row)
                           (int64_truediv (Counts.Count row)
                              (group_total df questions group_column (Counts.group row))))).
  - f_equal. rewrite Rows, map_map. reflexivity.
  - intros row Hrow. rewrite Loc by exact Hrow. reflexivity.
Qed.

(** ** The float tests on a proportion *)

Lemma SFeqb_F2Z (a b : spec_float) :
  wf a -> wf b -> SFeqb a b = (F2Z a =? F2Z b).
Proof.
  intros Ha Hb. unfold SFeqb. rewrite SFcompare_F2Z by assumption.
  destruct (Z.compare_spec (F2Z a) (F2Z b)) as [E|L|L].
  - rewrite E. symmetry. apply Z.eqb_refl.
  - symmetry. apply Z.eqb_neq. lia.
  - symmetry. apply Z.eqb_neq. lia.
Qed.

Lemma proportion_tests (p : float) :
  wf p -> 0 <= F2Z p <= 2 ^ 1074 ->
  in_unit_interval p = true /\
  (float_lt float_zero p = true <-> F2Z p <> 0) /\
  (float_eq p float_one = true <-> F2Z p = 2 ^ 1074).
Proof.
  intros W B. split; [apply in_unit_interval_F2Z; assumption|]. split.
  - unfold float_lt. rewrite SFltb_F2Z by (try apply wf_zero; assumption).
    change (F2Z float_zero) with 0. rewrite Z.ltb_lt. lia.
  - unfold float_eq. rewrite SFeqb_F2Z by (try apply wf_one; assumption).
    rewrite F2Z_one, Z.eqb_eq. reflexivity.
Qed.

(** ** [calculate_counts] *)

(** X10. [calculate_counts] splits the whole [count] column: the sum over
    the rows answered "-1" plus the sum over the other rows is, in [int64]
    arithmetic, the sum of the column, and that is [total_count]. When the
    total is positive all four entries of the returned [Series] are floats
    (the three counts are converted, since the proportion is a float);
    otherwise all four are integers and the proportion is the integer
    [0]. *)
Theorem X10_calculate_counts_total (group : list ResponseCounts.row) :
  let null := int64_sum (map ResponseCounts.count (filter is_null_answer group)) in
  let other :=
    int64_sum (map ResponseCounts.count
                   (filter (fun r => negb (is_null_answer r)) group)) in
  let total := int64_sum (map ResponseCounts.count group) in
  int64_add null other = total /\
  calculate_counts group =
    if 0 <? total
    then [("null_count", PFloat (float_of_int null));
          ("other_count", PFloat (float_of_int other));
          ("total_count", PFloat (float_of_int total));
          ("null_proportion", PFloat (int64_truediv null total))]%string
    else [("null_count", PInt null); ("other_count", PInt other);
          ("total_count", PInt total); ("null_proportion", PInt 0)]%string.
Proof.
  intros null other total.
  assert (int64_add null other = total) as E by apply int64_partition.
  split; [exact E|]. rewrite calculate_counts_cases. fold null other. rewrite E.
  rewrite Z.gtb_ltb. reflexivity.
Qed.

(** X11. On counts that are not negative and whose sum is below [2^63],
    [calculate_counts] adds without wrapping, and [null_proportion] is the
    integer [0] for a total of [0] and otherwise the float quotient of the
    null count by the total, which lies in [0, 1] and is positive exactly
    when some answer is "-1". *)
Theorem X11_calculate_counts_proportion (group : list ResponseCounts.row) :
  Forall (fun r => 0 <= ResponseCounts.count r) group ->
  sumZ (map ResponseCounts.count group) < 2 ^ 63 ->
  let null := sumZ (map ResponseCounts.count (filter is_null_answer group)) in
  let total := sumZ (map ResponseCounts.count group) in
  0 <= null <= total /\
  (total = 0 ->
   series_loc String.eqb (calculate_counts group) "null_proportion"%string = Some (PInt 0)) /\
  (0 < total ->
   exists p,
     series_loc String.eqb (calculate_counts group) "null_proportion"%string = Some (PFloat p) /\
     series_loc String.eqb (calculate_counts group) "total_count"%string
       = Some (PFloat (float_of_int total)) /\
     p = int64_truediv null total /\
     in_unit_interval p = true /\
     (float_lt float_zero p = true <-> 0 < null)).
Proof.
  intros Hpos Hsum null total.
  assert (Forall (fun a => 0 <= ResponseCounts.count a) group) as Hpos' by exact Hpos.
  pose proof (sumZ_filter_le _ is_null_answer ResponseCounts.count group Hpos') as Bn.
  pose proof (sumZ_filter_le _ (fun r => negb (is_null_answer r)) ResponseCounts.count
                group Hpos') as Bo.
  pose proof (sumZ_partition _ is_null_answer ResponseCounts.count group) as Part.
  fold null total in Bn, Part. fold total in Bo.
  pose proof (int64_partition _ is_null_answer ResponseCounts.count group) as E.
  pose proof (calculate_counts_cases group) as C. cbv zeta in C.
  rewrite E, Z.gtb_ltb in C.
  rewrite !int64_sum_spec in C. fold null total in C.
  rewrite (wrap64_small null) in C by (rewrite two_63 in *; lia).
  rewrite (wrap64_small total) in C by (rewrite two_63 in *; lia).
  rewrite wrap64_small in C by (rewrite two_63 in *; lia).
  split; [exact Bn|]. split.
  - intros T0. rewrite C. replace (0 <? total) with false
      by (symmetry; apply Z.ltb_ge; lia). reflexivity.
  - intros Tpos. rewrite C. replace (0 <? total) with true
      by (symmetry; apply Z.ltb_lt; lia).
    eexists. split; [reflexivity|]. split; [reflexivity|]. split; [reflexivity|].
    destruct (int64_truediv_unit null total ltac:(lia) ltac:(rewrite two_63 in *; lia))
      as (W & F & B & Z0 & _).
    destruct (proportion_tests _ W B) as (U & L & _).
    split; [exact U|]. rewrite L, Z0. lia.
Qed.

Lemma X11_calculate_counts_proportion_witness :
  0 <= 2 <= 4 /\
  exists p,
    series_loc String.eqb (calculate_counts example_group) "null_proportion"%string
      = Some (PFloat p) /\
    in_unit_interval p = true /\ p = float_half.
Proof.
  assert (Forall (fun r => 0 <= ResponseCounts.count r) example_group) as H1
    by (repeat constructor; cbn; lia).
  assert (sumZ (map ResponseCounts.count example_group) < 2 ^ 63) as H2 by reflexivity.
  destruct (X11_calculate_counts_proportion example_group H1 H2) as (B & _ & P).
  split; [exact B|].
  destruct (P ltac:(reflexivity)) as (p & E & _ & V & U & _).
  exists p. split; [exact E|]. split; [exact U|]. rewrite V. vm_compute. reflexivity.
Defined.

(** ** [analyze_null_values] *)

Lemma analyze_null_values_empty {SV : SortValues} :
  analyze_null_values [] = Raises (KeyError (CStr "null_proportion")).
Proof. reflexivity. Qed.

Lemma analyze_null_values_inv {SV : SortValues} (df : DataFrame)
  (rows : list NullAnalysis.row) :
  sort_values_lawful SV -> len df < 2 ^ 63 ->
  analyze_null_values df = Returns rows ->
  df <> [] /\ Permutation rows (null_analysis df) /\
  StronglySorted (in_order null_proportion_value false) rows.
Proof.
  intros Law Hlen E.
  assert (df <> []) as Hne.
  { intros ->. rewrite analyze_null_values_empty in E. discriminate E. }
  destruct (analyze_null_values_rows df Law Hne Hlen) as (rows' & E' & P & S).
  rewrite E in E'. inversion E'; subst rows'. split; [exact Hne|]. split; assumption.
Qed.

(** X12. On a survey without rows [analyze_null_values] raises [KeyError]
    for the column [null_proportion]; on any other survey it returns a
    table with exactly one row for every question that occurs in the
    survey. *)
Theorem X12_analyze_null_values_questions {SV : SortValues} (df : DataFrame) :
  sort_values_lawful SV -> len df < 2 ^ 63 ->
  (df = [] -> analyze_null_values df = Raises (KeyError (CStr "null_proportion"))) /\
  (df <> [] ->
   exists rows,
     analyze_null_values df = Returns rows /\
     NoDup (map NullAnalysis.questiontext rows) /\
     forall q, In q (map NullAnalysis.questiontext rows) <-> In q (map questiontext df)).
Proof.
  intros Law Hlen. split; [intros ->; apply analyze_null_values_empty|].
  intros Hne. destruct (analyze_null_values_rows df Law Hne Hlen) as (rows & E & P & _).
  exists rows. split; [exact E|].
  pose proof (Permutation_map NullAnalysis.questiontext P) as PQ.
  rewrite null_analysis_questions in PQ. split.
  - apply (Permutation_NoDup (Permutation_sym PQ)). apply unique_NoDup.
    exact String.eqb_eq.
  - intros q. split; intros H.
    + apply response_counts_questions.
      apply (proj1 (unique_In String.eqb String.eqb_eq _ _)).
      exact (Permutation_in q PQ H).
    + apply (Permutation_in q (Permutation_sym PQ)).
      apply (proj2 (unique_In String.eqb String.eqb_eq _ _)).
      apply response_counts_questions. exact H.
Qed.

Lemma X12_analyze_null_values_questions_witness :
  exists rows,
    analyze_null_values (SV := insertion_sort_values) example_answers = Returns rows /\
    map NullAnalysis.questiontext rows = ["Age"; "Country"]%string.
Proof.
  assert (len example_answers < 2 ^ 63) as H by reflexivity.
  destruct (X12_analyze_null_values_questions (SV := insertion_sort_values)
              example_answers insertion_sort_lawful H) as [_ P].
  destruct (P ltac:(discriminate)) as (rows & E & _).
  exists rows. split; [exact E|].
  assert (analyze_null_values (SV := insertion_sort_values) example_answers
          = Returns rows) as E' by exact E.
  vm_compute in E'. inversion E'. reflexivity.
Defined.

(** X13. Every row of the table [analyze_null_values] returns holds the
    numbers of survey rows of its question: [null_count] counts those
    answered "-1", [other_count] the others, [total_count] all of them;
    the first two add up to the third, and the total is at least [1], so
    the division by [total_count] is never skipped. *)
Theorem X13_analyze_null_values_counts {SV : SortValues} (df : DataFrame)
  (rows : list NullAnalysis.row) :
  sort_values_lawful SV -> len df < 2 ^ 63 ->
  analyze_null_values df = Returns rows ->
  Forall (fun r =>
            let q := NullAnalysis.questiontext r in
            NullAnalysis.null_count r =
              len (select (fun x => asks q x && answers "-1" x) df) /\
            NullAnalysis.other_count r =
              len (select (fun x => asks q x && negb (answers "-1" x)) df) /\
            NullAnalysis.total_count r = len (select (asks q) df) /\
            NullAnalysis.null_count r + NullAnalysis.other_count r
              = NullAnalysis.total_count r /\
            1 <= NullAnalysis.total_count r) rows.
Proof.
  intros Law Hlen E. destruct (analyze_null_values_inv df rows Law Hlen E) as (_ & P & _).
  apply Forall_forall. intros r Hr.
  pose proof (Permutation_in r P Hr) as Hin.
  destruct (null_analysis_row_facts df r Hlen Hin) as (_ & En & Eo & Et & Sum & _ & _ & Ht & _).
  cbv zeta. repeat (split; [assumption|]). lia.
Qed.

Lemma X13_analyze_null_values_counts_witness :
  exists rows,
    analyze_null_values (SV := insertion_sort_values) example_answers = Returns rows /\
    map NullAnalysis.null_count rows = [2; 0] /\
    map NullAnalysis.total_count rows = [3; 2] /\
    Forall (fun r => NullAnalysis.null_count r + NullAnalysis.other_count r
                     = NullAnalysis.total_count r) rows.
Proof.
  eexists. split; [vm_compute; reflexivity|]. split; [reflexivity|]. split; [reflexivity|].
  assert (len example_answers < 2 ^ 63) as H by reflexivity.
  eapply Forall_impl;
    [|apply (X13_analyze_null_values_counts (SV := insertion_sort_values) example_answers
               _ insertion_sort_lawful H); vm_compute; reflexivity].
  intros r (_ & _ & _ & S & _). exact S.
Defined.

(** X14. Every [null_proportion] of the table [analyze_null_values]
    returns is a float, the quotient of [null_count] by [total_count] as
    floats; it lies in [0, 1], is positive exactly when the question has an
    answer "-1" and is [1.0] when it has no other answer. The rows come in
    descending order of it. *)
Theorem X14_analyze_null_values_proportions {SV : SortValues} (df : DataFrame)
  (rows : list NullAnalysis.row) :
  sort_values_lawful SV -> len df < 2 ^ 63 ->
  analyze_null_values df = Returns rows ->
  Forall (fun r =>
            exists p,
              NullAnalysis.null_proportion r = PFloat p /\
              p = int64_truediv (NullAnalysis.null_count r) (NullAnalysis.total_count r) /\
              in_unit_interval p = true /\
              (float_lt float_zero p = true <-> 0 < NullAnalysis.null_count r) /\
              (NullAnalysis.other_count r = 0 -> float_eq p float_one = true)) rows /\
  StronglySorted (fun a b => float_le (null_proportion_value b) (null_proportion_value a)
                             = true) rows.
Proof.
  intros Law Hlen E. destruct (analyze_null_values_inv df rows Law Hlen E) as (_ & P & S).
  assert (forall r, In r rows ->
            NullAnalysis.null_proportion r = PFloat (null_proportion_value r) /\
            null_proportion_value r =
              int64_truediv (NullAnalysis.null_count r) (NullAnalysis.total_count r) /\
            wf (null_proportion_value r) /\
            0 <= F2Z (null_proportion_value r) <= 2 ^ 1074 /\
            (F2Z (null_proportion_value r) = 0 <-> NullAnalysis.null_count r = 0) /\
            (NullAnalysis.other_count r = 0 -> F2Z (null_proportion_value r) = 2 ^ 1074) /\
            0 <= NullAnalysis.null_count r) as Facts.
  { intros r Hr. pose proof (Permutation_in r P Hr) as Hin.
    destruct (null_analysis_proportions df r Hlen Hin) as (Ep & Ev & W & _ & B & Z0 & One).
    destruct (null_analysis_row_facts df r Hlen Hin) as (_ & _ & _ & _ & _ & Hn & _).
    repeat (split; [assumption|]). exact Hn. }
  split.
  - apply Forall_forall. intros r Hr.
    destruct (Facts r Hr) as (Ep & Ev & W & B & Z0 & One & Hn).
    destruct (proportion_tests _ W B) as (U & L & Eq1).
    exists (null_proportion_value r). split; [exact Ep|]. split; [exact Ev|].
    split; [exact U|]. split; [rewrite L, Z0; lia|].
    intros O. apply Eq1, One, O.
  - assert (Forall (fun r => wf (null_proportion_value r)) rows) as W.
    { apply Forall_forall. intros r Hr. apply (Facts r Hr). }
    clear -S W. induction S as [|a l S IH Ha]; [constructor|].
    inversion W as [|? ? Wa Wl]; subst. constructor; [apply IH; exact Wl|].
    rewrite Forall_forall in *. intros b Hb. specialize (Ha b Hb).
    unfold in_order, le_value in Ha. unfold float_le.
    rewrite SFleb_F2Z by (first [exact Wa|apply Wl; exact Hb]). apply Z.leb_le. exact Ha.
Qed.

Lemma X14_analyze_null_values_proportions_witness :
  exists rows,
    analyze_null_values (SV := insertion_sort_values) example_answers = Returns rows /\
    Forall (fun r => exists p, NullAnalysis.null_proportion r = PFloat p /\
                               in_unit_interval p = true) rows /\
    StronglySorted (fun a b => float_le (null_proportion_value b) (null_proportion_value a)
                               = true) rows.
Proof.
  eexists. split; [vm_compute; reflexivity|].
  assert (len example_answers < 2 ^ 63) as H by reflexivity.
  destruct (X14_analyze_null_values_proportions (SV := insertion_sort_values)
              example_answers _ insertion_sort_lawful H ltac:(vm_compute; reflexivity))
    as [F S].
  split; [|exact S].
  eapply Forall_impl; [|exact F]. intros r (p & E & _ & U & _). exists p. split; assumption.
Defined.

(** X15. [analyze_null_values] and [calculate_counts] agree: on the rows
    of [response_counts] of a question, [calculate_counts] returns the four
    numbers of that question's row of the table, the three counts as
    floats. *)
Theorem X15_null_values_agree {SV : SortValues} (df : DataFrame)
  (rows : list NullAnalysis.row) :
  sort_values_lawful SV -> len df < 2 ^ 63 ->
  analyze_null_values df = Returns rows ->
  Forall (fun r =>
            calculate_counts
              (question_data (response_counts df) (NullAnalysis.questiontext r)) =
            [("null_count", PFloat (float_of_int (NullAnalysis.null_count r)));
             ("other_count", PFloat (float_of_int (NullAnalysis.other_count r)));
             ("total_count", PFloat (float_of_int (NullAnalysis.total_count r)));
             ("null_proportion", NullAnalysis.null_proportion r)]%string) rows.
Proof.
  intros Law Hlen E. destruct (analyze_null_values_inv df rows Law Hlen E) as (_ & P & _).
  apply Forall_forall. intros r Hr.
  pose proof (Permutation_in r P Hr) as Hin.
  destruct (null_analysis_row_facts df r Hlen Hin) as (_ & _ & _ & _ & _ & _ & _ & Ht & Ep).
  destruct (null_analysis_In df r Hin) as [Er _].
  rewrite calculate_counts_cases. cbv zeta.
  set (q := NullAnalysis.questiontext r) in *.
  change (int64_add
            (int64_sum (map ResponseCounts.count
                            (filter is_null_answer (question_data (response_counts df) q))))
            (int64_sum (map ResponseCounts.count
                            (filter (fun r0 => negb (is_null_answer r0))
                                    (question_data (response_counts df) q)))))
    with (NullAnalysis.total_count (null_analysis_row (response_counts df) q)).
  change (int64_sum (map ResponseCounts.count
                         (filter is_null_answer (question_data (response_counts df) q))))
    with (NullAnalysis.null_count (null_analysis_row (response_counts df) q)).
  change (int64_sum (map ResponseCounts.count
                         (filter (fun r0 => negb (is_null_answer r0))
                                 (question_data (response_counts df) q))))
    with (NullAnalysis.other_count (null_analysis_row (response_counts df) q)).
  rewrite <- Er. rewrite Ep.
  replace (NullAnalysis.total_count r >? 0) with true
    by (symmetry; apply Z.gtb_lt; lia).
  reflexivity.
Qed.

Lemma X15_null_values_agree_witness :
  exists rows,
    analyze_null_values (SV := insertion_sort_values) example_answers = Returns rows /\
    Forall (fun r =>
              calculate_counts
                (question_data (response_counts example_answers)
                               (NullAnalysis.questiontext r)) =
              [("null_count", PFloat (float_of_int (NullAnalysis.null_count r)));
               ("other_count", PFloat (float_of_int (NullAnalysis.other_count r)));
               ("total_count", PFloat (float_of_int (NullAnalysis.total_count r)));
               ("null_proportion", NullAnalysis.null_proportion r)]%string) rows.
Proof.
  eexists. split; [vm_compute; reflexivity|].
  assert (len example_answers < 2 ^ 63) as H by reflexivity.
  apply (X15_null_values_agree (SV := insertion_sort_values) example_answers _
           insertion_sort_lawful H).
  vm_compute. reflexivity.
Defined.

(** ** [add_question_answers_proportions_by_group] returns *)

Lemma group_by_column (group_by : string) :
  group_by = "SurveyID"%string \/ group_by = "questiontext"%string ->
  exists group_column,
    column group_by = Some group_column /\ group_by <> "AnswerText"%string.
Proof.
  intros [-> | ->]; eexists; (split; [reflexivity|discriminate]).
Qed.

Lemma selected_nonempty (df : DataFrame) (questions : questions_arg) :
  (exists r, In r df /\ question_mask questions r = true) ->
  select (question_mask questions) df <> [].
Proof.
  intros (r & Hr & Hm) E.
  assert (In r (select (question_mask questions) df)) as H
    by (apply filter_In; split; assumption).
  rewrite E in H. destruct H.
Qed.

Lemma proportion_rows_keys (df : DataFrame) (questions : questions_arg)
  (group_column : Row -> cell) :
  map (fun row => (Proportions.group row, Proportions.AnswerText row))
      (map (proportion_row df questions group_column)
           (answer_keys df questions group_column))
  = answer_keys df questions group_column.
Proof.
  rewrite map_map. rewrite <- (map_id (answer_keys df questions group_column)) at 2.
  apply map_ext. intros [g a]. reflexivity.
Qed.

(** X16. For a grouping column [SurveyID] or [questiontext] and a
    selection that is not empty,
    [add_question_answers_proportions_by_group] returns a table with
    exactly one row for every pair of group and answer that occurs among
    the selected rows, and [Count] is the number of selected rows with that
    pair, at least [1]. *)
Theorem X16_answer_counts (df : DataFrame) (questions : questions_arg)
  (group_by : string) :
  len df < 2 ^ 63 ->
  group_by = "SurveyID"%string \/ group_by = "questiontext"%string ->
  (exists r, In r df /\ question_mask questions r = true) ->
  exists group_column rows,
    column group_by = Some group_column /\
    add_question_answers_proportions_by_group df questions group_by = Returns rows /\
    NoDup (map (fun row => (Proportions.group row, Proportions.AnswerText row)) rows) /\
    (forall g a,
       In (g, a) (map (fun row => (Proportions.group row, Proportions.AnswerText row)) rows)
       <-> exists r, In r df /\ question_mask questions r = true /\
                     group_column r = g /\ AnswerText r = a) /\
    Forall (fun row =>
              Proportions.Count row =
                answer_count df questions group_column (Proportions.group row)
                             (Proportions.AnswerText row) /\
              1 <= Proportions.Count row) rows.
Proof.
  intros Hlen Hg Hsel. destruct (group_by_column group_by Hg) as (col & Hcol & Hname).
  exists col. eexists. split; [exact Hcol|]. split.
  { apply (add_question_answers_rows df questions group_by col Hlen Hcol Hname).
    apply selected_nonempty. exact Hsel. }
  rewrite proportion_rows_keys. split; [|split].
  - unfold answer_keys. apply group_keys_NoDup. exact cell_pair_eqb_eq.
  - intros g a. apply answer_keys_In.
  - apply Forall_forall. intros row Hrow. apply in_map_iff in Hrow.
    destruct Hrow as (k & <- & Hk). cbn [proportion_row Proportions.Count
      Proportions.group Proportions.AnswerText]. split; [reflexivity|].
    pose proof (answer_count_pos df questions col k Hk). lia.
Qed.

Lemma X16_answer_counts_witness :
  exists rows,
    add_question_answers_proportions_by_group example_answers (Question "Age") "SurveyID"
      = Returns rows /\
    map (fun row => (Proportions.group row, Proportions.AnswerText row,
                     Proportions.Count row)) rows
      = [(CInt 2016, "-1", 1); (CInt 2016, "30", 1); (CInt 2017, "-1", 1)]%string.
Proof.
  assert (len example_answers < 2 ^ 63) as H1 by reflexivity.
  assert (exists r, In r example_answers /\ question_mask (Question "Age") r = true) as H2.
  { exists (mkRow 2016 "Age" "-1"). split; [left; reflexivity|reflexivity]. }
  destruct (X16_answer_counts example_answers (Question "Age") "SurveyID" H1
              (or_introl eq_refl) H2) as (col & rows & _ & E & _).
  exists rows. split; [exact E|].
  assert (add_question_answers_proportions_by_group example_answers (Question "Age")
            "SurveyID" = Returns rows) as E' by exact E.
  vm_compute in E'. inversion E'. reflexivity.
Defined.

(** The rows made by [proportion_row]: counts that add up within a
    group and proportions in (0, 1]. *)
Lemma proportion_rows_facts (df : DataFrame) (questions : questions_arg)
  (group_column : Row -> cell) :
  len df < 2 ^ 63 ->
  let rows := map (proportion_row df questions group_column)
                  (answer_keys df questions group_column) in
  Forall (fun row =>
            let total :=
              group_total df questions group_column (Proportions.group row) in
            sumZ (map Proportions.Count
                      (filter (fun row' => cell_eqb (Proportions.group row')
                                                    (Proportions.group row)) rows))
              = total /\
            1 <= Proportions.Count row <= total /\
            Proportions.Proportion row = int64_truediv (Proportions.Count row) total /\
            float_lt float_zero (Proportions.Proportion row) = true /\
            float_le (Proportions.Proportion row) float_one = true /\
            (Proportions.Count row = total ->
             float_eq (Proportions.Proportion row) float_one = true)) rows.
Proof.
  intros Hlen rows. subst rows.
  apply Forall_forall. intros row Hrow. apply in_map_iff in Hrow.
  destruct Hrow as (k & <- & Hk).
  cbn [proportion_row Proportions.Count Proportions.group Proportions.AnswerText
       Proportions.Proportion]. cbv zeta.
  pose proof (answer_count_pos df questions group_column k Hk) as Pos.
  destruct (answer_count_bounds df questions group_column (fst k) (snd k)) as [B1 B2].
  split; [|split; [lia|split; [reflexivity|]]].
  - rewrite filter_map_comm, map_map.
    cbn [proportion_row Proportions.Count Proportions.group].
    apply (group_counts_sum df questions group_column Hlen).
  - destruct (int64_truediv_unit (answer_count df questions group_column (fst k) (snd k))
                (group_total df questions group_column (fst k)) ltac:(lia) ltac:(lia))
      as (W & F & B & Z0 & One).
    destruct (proportion_tests _ W B) as (U & L & Eq1).
    apply in_unit_interval_F2Z in U; [|exact W].
    split; [apply L; rewrite Z0; lia|]. split.
    + unfold float_le. rewrite SFleb_F2Z by (try apply wf_one; assumption).
      rewrite F2Z_one. apply Z.leb_le. lia.
    + intros E. apply Eq1, One, E.
Qed.

(** X17. In the table that
    [add_question_answers_proportions_by_group] returns, the counts of the
    rows of a group add up to the number of selected rows of the group,
    and [Proportion] is the float quotient of [Count] by that total: no
    division by zero occurs, every proportion is positive and at most
    [1.0], and it is [1.0] for a group with a single answer. *)
Theorem X17_answer_proportions (df : DataFrame) (questions : questions_arg)
  (group_by : string) :
  len df < 2 ^ 63 ->
  group_by = "SurveyID"%string \/ group_by = "questiontext"%string ->
  (exists r, In r df /\ question_mask questions r = true) ->
  exists group_column rows,
    column group_by = Some group_column /\
    add_question_answers_proportions_by_group df questions group_by = Returns rows /\
    Forall (fun row =>
              let total :=
                group_total df questions group_column (Proportions.group row) in
              sumZ (map Proportions.Count
                        (filter (fun row' => cell_eqb (Proportions.group row')
                                                      (Proportions.group row)) rows))
                = total /\
              1 <= Proportions.Count row <= total /\
              Proportions.Proportion row = int64_truediv (Proportions.Count row) total /\
              float_lt float_zero (Proportions.Proportion row) = true /\
              float_le (Proportions.Proportion row) float_one = true /\
              (Proportions.Count row = total ->
               float_eq (Proportions.Proportion row) float_one = true)) rows.
Proof.
  intros Hlen Hg Hsel. destruct (group_by_column group_by Hg) as (col & Hcol & Hname).
  exists col. eexists. split; [exact Hcol|]. split.
  { apply (add_question_answers_rows df questions group_by col Hlen Hcol Hname).
    apply selected_nonempty. exact Hsel. }
  apply (proportion_rows_facts df questions col Hlen).
Qed.

Lemma X17_answer_proportions_witness :
  exists rows,
    add_question_answers_proportions_by_group example_answers (Question "Age") "SurveyID"
      = Returns rows /\
    map Proportions.Proportion rows = [float_half; float_half; float_one].
Proof.
  assert (len example_answers < 2 ^ 63) as H1 by reflexivity.
  assert (exists r, In r example_answers /\ question_mask (Question "Age") r = true) as H2.
  { exists (mkRow 2016 "Age" "-1"). split; [left; reflexivity|reflexivity]. }
  destruct (X17_answer_proportions example_answers (Question "Age") "SurveyID" H1
              (or_introl eq_refl) H2) as (col & rows & _ & E & _).
  exists rows. split; [exact E|].
  assert (add_question_answers_proportions_by_group example_answers (Question "Age")
            "SurveyID" = Returns rows) as E' by exact E.
  vm_compute in E'. inversion E'. reflexivity.
Defined.

(** * Further properties: the records of the prevalence functions *)

Lemma new_records_app (w : World) (d : Z) (new : list LogRecord) :
  new_records w (mkWorld d (trace w ++ new)) = new.
Proof.
  unfold new_records. cbn [trace].
  rewrite skipn_app, skipn_all, Nat.sub_diag. reflexivity.
Qed.

Lemma world_eta (w : World) : w = mkWorld (disabled w) (trace w).
Proof. destruct w; reflexivity. Qed.

(** The records of one call of [calculate_prevalence_rate]. *)
Lemma calculate_prevalence_rate_records (p d t c : Z) (w : World) :
  exists new,
    snd (calculate_prevalence_rate p d t c w) = mkWorld (disabled w) (trace w ++ new) /\
    hd_error new =
      Some (mkLogRecord INFO
              "Calculating prevalence rate for a specific mental health condition." []
              (is_enabled_for w INFO)) /\
    existsb errors new = (p =? 0) /\
    existsb warns new = negb (p =? 0) && (d >? p) /\
    Forall (fun r => lr_shown r = is_enabled_for w (lr_level r)) new.
Proof.
  unfold calculate_prevalence_rate. run_logger.
  destruct (p =? 0).
  { cbn [fst snd disabled trace]. rewrite <- app_assoc.
    eexists. split; [reflexivity|]. repeat split. repeat constructor. }
  destruct (d >? p); cbn [fst snd disabled trace];
    (destruct (int_truediv d p);
     [destruct (t >? 0); [destruct (int_truediv c t)|]|]);
    cbn [fst snd disabled trace];
    repeat rewrite <- app_assoc; eexists; (split; [reflexivity|]);
    repeat split; repeat constructor.
Qed.

Lemma info_not_error (msg : string) (args : list log_arg) (shown : bool) :
  errors (mkLogRecord INFO msg args shown) = false.
Proof. reflexivity. Qed.

Lemma info_not_warning (msg : string) (args : list log_arg) (shown : bool) :
  warns (mkLogRecord INFO msg args shown) = false.
Proof. reflexivity. Qed.

Lemma is_enabled_for_trace (w : World) (tr : list LogRecord) (lvl : Z) :
  is_enabled_for (mkWorld (disabled w) tr) lvl = is_enabled_for w lvl.
Proof. reflexivity. Qed.

(** The records of one call of [calculate_disorder_prevalence]. *)
Lemma calculate_disorder_prevalence_records (df : DataFrame) (name : string) (w : World) :
  exists new,
    snd (calculate_disorder_prevalence df name w)
      = mkWorld (disabled w) (trace w ++ new) /\
    existsb errors new = (len (select is_main (select in_2016 df)) =? 0) /\
    existsb warns new = false /\
    Forall (fun r => lr_shown r = is_enabled_for w (lr_level r)) new.
Proof.
  unfold calculate_disorder_prevalence.
  pose proof (disorder_counts_subset df name) as S. unfold disorder_counts in S.
  cbv zeta. set (df_2016 := select in_2016 df) in *.
  set (p := len (select is_main df_2016)) in *.
  set (d := len (select (fun r => is_main r && answers "Yes" r) df_2016)) in *.
  set (t := len (select is_follow_up df_2016)) in *.
  set (c := len (select (fun r => is_follow_up r && answers name r) df_2016)) in *.
  unfold bind at 1 2 3 4 5. unfold logger_info at 1 2 3 4, logger_log.
  cbn [fst snd disabled trace]. rewrite !is_enabled_for_trace.
  assert ((d >? p) = false) as Hdp by (rewrite Z.gtb_ltb; apply Z.ltb_ge; lia).
  match goal with
  | |- context [calculate_prevalence_rate p d t c ?w0] =>
      destruct (calculate_prevalence_rate_records p d t c w0)
        as (new & E & _ & Err & Wrn & Sh);
      destruct (calculate_prevalence_rate p d t c w0) as [[r|e] w1]
  end; cbn [snd disabled trace] in E; subst w1;
    rewrite Hdp, andb_false_r in Wrn; rewrite ?is_enabled_for_trace in Sh.
  - unfold logger_info, logger_log, bind, ret. cbn [fst snd disabled trace].
    rewrite is_enabled_for_trace.
    repeat rewrite <- app_assoc. eexists. split; [reflexivity|].
    cbn [app existsb]. rewrite !existsb_app. cbn [existsb].
    rewrite !info_not_error, !info_not_warning, Err, Wrn. cbn [orb].
    split; [apply orb_false_r|]. split; [reflexivity|].
    repeat (constructor; [reflexivity|]).
    apply Forall_app. split; [exact Sh|repeat constructor].
  - cbn [fst snd disabled trace].
    repeat rewrite <- app_assoc. eexists. split; [reflexivity|].
    cbn [app existsb].
    rewrite !info_not_error, !info_not_warning, Err, Wrn. cbn [orb].
    split; [reflexivity|]. split; [reflexivity|].
    repeat (constructor; [reflexivity|]). exact Sh.
Qed.

(** ** Under [logging.disable(logging.INFO)] *)

Lemma is_enabled_at_INFO (w : World) (lvl : Z) :
  disabled w = INFO -> is_enabled_for w lvl = (INFO <? lvl).
Proof.
  intros D. unfold is_enabled_for. rewrite D. unfold INFO.
  destruct (Z.leb_spec lvl 20), (Z.leb_spec 20 lvl), (Z.ltb_spec 20 lvl);
    cbn [negb andb]; first [reflexivity|lia].
Qed.

Lemma hushed_ret {A : Type} (a : A) : hushed (ret a).
Proof.
  intros w D. split; [exact D|]. exists []. split; [symmetry; apply app_nil_r|constructor].
Qed.

Lemma hushed_lift {A : Type} (r : result A) : hushed (lift r).
Proof.
  intros w D. split; [exact D|]. exists []. split; [symmetry; apply app_nil_r|constructor].
Qed.

Lemma hushed_logger_info (msg : string) (args : list log_arg) :
  hushed (logger_info msg args).
Proof.
  intros w D. split; [exact D|]. eexists. split; [reflexivity|].
  constructor; [|constructor]. cbn [lr_shown lr_level]. apply is_enabled_at_INFO, D.
Qed.

Lemma hushed_bind {A B : Type} (m : M A) (k : A -> M B) :
  hushed m -> (forall a, hushed (k a)) -> hushed (bind m k).
Proof.
  intros Hm Hk w D. unfold bind. specialize (Hm w D).
  destruct (m w) as [[a|e] w1]; cbn [snd] in *.
  - destruct Hm as (D1 & n1 & T1 & F1). destruct (Hk a w1 D1) as (D2 & n2 & T2 & F2).
    split; [exact D2|]. exists (n1 ++ n2). split.
    + rewrite T2, T1. symmetry. apply app_assoc.
    + apply Forall_app. split; assumption.
  - exact Hm.
Qed.

Lemma hushed_calculate_disorder_prevalence (df : DataFrame) (name : string) :
  hushed (calculate_disorder_prevalence df name).
Proof.
  intros w D. destruct (calculate_disorder_prevalence_records df name w)
    as (new & E & _ & _ & Sh).
  rewrite E. cbn [snd disabled trace]. split; [exact D|]. exists new.
  split; [reflexivity|]. eapply Forall_impl; [|exact Sh].
  intros r H. cbv beta in H. rewrite H. apply is_enabled_at_INFO, D.
Qed.

Section BootstrapRecords.

Context {RS : RandomState}.

Lemma hushed_bootstrap_loop (name : string) (ss : option Z) (main follow : DataFrame) :
  forall (k : nat) (g : rng) (acc : list float),
    hushed (bootstrap_loop k main follow name ss g acc).
Proof.
  induction k as [|k IH]; intros g acc; cbn [bootstrap_loop]; [apply hushed_ret|].
  apply hushed_bind; [apply hushed_lift|intros [[bm bf] g']].
  do 2 (apply hushed_bind; [apply hushed_logger_info|intros _]).
  apply hushed_bind; [apply hushed_calculate_disorder_prevalence|intros r]. apply IH.
Qed.

Lemma quiet_bootstrap_loop (name : string) (ss : option Z) (main follow : DataFrame) :
  forall (k : nat) (g : rng) (acc : list float),
    quiet (bootstrap_loop k main follow name ss g acc).
Proof.
  induction k as [|k IH]; intros g acc; cbn [bootstrap_loop]; [apply quiet_ret|].
  apply quiet_bind; [apply quiet_lift|intros [[bm bf] g']].
  do 2 (apply quiet_bind; [apply quiet_logger_info|intros _]).
  apply quiet_bind; [apply quiet_calculate_disorder_prevalence|intros r]. apply IH.
Qed.

Lemma hushed_bootstrap_prevalence_rate (df : DataFrame) (name : string) (n : Z)
  (ss : option Z) (seed : Z) :
  hushed (bootstrap_prevalence_rate df name n ss seed).
Proof.
  unfold bootstrap_prevalence_rate.
  apply hushed_bind; [apply hushed_calculate_disorder_prevalence|intros r]. cbv zeta.
  apply hushed_bind; [apply hushed_lift|intros g].
  apply hushed_bind; [apply hushed_bootstrap_loop|intros rates]. apply hushed_ret.
Qed.

Lemma quiet_bootstrap_prevalence_rate (df : DataFrame) (name : string) (n : Z)
  (ss : option Z) (seed : Z) :
  quiet (bootstrap_prevalence_rate df name n ss seed).
Proof.
  unfold bootstrap_prevalence_rate.
  apply quiet_bind; [apply quiet_calculate_disorder_prevalence|intros r]. cbv zeta.
  apply quiet_bind; [apply quiet_lift|intros g].
  apply quiet_bind; [apply quiet_bootstrap_loop|intros rates]. apply quiet_ret.
Qed.

Lemma analyze_disorder_prevalence_run (df : DataFrame) (name : string) (n : Z)
  (cl : float) (seed : Z) (w : World) :
  analyze_disorder_prevalence df name n cl seed w =
  match bootstrap_prevalence_rate df name n None seed (mkWorld INFO (trace w)) with
  | (Ok (orig, rates), w1) =>
      match calculate_confidence_interval rates cl with
      | Ok ci =>
          let res := mkBootstrapResult orig ci rates (np_std rates) in
          (Ok res, mkWorld NOTSET (trace w1 ++ summary_records res))
      | Raise e => (Raise e, w1)
      end
  | (Raise e, w1) => (Raise e, w1)
  end.
Proof.
  unfold analyze_disorder_prevalence, bind, logging_disable, lift, logger_info,
    logger_log, ret. cbn [fst snd disabled trace].
  destruct (bootstrap_prevalence_rate df name n None seed _) as [[[orig rates]|e] w1];
    [|reflexivity].
  destruct (calculate_confidence_interval rates cl) as [[lo hi]|e]; [|reflexivity].
  cbn [fst snd disabled trace summary_records original_rate confidence_interval
       standard_error]. f_equal. f_equal. repeat rewrite <- app_assoc. reflexivity.
Qed.

(** The world after [analyze_disorder_prevalence]: the records of the
    bootstrap, hidden unless they are above [INFO], and after a result the
    three records of the summary, shown. *)
Lemma analyze_disorder_prevalence_world (df : DataFrame) (name : string) (n : Z)
  (cl : float) (seed : Z) (w : World) :
  exists inner,
    Forall (fun r => lr_shown r = (INFO <? lr_level r)) inner /\
    existsb warns inner = false /\
    match fst (analyze_disorder_prevalence df name n cl seed w) with
    | Ok res =>
        snd (analyze_disorder_prevalence df name n cl seed w)
          = mkWorld NOTSET (trace w ++ inner ++ summary_records res)
    | Raise e =>
        snd (analyze_disorder_prevalence df name n cl seed w)
          = mkWorld INFO (trace w ++ inner)
    end.
Proof.
  rewrite analyze_disorder_prevalence_run. set (w0 := mkWorld INFO (trace w)).
  destruct (hushed_bootstrap_prevalence_rate df name n None seed w0 eq_refl)
    as (D & inner & T & Sh).
  destruct (quiet_bootstrap_prevalence_rate df name n None seed w0)
    as (_ & inner' & T' & Wn).
  assert (inner' = inner) as ->.
  { rewrite T in T'. apply app_inv_head in T'. symmetry. exact T'. }
  exists inner. split; [exact Sh|]. split; [exact Wn|].
  destruct (bootstrap_prevalence_rate df name n None seed w0) as [[[orig rates]|e] w1];
    cbn [snd fst] in *.
  - destruct (calculate_confidence_interval rates cl) as [ci|e]; cbn [fst snd].
    + rewrite T. cbn [trace w0]. rewrite <- app_assoc. reflexivity.
    + rewrite (world_eta w1), D, T. reflexivity.
  - rewrite (world_eta w1), D, T. reflexivity.
Qed.

End BootstrapRecords.

(** X1. [calculate_prevalence_rate] leaves [logging.disable] alone and
    only appends records: first the opening [INFO] record; a record of
    level [ERROR] exactly when [population] is [0]; a record of level
    [WARNING] exactly when [population] is not [0] and [diagnosed_cases]
    exceeds it. *)
Theorem X1_prevalence_records (p d t c : Z) (w : World) :
  let w' := snd (calculate_prevalence_rate p d t c w) in
  let new := new_records w w' in
  disabled w' = disabled w /\ trace w' = trace w ++ new /\
  hd_error new =
    Some (mkLogRecord INFO
            "Calculating prevalence rate for a specific mental health condition." []
            (is_enabled_for w INFO)) /\
  existsb errors new = (p =? 0) /\
  existsb warns new = negb (p =? 0) && (d >? p).
Proof.
  intros w' new. subst new w'.
  destruct (calculate_prevalence_rate_records p d t c w) as (new & E & H & Er & Wn & _).
  rewrite E, new_records_app. cbn [disabled trace]. repeat split; assumption.
Qed.

(** ** When the rate is zero *)

Lemma rnd_2_1011 : rnd (2 ^ 1011) 1 = 2 ^ 1011.
Proof.
  change (2 ^ 1011) with (F2Z (S754_finite false 4503599627370496 (-115))) at 2.
  apply rnd_const; [apply finite_float_const; reflexivity|lia|].
  vm_compute. reflexivity.
Qed.

Lemma rnd_2_948 : rnd (2 ^ 948) 1 = 2 ^ 948.
Proof.
  change (2 ^ 948) with (F2Z (S754_finite false 4503599627370496 (-178))) at 2.
  apply rnd_const; [apply finite_float_const; reflexivity|lia|].
  vm_compute. reflexivity.
Qed.

(** The quotient of two counts below [2^63] is zero for a zero numerator
    and at least [2^-63] otherwise. *)
Lemma int_truediv_count (a b : Z) :
  0 <= a <= b -> 0 < b < 2 ^ 63 ->
  exists f, int_truediv a b = Ok f /\ wf f /\ is_finite f = true /\
            0 <= F2Z f <= 2 ^ 1074 /\
            (a = 0 -> F2Z f = 0) /\ (1 <= a -> 2 ^ 1011 <= F2Z f).
Proof.
  intros Ha Hb. destruct (int_truediv_le_one a b Ha ltac:(lia)) as (f & E & B & W & F).
  exists f. repeat (split; [assumption|]).
  destruct (int_truediv_nonneg a b ltac:(lia) ltac:(lia)) as (_ & _ & V).
  destruct (V f E) as (Vf & _). split.
  - intros ->. rewrite Vf. apply rnd_0.
  - intros H1. rewrite Vf, <- rnd_2_1011. apply rnd_mono; lia.
Qed.

Lemma float_mul_sign_value (x y : float) :
  wf x -> wf y -> is_finite x = true -> is_finite y = true ->
  0 <= F2Z x <= 2 ^ 1074 -> 0 <= F2Z y <= 2 ^ 1074 ->
  wf (float_mul x y) /\ 0 <= F2Z (float_mul x y) <= 2 ^ 1074 /\
  (F2Z x = 0 \/ F2Z y = 0 -> F2Z (float_mul x y) = 0) /\
  (2 ^ 1011 <= F2Z x -> 2 ^ 1011 <= F2Z y -> 0 < F2Z (float_mul x y)).
Proof.
  intros Wx Wy Fx Fy Bx By.
  destruct (float_mul_value x y Wx Wy Fx Fy) as [V W].
  destruct (float_mul_unit x y Wx Wy Bx By Fx Fy) as [B _].
  split; [exact W|]. split; [exact B|]. split.
  - intros [Z0|Z0]; rewrite V, Z0; [rewrite Z.mul_0_l|rewrite Z.mul_0_r]; apply rnd_0.
  - intros Lx Ly. rewrite V.
    assert (2 ^ 948 <= rnd (F2Z x * F2Z y) (2 ^ 1074)) as L.
    { rewrite <- rnd_2_948. pose proof (pow2_pos 1074 ltac:(lia)).
      apply rnd_mono; first [lia|nia]. }
    pose proof (pow2_pos 948 ltac:(lia)). lia.
Qed.

Lemma positive_test (r : float) :
  wf r -> (float_lt float_zero r = true <-> 0 < F2Z r).
Proof.
  intros W. unfold float_lt. rewrite SFltb_F2Z by (try apply wf_zero; assumption).
  change (F2Z float_zero) with 0. apply Z.ltb_lt.
Qed.

(** The rate of counts below [2^63] is positive exactly when both
    numerators are. *)
Lemma prevalence_value_positive (p d t c : Z) :
  0 <= d <= p -> 0 <= c <= t -> p < 2 ^ 63 -> t < 2 ^ 63 ->
  exists r, prevalence_value p d t c = Ok r /\ wf r /\
            (0 < F2Z r <-> 0 < d /\ 0 < c).
Proof.
  intros Hd Hc Hp Ht. unfold prevalence_value.
  destruct (Z.eqb_spec p 0) as [E|E].
  { exists (S754_zero false). split; [reflexivity|]. split; [apply wf_zero|].
    cbn [F2Z]. lia. }
  destruct (int_truediv_count d p Hd ltac:(lia)) as (x & Ex & Wx & Fx & Bx & Zx & Px).
  rewrite Ex. cbn [result_bind].
  destruct (Z.gtb_spec t 0) as [G|G].
  - destruct (int_truediv_count c t Hc ltac:(lia)) as (y & Ey & Wy & Fy & By & Zy & Py).
    rewrite Ey. cbn [result_map result_bind float_mul_num].
    eexists. split; [reflexivity|].
    destruct (float_mul_sign_value x y Wx Wy Fx Fy Bx By) as (W & B & Z0 & Pos).
    split; [exact W|]. split.
    + intros H. destruct (Z.eq_dec d 0) as [D0|D0];
        [rewrite (Z0 (or_introl (Zx D0))) in H; lia|].
      destruct (Z.eq_dec c 0) as [C0|C0];
        [rewrite (Z0 (or_intror (Zy C0))) in H; lia|]. lia.
    + intros [H1 H2]. apply Pos; [apply Px|apply Py]; lia.
  - cbn [result_bind float_mul_num]. eexists. split; [reflexivity|].
    change (float_of_int 0) with (S754_zero false).
    assert (0 <= F2Z (S754_zero false) <= 2 ^ 1074) as B0.
    { cbn [F2Z]. pose proof (pow2_pos 1074 ltac:(lia)). lia. }
    destruct (float_mul_sign_value x (S754_zero false) Wx (wf_zero false) Fx eq_refl Bx B0)
      as (W & _ & Z0 & _).
    split; [exact W|]. rewrite (Z0 (or_intror eq_refl)). lia.
Qed.

(** X2. [calculate_disorder_prevalence] never raises on a survey of fewer
    than [2^63] rows; the rate it returns is positive exactly when some
    2016 answer to the main question is "Yes" and some 2016 follow-up
    answer is the disorder, and [0.0] otherwise, in particular for a
    disorder name that matches no row; and it logs an [ERROR] record
    exactly when the survey has no 2016 answer to the main question. *)
Theorem X2_zero_rate (df : DataFrame) (name : string) (w : World) :
  len df < 2 ^ 63 ->
  let '(population, diagnosed_cases, total_condition_reports, disorder_reports) :=
    disorder_counts df name in
  exists r,
    fst (calculate_disorder_prevalence df name w) = Ok r /\
    (float_lt float_zero r = true <-> 0 < diagnosed_cases /\ 0 < disorder_reports) /\
    (float_lt float_zero r = false -> F2Z r = 0) /\
    existsb errors (new_records w (snd (calculate_disorder_prevalence df name w)))
      = (population =? 0).
Proof.
  intros Hlen. pose proof (disorder_counts_subset df name) as S.
  pose proof (calculate_disorder_prevalence_value df name w) as V.
  destruct (calculate_disorder_prevalence_records df name w) as (new & E & Er & _).
  unfold disorder_prevalence_value in V. unfold disorder_counts in *.
  pose proof (select_len_bounds is_main (select in_2016 df)) as B1.
  pose proof (select_len_bounds is_follow_up (select in_2016 df)) as B2.
  pose proof (select_len_bounds in_2016 df) as B3.
  destruct S as [Sd Sc].
  destruct (prevalence_value_positive _ _ _ _ Sd Sc ltac:(lia) ltac:(lia))
    as (r & Ev & W & Pos).
  exists r. rewrite V, E, new_records_app. split; [exact Ev|]. split; [|split; [|exact Er]].
  - rewrite positive_test by exact W. exact Pos.
  - intros H. pose proof (proj2 (positive_test r W)) as P.
    destruct (prevalence_value_rate _ _ _ _ Sd Sc) as (r' & Ev' & _ & _ & U).
    rewrite Ev in Ev'. inversion Ev'; subst r'.
    apply in_unit_interval_F2Z in U; [|exact W].
    destruct (Z.eq_dec (F2Z r) 0) as [Z0|NZ]; [exact Z0|].
    rewrite P in H by lia. discriminate H.
Qed.

Lemma X2_zero_rate_witness :
  len other_year_df < 2 ^ 63 /\
  exists r,
    fst (calculate_disorder_prevalence other_year_df "Anxiety" initial_world) = Ok r /\
    F2Z r = 0 /\
    existsb errors
      (new_records initial_world
         (snd (calculate_disorder_prevalence other_year_df "Anxiety" initial_world)))
      = true.
Proof.
  assert (len other_year_df < 2 ^ 63) as H by reflexivity.
  split; [exact H|].
  pose proof (X2_zero_rate other_year_df "Anxiety" initial_world H) as T.
  cbn [disorder_counts] in T.
  destruct T as (r & E & P & Z0 & Er). exists r. split; [exact E|]. split; [|exact Er].
  apply Z0. destruct (float_lt float_zero r) eqn:L; [|reflexivity].
  destruct (proj1 P eq_refl) as [L' _]. vm_compute in L'. discriminate L'.
Defined.

(** * Further properties: which rows matter *)

Lemma Permutation_filter_length (A : Type) (p : A -> bool) (l l' : list A) :
  Permutation l l' -> List.length (filter p l) = List.length (filter p l').
Proof.
  induction 1 as [|a l l' _ IH|a b l|l l' l'' _ IH1 _ IH2]; cbn [filter].
  - reflexivity.
  - destruct (p a); cbn [List.length]; rewrite IH; reflexivity.
  - destruct (p a), (p b); reflexivity.
  - rewrite IH1. exact IH2.
Qed.

(** A count of 2016 rows of one of the two questions is a count of
    relevant rows. *)
Lemma relevant_count (p : Row -> bool) (df : DataFrame) :
  (forall r, p r = true -> is_main r || is_follow_up r = true) ->
  select p (select in_2016 df) = select p (select relevant df).
Proof.
  intros H. unfold select. rewrite !filter_filter. apply filter_ext.
  intros r. unfold relevant. specialize (H r).
  destruct (p r); [|rewrite !andb_false_r; reflexivity].
  rewrite H by reflexivity. rewrite !andb_true_r. reflexivity.
Qed.

Lemma is_main_relevant (r : Row) : is_main r = true -> is_main r || is_follow_up r = true.
Proof. intros ->. reflexivity. Qed.

Lemma is_follow_up_relevant (r : Row) :
  is_follow_up r = true -> is_main r || is_follow_up r = true.
Proof. intros ->. apply orb_true_r. Qed.

Lemma disorder_counts_relevant (df : DataFrame) (name : string) :
  disorder_counts df name =
  (len (select is_main (select relevant df)),
   len (select (fun r => is_main r && answers "Yes" r) (select relevant df)),
   len (select is_follow_up (select relevant df)),
   len (select (fun r => is_follow_up r && answers name r) (select relevant df))).
Proof.
  unfold disorder_counts. cbv zeta.
  rewrite (relevant_count is_main df is_main_relevant).
  rewrite (relevant_count is_follow_up df is_follow_up_relevant).
  rewrite (relevant_count (fun r => is_main r && answers "Yes" r) df).
  2:{ intros r H. apply andb_true_iff in H. apply is_main_relevant, H. }
  rewrite (relevant_count (fun r => is_follow_up r && answers name r) df).
  2:{ intros r H. apply andb_true_iff in H. apply is_follow_up_relevant, H. }
  reflexivity.
Qed.

Lemma disorder_counts_perm (df df' : DataFrame) (name : string) :
  Permutation (select relevant df) (select relevant df') ->
  disorder_counts df name = disorder_counts df' name.
Proof.
  intros P. rewrite !disorder_counts_relevant. unfold len, select in *.
  rewrite (Permutation_filter_length _ is_main _ _ P).
  rewrite (Permutation_filter_length _ (fun r => is_main r && answers "Yes" r) _ _ P).
  rewrite (Permutation_filter_length _ is_follow_up _ _ P).
  rewrite (Permutation_filter_length _ (fun r => is_follow_up r && answers name r) _ _ P).
  reflexivity.
Qed.

(** X3. The rate [calculate_disorder_prevalence] returns depends only on
    the rows of 2016 that ask one of the two questions, and not on their
    order: two surveys whose relevant rows are a permutation of each other
    get the same rate, whatever other rows they hold and whatever was
    logged before. *)
Theorem X3_rate_of_relevant_rows (df df' : DataFrame) (name : string) (w w' : World) :
  Permutation (select relevant df) (select relevant df') ->
  fst (calculate_disorder_prevalence df name w) =
  fst (calculate_disorder_prevalence df' name w').
Proof.
  intros P. rewrite !calculate_disorder_prevalence_value.
  unfold disorder_prevalence_value. rewrite (disorder_counts_perm df df' name P).
  reflexivity.
Qed.

Lemma X3_rate_of_relevant_rows_witness :
  fst (calculate_disorder_prevalence example_df "Anxiety" initial_world) =
  fst (calculate_disorder_prevalence
         (mkRow 2015 "Age" "30" :: rev example_df) "Anxiety" initial_world).
Proof.
  apply X3_rate_of_relevant_rows.
  change (select relevant (mkRow 2015 "Age" "30" :: rev example_df))
    with (rev (select relevant example_df)).
  apply Permutation_rev.
Defined.

Section RelevantRows.

Context {RS : RandomState}.

Lemma groups_relevant (df : DataFrame) :
  select is_main (select in_2016 df) = select is_main (select relevant df) /\
  select is_follow_up (select in_2016 df) = select is_follow_up (select relevant df).
Proof.
  split; apply relevant_count; [apply is_main_relevant|apply is_follow_up_relevant].
Qed.

Lemma bootstrap_value_relevant (df df' : DataFrame) (name : string) (n : Z)
  (ss : option Z) (seed : Z) :
  select relevant df = select relevant df' ->
  bootstrap_value df name n ss seed = bootstrap_value df' name n ss seed.
Proof.
  intros E. unfold bootstrap_value, disorder_prevalence_value.
  rewrite (disorder_counts_perm df df' name) by (rewrite E; reflexivity).
  cbv zeta. destruct (groups_relevant df) as [-> ->].
  destruct (groups_relevant df') as [-> ->]. rewrite E. reflexivity.
Qed.

(** X4. The bootstrap and the complete analysis depend only on the rows
    of 2016 that ask one of the two questions, in their order: surveys
    with the same list of relevant rows get the same original rate, the
    same bootstrap rates and the same analysis for the same seed. *)
Theorem X4_bootstrap_of_relevant_rows (df df' : DataFrame) (name : string) (n : Z)
  (ss : option Z) (seed : Z) (cl : float) (w w' : World) :
  select relevant df = select relevant df' ->
  fst (bootstrap_prevalence_rate df name n ss seed w) =
    fst (bootstrap_prevalence_rate df' name n ss seed w') /\
  fst (analyze_disorder_prevalence df name n cl seed w) =
    fst (analyze_disorder_prevalence df' name n cl seed w').
Proof.
  intros E. rewrite !bootstrap_prevalence_rate_value, !analyze_disorder_prevalence_value.
  unfold analysis_value.
  rewrite (bootstrap_value_relevant df df' name n ss seed E).
  rewrite (bootstrap_value_relevant df df' name n None seed E).
  split; reflexivity.
Qed.

(** ** The counts of a resampled dataset *)

Lemma take_Forall (P : Row -> Prop) (df : DataFrame) (idx : list nat) :
  Forall P df -> Forall P (take df idx).
Proof.
  intros H. unfold take. induction idx as [|i idx IH]; cbn [flat_map]; [constructor|].
  apply Forall_app. split; [|exact IH].
  destruct (nth_error df i) as [r|] eqn:E; [|constructor].
  constructor; [|constructor]. rewrite Forall_forall in H. apply H.
  eapply nth_error_In. exact E.
Qed.

Lemma DataFrame_sample_Forall (P : Row -> Prop) (df sample : DataFrame) (n : Z)
  (g g' : rng) :
  Forall P df -> DataFrame_sample df n g = Ok (sample, g') -> Forall P sample.
Proof.
  intros H. unfold DataFrame_sample.
  destruct (n <? 0); [discriminate|].
  destruct ((len df =? 0) && (0 <? n)); [discriminate|].
  destruct (rng_choice g (List.length df) (Z.to_nat n)) as [idx g1].
  intros E. inversion E; subst. apply take_Forall. exact H.
Qed.

Lemma select_Forall (p : Row -> bool) (df : DataFrame) :
  Forall (fun r => p r = true) (select p df).
Proof. apply Forall_forall. intros r H. apply filter_In in H. apply H. Qed.

Lemma select_all (p : Row -> bool) (df : DataFrame) :
  Forall (fun r => p r = true) df -> select p df = df.
Proof.
  unfold select. induction 1 as [|r df Hr _ IH]; [reflexivity|]. cbn [filter].
  rewrite Hr, IH. reflexivity.
Qed.

Lemma select_none (p : Row -> bool) (df : DataFrame) :
  Forall (fun r => p r = false) df -> select p df = [].
Proof.
  unfold select. induction 1 as [|r df Hr _ IH]; [reflexivity|]. cbn [filter].
  rewrite Hr, IH. reflexivity.
Qed.

Lemma select_app (p : Row -> bool) (a b : DataFrame) :
  select p (a ++ b) = select p a ++ select p b.
Proof. apply filter_app. Qed.

Lemma main_not_follow_up (r : Row) : is_main r = true -> is_follow_up r = false.
Proof.
  unfold is_main, is_follow_up. intros H. apply String.eqb_eq in H. rewrite H.
  reflexivity.
Qed.

Lemma follow_up_not_main (r : Row) : is_follow_up r = true -> is_main r = false.
Proof.
  unfold is_main, is_follow_up. intros H. apply String.eqb_eq in H. rewrite H.
  reflexivity.
Qed.

(** The counts of a dataset made of answers to the main question followed
    by follow-up answers, all of 2016. *)
Lemma disorder_counts_of_groups (bm bf : DataFrame) (name : string) :
  Forall (fun r => in_2016 r = true /\ is_main r = true) bm ->
  Forall (fun r => in_2016 r = true /\ is_follow_up r = true) bf ->
  disorder_counts (bm ++ bf) name =
  (len bm, len (select (answers "Yes") bm), len bf, len (select (answers name) bf)).
Proof.
  intros Hm Hf. unfold disorder_counts. cbv zeta.
  assert (select in_2016 (bm ++ bf) = bm ++ bf) as ->.
  { apply select_all. apply Forall_app. split; eapply Forall_impl; try eassumption;
      intros r [H _]; exact H. }
  assert (Forall (fun r => is_main r = true) bm) as Mm
    by (eapply Forall_impl; [|exact Hm]; intros r [_ H]; exact H).
  assert (Forall (fun r => is_follow_up r = true) bf) as Ff
    by (eapply Forall_impl; [|exact Hf]; intros r [_ H]; exact H).
  assert (Forall (fun r => is_main r = false) bf) as Mf
    by (eapply Forall_impl; [|exact Ff]; intros r H; apply follow_up_not_main, H).
  assert (Forall (fun r => is_follow_up r = false) bm) as Fm
    by (eapply Forall_impl; [|exact Mm]; intros r H; apply main_not_follow_up, H).
  rewrite !select_app.
  rewrite (select_all is_main bm Mm), (select_none is_main bf Mf).
  rewrite (select_none is_follow_up bm Fm), (select_all is_follow_up bf Ff).
  rewrite (select_none (fun r => is_main r && answers "Yes" r) bf).
  2:{ eapply Forall_impl; [|exact Mf]. intros r H. cbv beta in *. rewrite H. reflexivity. }
  rewrite (select_none (fun r => is_follow_up r && answers name r) bm).
  2:{ eapply Forall_impl; [|exact Fm]. intros r H. cbv beta in *. rewrite H. reflexivity. }
  rewrite !app_nil_r. cbn [app].
  assert (select (fun r => is_main r && answers "Yes" r) bm = select (answers "Yes") bm)
    as ->.
  { unfold select. clear -Mm. induction Mm as [|r l Hr _ IH]; [reflexivity|].
    cbn [filter]. rewrite Hr, IH. reflexivity. }
  assert (select (fun r => is_follow_up r && answers name r) bf = select (answers name) bf)
    as ->.
  { unfold select. clear -Ff. induction Ff as [|r l Hr _ IH]; [reflexivity|].
    cbn [filter]. rewrite Hr, IH. reflexivity. }
  reflexivity.
Qed.

Lemma group_rows (p : Row -> bool) (df : DataFrame) :
  Forall (fun r => in_2016 r = true /\ p r = true) (select p (select in_2016 df)).
Proof.
  apply Forall_forall. intros r H. unfold select in H.
  apply filter_In in H. destruct H as [H Hp]. apply filter_In in H. destruct H as [_ H].
  split; assumption.
Qed.

(** X5. In every iteration of the bootstrap the resampled dataset holds
    only rows of 2016: its population is the size of the sample of the main
    question, its total of condition reports the size of the follow-up
    sample, and the two numerators are counted within the respective
    sample; so the rate of the iteration is the prevalence of these four
    numbers. *)
Theorem X5_counts_of_an_iteration (df : DataFrame) (name : string)
  (ss : option Z) (g g' : rng) (bm bf : DataFrame) :
  draw_samples (select is_main (select in_2016 df))
               (select is_follow_up (select in_2016 df)) ss g = Ok (bm, bf, g') ->
  disorder_counts (bm ++ bf) name =
    (len bm, len (select (answers "Yes") bm), len bf, len (select (answers name) bf)) /\
  rate_of name (bm ++ bf) =
    match prevalence_value (len bm) (len (select (answers "Yes") bm))
                           (len bf) (len (select (answers name) bf)) with
    | Ok r => r
    | Raise _ => S754_nan
    end.
Proof.
  intros E. unfold draw_samples in E.
  destruct (DataFrame_sample _ _ g) as [[bm' g1]|e] eqn:E1; [|discriminate].
  cbn [result_bind] in E.
  destruct (DataFrame_sample _ _ g1) as [[bf' g2]|e] eqn:E2; [|discriminate].
  cbn [result_bind] in E. inversion E; subst bm' bf' g2.
  assert (disorder_counts (bm ++ bf) name =
          (len bm, len (select (answers "Yes") bm), len bf,
           len (select (answers name) bf))) as C.
  { apply disorder_counts_of_groups.
    - apply (DataFrame_sample_Forall _ _ _ _ _ _ (group_rows is_main df) E1).
    - apply (DataFrame_sample_Forall _ _ _ _ _ _ (group_rows is_follow_up df) E2). }
  split; [exact C|]. unfold rate_of, disorder_prevalence_value. rewrite C. reflexivity.
Qed.

End RelevantRows.

Lemma X4_bootstrap_of_relevant_rows_witness :
  fst (bootstrap_prevalence_rate (RS := LCG) example_df "Anxiety" 3 None 42 initial_world)
  = fst (bootstrap_prevalence_rate (RS := LCG)
           (mkRow 2015 "Age" "30" :: example_df ++ other_year_df) "Anxiety" 3 None 42
           initial_world).
Proof.
  apply (X4_bootstrap_of_relevant_rows (RS := LCG) example_df
           (mkRow 2015 "Age" "30" :: example_df ++ other_year_df) "Anxiety" 3 None 42
           float_0_95 initial_world initial_world).
  reflexivity.
Defined.

Lemma X5_counts_of_an_iteration_witness :
  exists bm bf,
    disorder_counts (bm ++ bf) "Anxiety" =
    (len bm, len (select (answers "Yes") bm), len bf, len (select (answers "Anxiety") bf))
    /\ len bm = 3 /\ len bf = 2.
Proof.
  assert (exists bm bf g',
            draw_samples (RS := LCG) (select is_main (select in_2016 example_df))
              (select is_follow_up (select in_2016 example_df)) None 42 = Ok (bm, bf, g')
            /\ len bm = 3 /\ len bf = 2) as (bm & bf & g' & E & L1 & L2).
  { eexists. eexists. eexists. split; [vm_compute; reflexivity|]. split; reflexivity. }
  exists bm, bf. split; [|split; assumption].
  apply (X5_counts_of_an_iteration (RS := LCG) example_df "Anxiety" None 42 g' bm bf E).
Defined.

(** * Further properties: the complete analysis *)

Lemma analysis_value_bad_seed {RS : RandomState} (df : DataFrame) (name : string)
  (n : Z) (cl : float) (seed : Z) :
  seed < 0 \/ 2 ^ 32 <= seed ->
  analysis_value df name n cl seed = Raise ValueError.
Proof.
  intros H. unfold analysis_value, bootstrap_value.
  destruct (disorder_prevalence_value_rate df name) as (r & E & _). rewrite E.
  cbn [result_bind]. unfold np_random_RandomState.
  replace ((0 <=? seed) && (seed <? 2 ^ 32)) with false; [reflexivity|].
  symmetry. apply andb_false_iff. rewrite Z.leb_gt, Z.ltb_ge. lia.
Qed.

(** X6. [analyze_disorder_prevalence] does not put back the logging state
    it found: after a result [logging.disable] is at [NOTSET], whatever it
    was before; after an exception it is left at [INFO], so that later
    [INFO] records are not shown. A seed outside [0, 2^32) is one way to
    the exception. *)
Theorem X6_logging_after_analysis {RS : RandomState} (df : DataFrame) (name : string)
  (n : Z) (cl : float) (seed : Z) (w : World) :
  let run := analyze_disorder_prevalence df name n cl seed w in
  (forall res, fst run = Ok res -> disabled (snd run) = NOTSET) /\
  (forall e, fst run = Raise e ->
     disabled (snd run) = INFO /\ is_enabled_for (snd run) INFO = false) /\
  (seed < 0 \/ 2 ^ 32 <= seed -> fst run = Raise ValueError).
Proof.
  intros run. subst run.
  destruct (analyze_disorder_prevalence_world df name n cl seed w) as (inner & _ & _ & H).
  split; [|split].
  - intros res E. rewrite E in H. rewrite H. reflexivity.
  - intros e E. rewrite E in H. rewrite H. split; reflexivity.
  - intros Hs. rewrite analyze_disorder_prevalence_value.
    apply analysis_value_bad_seed. exact Hs.
Qed.

Lemma X6_logging_after_analysis_witness :
  fst (analyze_disorder_prevalence (RS := LCG) example_df "Anxiety" 3 float_0_95 (-1)
         initial_world) = Raise ValueError /\
  disabled (snd (analyze_disorder_prevalence (RS := LCG) example_df "Anxiety" 3
                   float_0_95 (-1) initial_world)) = INFO.
Proof.
  destruct (X6_logging_after_analysis (RS := LCG) example_df "Anxiety" 3 float_0_95 (-1)
              initial_world) as (_ & R & S).
  cbv zeta in R, S. pose proof (S ltac:(left; lia)) as E.
  split; [exact E|]. apply (R ValueError E).
Defined.

(** X7. After a result, the records of [analyze_disorder_prevalence] are
    those of the bootstrap followed by the three records of the summary.
    The records of the bootstrap are hidden unless their level is above
    [INFO], and none of them is a warning; the three of the summary are
    shown, and the second one says 95% whatever the confidence level
    is. *)
Theorem X7_summary_records {RS : RandomState} (df : DataFrame) (name : string)
  (n : Z) (cl : float) (seed : Z) (w : World) (res : BootstrapResult) :
  fst (analyze_disorder_prevalence df name n cl seed w) = Ok res ->
  exists inner,
    new_records w (snd (analyze_disorder_prevalence df name n cl seed w))
      = inner ++ summary_records res /\
    Forall (fun r => lr_shown r = (INFO <? lr_level r)) inner /\
    existsb warns inner = false.
Proof.
  intros E.
  destruct (analyze_disorder_prevalence_world df name n cl seed w) as (inner & Sh & Wn & H).
  rewrite E in H. exists inner. rewrite H, new_records_app.
  split; [reflexivity|]. split; assumption.
Qed.

Lemma X7_summary_records_witness :
  exists res inner,
    fst (analyze_disorder_prevalence (RS := LCG) example_df "Anxiety" 3 float_0_8 42
           initial_world) = Ok res /\
    new_records initial_world
      (snd (analyze_disorder_prevalence (RS := LCG) example_df "Anxiety" 3 float_0_8 42
              initial_world))
      = inner ++ summary_records res /\
    Forall (fun r => lr_shown r = false) inner.
Proof.
  assert (exists res,
            fst (analyze_disorder_prevalence (RS := LCG) example_df "Anxiety" 3 float_0_8
                   42 initial_world) = Ok res) as [res E]
    by (eexists; vm_compute; reflexivity).
  destruct (X7_summary_records (RS := LCG) example_df "Anxiety" 3 float_0_8 42
              initial_world res E) as (inner & N & Sh & _).
  exists res, inner. split; [exact E|]. split; [exact N|].
  assert (inner ++ summary_records res =
          new_records initial_world
            (snd (analyze_disorder_prevalence (RS := LCG) example_df "Anxiety" 3
                    float_0_8 42 initial_world))) as N' by (symmetry; exact N).
  assert (Forall (fun r => lr_level r = INFO)
            (new_records initial_world
               (snd (analyze_disorder_prevalence (RS := LCG) example_df "Anxiety" 3
                       float_0_8 42 initial_world)))) as L
    by (vm_compute; repeat constructor).
  rewrite <- N' in L. apply Forall_app in L. destruct L as [L _].
  clear -Sh L. induction Sh as [|r l Hr _ IH]; [constructor|].
  inversion L; subst. constructor; [|apply IH; assumption].
  rewrite Hr. replace (lr_level r) with INFO by (symmetry; assumption). reflexivity.
Defined.

(** ** The interval lies within the rates *)

Lemma nth_In_default (s : list float) (i : nat) :
  (i < List.length s)%nat -> In (nth i s S754_nan) s.
Proof. intros H. apply nth_In. exact H. Qed.

(** Both bounds of the interval lie between any two finite floats that
    enclose the data. *)
Lemma calculate_confidence_interval_within (rates : list float) (cl lo hi : float) :
  rates <> [] -> Forall finite_float rates ->
  wf cl -> float_lt float_zero cl = true -> float_lt cl float_one = true ->
  finite_float lo -> finite_float hi ->
  Forall (fun r => F2Z lo <= F2Z r <= F2Z hi) rates ->
  exists lower upper,
    calculate_confidence_interval rates cl = Ok (lower, upper) /\
    wf lower /\ wf upper /\
    F2Z lo <= F2Z lower /\ F2Z lower <= F2Z upper /\ F2Z upper <= F2Z hi.
Proof.
  intros Hne Hfin W L0 L1 Flo Fhi Hb.
  destruct (calculate_confidence_interval_finite rates cl Hne Hfin W L0 L1)
    as (lower & upper & E & El & Eu & Vl & Vu & Le).
  destruct (confidence_ranks cl W L0 L1) as (_ & Wl & Wh & Bl & Bh).
  cbv zeta in *.
  set (q_lo := float_mul (float_div (float_sub float_one cl) float_two) float_100) in *.
  set (q_hi := float_mul (float_sub float_one
                            (float_div (float_sub float_one cl) float_two)) float_100) in *.
  destruct (np_percentile_finite rates q_lo Hne Hfin Wl ltac:(lia)) as (El' & _ & [Wlo _]).
  destruct (np_percentile_finite rates q_hi Hne Hfin Wh ltac:(lia)) as (Eu' & _ & [Wup _]).
  rewrite El in El'. rewrite Eu in Eu'. inversion El' as [Hl]. inversion Eu' as [Hu].
  rewrite <- Hl in Wlo. rewrite <- Hu in Wup.
  exists lower, upper. split; [exact E|]. split; [exact Wlo|]. split; [exact Wup|].
  set (s := np_sort rates) in *. set (n := Z.of_nat (List.length rates)) in *.
  assert (sorted_values s) as Sorted.
  { apply np_sort_sorted_values. eapply Forall_impl; [|exact Hfin]. intros x [Wx _]. exact Wx. }
  assert (List.length s = List.length rates) as Len by apply np_sort_length.
  assert (s <> []) as Sne.
  { intros Es. rewrite Es in Len. destruct rates; [apply Hne; reflexivity|discriminate Len]. }
  assert (1 <= n) as Hn.
  { subst n. destruct rates; [exfalso; apply Hne; reflexivity|]. cbn [List.length]. lia. }
  assert (Forall (fun r => F2Z lo <= F2Z r <= F2Z hi) s) as Hs by (apply np_sort_Forall, Hb).
  rewrite Forall_forall in Hs.
  pose proof (Hs _ (nth_In_default s 0 ltac:(lia))) as B0.
  pose proof (Hs _ (nth_In_default s (List.length s - 1) ltac:(lia))) as B1.
  pose proof rank_den_pos as RD.
  assert (forall T, 0 <= T -> T <= rank_den * (n - 1) ->
            F2Z lo <= rnd (interpolate s T) rank_den <= F2Z hi) as Within.
  { intros T T0 T1.
    pose proof (interpolate_bounds s T Sorted Sne T0 ltac:(rewrite Len; exact T1)) as IB.
    split.
    - rewrite <- (rnd_const lo (F2Z lo * rank_den) rank_den Flo RD eq_refl).
      apply rnd_mono; nia.
    - rewrite <- (rnd_const hi (F2Z hi * rank_den) rank_den Fhi RD eq_refl).
      apply rnd_mono; nia. }
  assert (rank_den = 100 * 2 ^ 1074) as RDv by reflexivity.
  split; [|split].
  - rewrite Vl. apply Within; nia.
  - unfold float_le in Le. rewrite SFleb_F2Z in Le by assumption. apply Z.leb_le, Le.
  - rewrite Vu. apply Within; nia.
Qed.

Lemma float_le_value (x y : float) :
  wf x -> wf y -> (float_le x y = true <-> F2Z x <= F2Z y).
Proof.
  intros Wx Wy. unfold float_le. rewrite SFleb_F2Z by assumption. apply Z.leb_le.
Qed.



(** The numbers of a result of the analysis, by their values. *)
Lemma analysis_result_rates {RS : RandomState} (df : DataFrame)
  (name : string) (n : Z) (cl : float) (seed : Z) (w : World) (res : BootstrapResult) :
  0 < n -> wf cl -> float_lt float_zero cl = true -> float_lt cl float_one = true ->
  fst (analyze_disorder_prevalence df name n cl seed w) = Ok res ->
  is_rate (original_rate res) /\ Forall is_rate (bootstrap_rates res) /\
  wf (fst (confidence_interval res)) /\ wf (snd (confidence_interval res)) /\
  0 <= F2Z (fst (confidence_interval res)) /\
  F2Z (fst (confidence_interval res)) <= F2Z (snd (confidence_interval res)) /\
  F2Z (snd (confidence_interval res)) <= 2 ^ 1074.
Proof.
  intros Hn W L0 L1 E. rewrite analyze_disorder_prevalence_value in E.
  unfold analysis_value in E.
  destruct (bootstrap_value df name n None seed) as [[orig rates]|e] eqn:B; [|discriminate].
  cbn [result_bind] in E.
  destruct (bootstrap_value_rates df name n None seed orig rates B) as (Len & Hr & Ho & _).
  assert (rates <> []) as Hne by (intros ->; cbn in Len; lia).
  assert (Forall finite_float rates) as Hf
    by (eapply Forall_impl; [|exact Hr]; intros r; apply is_rate_finite).
  assert (Forall (fun r => F2Z float_zero <= F2Z r <= F2Z float_one) rates) as Hb.
  { eapply Forall_impl; [|exact Hr]. intros r (Wr & _ & U).
    apply in_unit_interval_F2Z in U; [|exact Wr]. rewrite F2Z_one.
    change (F2Z float_zero) with 0. exact U. }
  destruct (calculate_confidence_interval_within rates cl float_zero float_one Hne Hf
              W L0 L1 ltac:(split; [apply wf_zero|reflexivity])
              ltac:(split; [apply wf_one|reflexivity]) Hb)
    as (lower & upper & Eci & Wl & Wu & A & Bm & C).
  rewrite Eci in E. cbn [result_bind] in E. inversion E; subst res.
  cbn [original_rate bootstrap_rates confidence_interval fst snd].
  rewrite F2Z_one in C. change (F2Z float_zero) with 0 in A.
  repeat (split; [assumption|]). exact C.
Qed.

(** X9. Every number in the result of [analyze_disorder_prevalence] is a
    rate: the original rate, each bootstrap rate and both bounds of the
    confidence interval lie in [0, 1], and the lower bound is at most the
    upper one. *)
Theorem X9_analysis_in_unit_interval {RS : RandomState} (df : DataFrame)
  (name : string) (n : Z) (cl : float) (seed : Z) (w : World) (res : BootstrapResult) :
  0 < n -> wf cl -> float_lt float_zero cl = true -> float_lt cl float_one = true ->
  fst (analyze_disorder_prevalence df name n cl seed w) = Ok res ->
  in_unit_interval (original_rate res) = true /\
  Forall (fun r => in_unit_interval r = true) (bootstrap_rates res) /\
  in_unit_interval (fst (confidence_interval res)) = true /\
  in_unit_interval (snd (confidence_interval res)) = true /\
  float_le (fst (confidence_interval res)) (snd (confidence_interval res)) = true.
Proof.
  intros Hn W L0 L1 E.
  destruct (analysis_result_rates df name n cl seed w res Hn W L0 L1 E)
    as (Ho & Hr & Wl & Wu & A & B & C).
  split; [apply Ho|]. split.
  { eapply Forall_impl; [|exact Hr]. intros r (_ & _ & U). exact U. }
  split; [apply in_unit_interval_F2Z; [exact Wl|lia]|].
  split; [apply in_unit_interval_F2Z; [exact Wu|lia]|].
  apply float_le_value; assumption.
Qed.

Lemma X9_analysis_in_unit_interval_witness :
  exists res,
    fst (analyze_disorder_prevalence (RS := LCG) example_df "Anxiety" 3 float_0_8 42
           initial_world) = Ok res /\
    in_unit_interval (fst (confidence_interval res)) = true /\
    in_unit_interval (snd (confidence_interval res)) = true.
Proof.
  assert (exists res,
            fst (analyze_disorder_prevalence (RS := LCG) example_df "Anxiety" 3 float_0_8
                   42 initial_world) = Ok res) as [res E]
    by (eexists; vm_compute; reflexivity).
  exists res. split; [exact E|].
  destruct (X9_analysis_in_unit_interval (RS := LCG) example_df "Anxiety" 3 float_0_8 42
              initial_world res ltac:(lia) ltac:(split; reflexivity) eq_refl eq_refl E)
    as (_ & _ & A & B & _).
  split; assumption.
Defined.

(** * Further properties: sizes and failures of the bootstrap *)

(** X22. With a generator that keeps its promises, the denominators of a
    bootstrap iteration do not vary: the population of the resampled
    dataset is the sample size of the main question and its total of
    condition reports the sample size of the follow-up question
    ([sample_size], or the size of the group when it is left out or [0]);
    only the two numerators depend on the draw. *)
Theorem X22_fixed_denominators {RS : RandomState} (df : DataFrame) (name : string)
  (ss : option Z) (g g' : rng) (bm bf : DataFrame) :
  rng_lawful RS ->
  let main_question_df := select is_main (select in_2016 df) in
  let follow_up_df := select is_follow_up (select in_2016 df) in
  draw_samples main_question_df follow_up_df ss g = Ok (bm, bf, g') ->
  disorder_counts (bm ++ bf) name =
    (sample_n ss main_question_df, len (select (answers "Yes") bm),
     sample_n ss follow_up_df, len (select (answers name) bf)).
Proof.
  intros Law main follow E.
  destruct (draw_samples_sizes main follow bm bf ss g g' Law E) as [L1 L2].
  rewrite <- L1, <- L2. apply disorder_counts_of_groups.
  - unfold draw_samples in E.
    destruct (DataFrame_sample main _ g) as [[bm' g1]|e] eqn:E1; [|discriminate].
    cbn [result_bind] in E.
    destruct (DataFrame_sample follow _ g1) as [[bf' g2]|e] eqn:E2; [|discriminate].
    cbn [result_bind] in E. inversion E; subst.
    apply (DataFrame_sample_Forall _ _ _ _ _ _ (group_rows is_main df) E1).
  - unfold draw_samples in E.
    destruct (DataFrame_sample main _ g) as [[bm' g1]|e] eqn:E1; [|discriminate].
    cbn [result_bind] in E.
    destruct (DataFrame_sample follow _ g1) as [[bf' g2]|e] eqn:E2; [|discriminate].
    cbn [result_bind] in E. inversion E; subst.
    apply (DataFrame_sample_Forall _ _ _ _ _ _ (group_rows is_follow_up df) E2).
Qed.

Lemma X22_fixed_denominators_witness :
  exists bm bf,
    disorder_counts (bm ++ bf) "Anxiety" =
    (3, len (select (answers "Yes") bm), 2, len (select (answers "Anxiety") bf)).
Proof.
  assert (exists bm bf g',
            draw_samples (RS := LCG) (select is_main (select in_2016 example_df))
              (select is_follow_up (select in_2016 example_df)) None 42 = Ok (bm, bf, g'))
    as (bm & bf & g' & E)
    by (eexists; eexists; eexists; vm_compute; reflexivity).
  exists bm, bf.
  apply (X22_fixed_denominators (RS := LCG) example_df "Anxiety" None 42 g' bm bf
           lcg_lawful E).
Defined.

Section BootstrapFailures.

Context {RS : RandomState}.

Lemma DataFrame_sample_raises (df : DataFrame) (n : Z) (g : rng) (e : exn) :
  DataFrame_sample df n g = Raise e -> e = ValueError.
Proof.
  unfold DataFrame_sample. destruct (n <? 0); [intros H; inversion H; reflexivity|].
  destruct ((len df =? 0) && (0 <? n)); [intros H; inversion H; reflexivity|].
  destruct (rng_choice g (List.length df) (Z.to_nat n)). discriminate.
Qed.

Lemma draw_samples_raises (main follow : DataFrame) (ss : option Z) (g : rng) (e : exn) :
  draw_samples main follow ss g = Raise e -> e = ValueError.
Proof.
  unfold draw_samples.
  destruct (DataFrame_sample main _ g) as [[bm g1]|e1] eqn:E1; cbn [result_bind].
  - destruct (DataFrame_sample follow _ g1) as [[bf g2]|e2] eqn:E2; cbn [result_bind].
    + discriminate.
    + intros H. inversion H; subst. eapply DataFrame_sample_raises. exact E2.
  - intros H. inversion H; subst. eapply DataFrame_sample_raises. exact E1.
Qed.

Lemma bootstrap_samples_raises (main follow : DataFrame) (ss : option Z) (e : exn) :
  forall (k : nat) (g : rng),
    bootstrap_samples_from k main follow ss g = Raise e -> e = ValueError.
Proof.
  induction k as [|k IH]; intros g; cbn [bootstrap_samples_from]; [discriminate|].
  destruct (draw_samples main follow ss g) as [[[bm bf] g']|e1] eqn:E1; cbn [result_bind].
  - destruct (bootstrap_samples_from k main follow ss g') as [rest|e2] eqn:E2;
      cbn [result_map]; [discriminate|].
    intros H. inversion H; subst. apply (IH g'). exact E2.
  - intros H. inversion H; subst. eapply draw_samples_raises. exact E1.
Qed.

(** X23. The only exception of [bootstrap_prevalence_rate] is
    [ValueError], and it needs a seed outside [0, 2^32) or a positive
    number of iterations together with a [sample_size] that is given and
    not [0]: the prevalence computed inside never raises. *)
Theorem X23_bootstrap_exceptions (df : DataFrame) (name : string) (n : Z)
  (ss : option Z) (seed : Z) (w : World) (e : exn) :
  fst (bootstrap_prevalence_rate df name n ss seed w) = Raise e ->
  e = ValueError /\
  (seed < 0 \/ 2 ^ 32 <= seed \/ (0 < n /\ exists z, ss = Some z /\ z <> 0)).
Proof.
  rewrite bootstrap_prevalence_rate_value. unfold bootstrap_value.
  destruct (disorder_prevalence_value_rate df name) as (r & E & _). rewrite E.
  cbn [result_bind]. unfold np_random_RandomState.
  destruct (Z.leb_spec 0 seed) as [S0|S0]; cbn [andb].
  2:{ cbn [result_bind]. intros H. inversion H. split; [reflexivity|left; exact S0]. }
  destruct (Z.ltb_spec seed (2 ^ 32)) as [S1|S1]; cbn [result_bind].
  2:{ intros H. inversion H. split; [reflexivity|right; left; exact S1]. }
  destruct (bootstrap_samples_from _ _ _ _ _) as [samples|e'] eqn:B; cbn [result_map];
    [discriminate|].
  intros H. inversion H; subst e'. split.
  - eapply bootstrap_samples_raises. exact B.
  - right. right. split.
    + destruct (Z.ltb_spec 0 n) as [Hn|Hn]; [exact Hn|exfalso].
      replace (Z.to_nat n) with 0%nat in B by lia. discriminate B.
    + destruct ss as [z|].
      * exists z. split; [reflexivity|]. intros ->.
        destruct (bootstrap_samples_default (select is_main (select in_2016 df))
                    (select is_follow_up (select in_2016 df)) (Some 0)
                    (or_intror eq_refl) (Z.to_nat n) (rng_seed seed)) as (samples & S).
        rewrite S in B. discriminate B.
      * exfalso.
        destruct (bootstrap_samples_default (select is_main (select in_2016 df))
                    (select is_follow_up (select in_2016 df)) None
                    (or_introl eq_refl) (Z.to_nat n) (rng_seed seed)) as (samples & S).
        rewrite S in B. discriminate B.
Qed.

End BootstrapFailures.

Lemma X23_bootstrap_exceptions_witness :
  fst (bootstrap_prevalence_rate (RS := LCG) other_year_df "Anxiety" 2 (Some 5) 42
         initial_world) = Raise ValueError.
Proof.
  destruct (fst (bootstrap_prevalence_rate (RS := LCG) other_year_df "Anxiety" 2 (Some 5)
                   42 initial_world)) as [v|e] eqn:E; [vm_compute in E; discriminate E|].
  destruct (X23_bootstrap_exceptions (RS := LCG) other_year_df "Anxiety" 2 (Some 5) 42
              initial_world e E) as [-> _].
  reflexivity.
Defined.

(** ** A confidence level above 1 *)

(** The floats above [1.0] start at [1 + 2^-52]. *)
Lemma above_one (cl : float) :
  wf cl -> is_finite cl = true -> 2 ^ 1074 < F2Z cl ->
  2 ^ 1074 + 2 ^ 1022 <= F2Z cl < top /\
  exists neg, finite_float neg /\ F2Z neg = - F2Z cl.
Proof.
  intros [V N] F H. destruct cl as [s|s| |s m e]; try discriminate F.
  - cbn [F2Z] in H. pose proof (pow2_pos 1074 ltac:(lia)). lia.
  - cbn [valid_binary] in V. destruct (bounded_inv m e V) as (He & Hm & _).
    pose proof (finite_value_pos m e V) as [Pv Tv].
    destruct s; cbn [F2Z cond_Zopp] in *.
    { pose proof (pow2_pos 1074 ltac:(lia)). lia. }
    split; [split; [|exact Tv]|].
    + destruct (Z.le_gt_cases 1022 (e + 1074)) as [K|K].
      * replace (e + 1074) with ((e + 1074 - 1022) + 1022) in * by lia.
        rewrite pow2_add in * by lia.
        pose proof (pow2_pos (e + 1074 - 1022) ltac:(lia)) as P1.
        pose proof (pow2_pos 1022 ltac:(lia)) as P2.
        assert (2 ^ 1074 = 2 ^ 52 * 2 ^ 1022) as E74
          by (rewrite <- pow2_add by lia; reflexivity).
        rewrite E74 in *.
        set (t := Z.pos m * 2 ^ (e + 1074 - 1022)) in *.
        replace (Z.pos m * (2 ^ (e + 1074 - 1022) * 2 ^ 1022)) with (t * 2 ^ 1022) in *
          by (subst t; ring).
        assert (2 ^ 52 < t) by nia. nia.
      * exfalso.
        assert (2 ^ (e + 1074) <= 2 ^ 1021) as L by (apply pow2_le; lia).
        assert (2 ^ 1074 = 2 ^ 53 * 2 ^ 1021) as E74
          by (rewrite <- pow2_add by lia; reflexivity).
        pose proof (pow2_pos (e + 1074) ltac:(lia)). nia.
    + exists (S754_finite true m e). split; [|reflexivity].
      split; [split; [exact V|reflexivity]|reflexivity].
Qed.

Lemma rnd_neg_2_1022 : rnd (- 2 ^ 1022) 1 = - 2 ^ 1022.
Proof.
  transitivity (F2Z (S754_finite true 4503599627370496 (-104)));
    [|vm_compute; reflexivity].
  apply rnd_const; [split; [split; reflexivity|reflexivity]|lia|vm_compute; reflexivity].
Qed.

Lemma rnd_neg_2_1021 : rnd (- 2 ^ 1021) 1 = - 2 ^ 1021.
Proof.
  transitivity (F2Z (S754_finite true 4503599627370496 (-105)));
    [|vm_compute; reflexivity].
  apply rnd_const; [split; [split; reflexivity|reflexivity]|lia|vm_compute; reflexivity].
Qed.

(** X24. [calculate_confidence_interval] does not check its confidence
    level: for a finite level above [1.0] the lower percentile is negative
    and the call ends in the [ValueError] of [np.percentile], whatever the
    rates are. *)
Theorem X24_confidence_level_above_one (rates : list float) (cl : float) :
  wf cl -> is_finite cl = true -> float_lt float_one cl = true ->
  calculate_confidence_interval rates cl = Raise ValueError.
Proof.
  intros W F L. unfold float_lt in L. rewrite SFltb_F2Z in L by (try apply wf_one; exact W).
  apply Z.ltb_lt in L. rewrite F2Z_one in L.
  destruct (above_one cl W F L) as ([Lo Hi] & neg & [Wn Fn] & En).
  pose proof top_pos as TP. pose proof (pow2_pos 1074 ltac:(lia)) as P.
  unfold calculate_confidence_interval.
  change (float_of_int 1) with float_one. change (float_of_int 2) with float_two.
  change (float_of_int 100) with float_100.
  set (x := float_sub float_one cl).
  destruct (float_sub_value float_one cl wf_one W eq_refl F) as [Vx Wx].
  fold x in Vx, Wx. rewrite F2Z_one in Vx.
  assert (- F2Z cl <= F2Z x <= - 2 ^ 1022) as Bx.
  { rewrite Vx. split.
    - apply Z.le_trans with (rnd (F2Z neg) 1);
        [rewrite (rnd_representable neg Wn Fn); lia|].
      rewrite En. apply rnd_mono; lia.
    - apply Z.le_trans with (rnd (- 2 ^ 1022) 1); [|rewrite rnd_neg_2_1022; lia].
      apply rnd_mono; lia. }
  assert (is_finite x = true) as Fx by (apply finite_iff_lt_top; [exact Wx|lia]).
  unfold float_truediv. change (is_zero float_two) with false. cbv iota.
  cbn [result_bind].
  set (lp := float_div x float_two).
  destruct finite_float_two as [W2 F2].
  destruct (float_div_value x float_two Wx W2 Fx F2) as [Vl Wl].
  { rewrite F2Z_two. lia. }
  fold lp in Vl, Wl. rewrite F2Z_two in Vl.
  rewrite Z.sgn_pos, Z.abs_eq, Z.mul_1_r in Vl by lia.
  assert (- F2Z cl <= F2Z lp <= - 2 ^ 1021) as Bl.
  { rewrite Vl. split.
    - apply Z.le_trans with (rnd (F2Z neg) 1);
        [rewrite (rnd_representable neg Wn Fn); lia|].
      rewrite En. apply rnd_mono; nia.
    - apply Z.le_trans with (rnd (- 2 ^ 1021) 1); [|rewrite rnd_neg_2_1021; lia].
      assert (2 ^ 1022 = 2 * 2 ^ 1021) as E22 by reflexivity.
      pose proof (pow2_pos 1021 ltac:(lia)).
      apply rnd_mono; nia. }
  assert (is_finite lp = true) as Fl by (apply finite_iff_lt_top; [exact Wl|lia]).
  set (q_lo := float_mul lp float_100).
  destruct finite_float_100 as [W100 F100].
  destruct (float_mul_value lp float_100 Wl W100 Fl F100) as [Vq Wq].
  fold q_lo in Vq, Wq. rewrite F2Z_100 in Vq.
  assert (F2Z q_lo < 0) as Neg.
  { assert (F2Z q_lo <= - 2 ^ 1021); [|pose proof (pow2_pos 1021 ltac:(lia)); lia].
    rewrite Vq.
    apply Z.le_trans with (rnd (- 2 ^ 1021) 1); [|rewrite rnd_neg_2_1021; lia].
    pose proof (pow2_pos 1021 ltac:(lia)).
    apply rnd_mono; nia. }
  unfold np_percentile.
  replace (float_le float_zero q_lo) with false; [reflexivity|].
  symmetry. unfold float_le. rewrite SFleb_F2Z by (try apply wf_zero; exact Wq).
  change (F2Z float_zero) with 0. apply Z.leb_gt. exact Neg.
Qed.

Lemma X24_confidence_level_above_one_witness :
  calculate_confidence_interval scenario_rates float_two = Raise ValueError.
Proof.
  apply X24_confidence_level_above_one; [split; reflexivity|reflexivity|reflexivity].
Defined.

(** * Further properties: the charts *)

Lemma list_index_some (A : Type) (l : list A) (i : nat) (a : A) :
  nth_error l i = Some a -> list_index l i = Returns a.
Proof. unfold list_index. intros ->. reflexivity. Qed.

Lemma list_index_none (A : Type) (l : list A) (i : nat) :
  nth_error l i = None -> list_index l i = Raises (Builtin IndexError).
Proof. unfold list_index. intros ->. reflexivity. Qed.

(** The loop draws the entries that have a colour and a label, and raises
    [IndexError] at the first one that has not. *)
Lemma plot_disorders_loop_run (disorder_names colors : list string) :
  forall (items : list (string * BootstrapResult)) (i : nat) (calls : list PlotCall),
    plot_disorders_loop i items disorder_names colors calls =
    ((if (List.length items =? 0)%nat
          || (i + List.length items
              <=? Nat.min (List.length colors) (List.length disorder_names))%nat
      then Returns tt else Raises (Builtin IndexError)),
     calls ++ artists_from i items disorder_names colors).
Proof.
  induction items as [|[key results] items IH]; intros i calls.
  - cbn [plot_disorders_loop artists_from List.length]. unfold plot_ret.
    rewrite app_nil_r. reflexivity.
  - cbn [plot_disorders_loop artists_from List.length Nat.eqb orb].
    destruct (nth_error colors i) as [color|] eqn:Ec.
    2:{ unfold plot_bind at 1, plot_lift at 1. rewrite (list_index_none _ _ _ Ec).
        rewrite app_nil_r. apply nth_error_None in Ec.
        replace (_ <=? _)%nat with false; [reflexivity|].
        symmetry. apply Nat.leb_gt. lia. }
    destruct (nth_error disorder_names i) as [label|] eqn:El.
    2:{ unfold plot_bind at 1, plot_lift at 1. rewrite (list_index_some _ _ _ _ Ec).
        unfold plot_bind at 1, plot_lift at 1. rewrite (list_index_none _ _ _ El).
        rewrite app_nil_r. apply nth_error_None in El.
        replace (_ <=? _)%nat with false; [reflexivity|].
        symmetry. apply Nat.leb_gt. lia. }
    rewrite (list_index_some _ _ _ _ Ec), (list_index_some _ _ _ _ El).
    destruct (confidence_interval results) as [ci_lower ci_upper] eqn:Eci.
    unfold plot_bind, plot_lift, call. cbn [fst snd].
    rewrite IH. unfold disorder_artists. rewrite Eci. cbn [fst snd].
    repeat rewrite <- app_assoc. cbn [app]. f_equal.
    assert (i < List.length colors)%nat by (apply nth_error_Some; congruence).
    assert (i < List.length disorder_names)%nat by (apply nth_error_Some; congruence).
    replace (i + S (List.length items)
             <=? Nat.min (List.length colors) (List.length disorder_names))%nat
      with ((List.length items =? 0)%nat
            || (S i + List.length items
                <=? Nat.min (List.length colors) (List.length disorder_names))%nat);
      [reflexivity|].
    destruct (Nat.eqb_spec (List.length items) 0) as [E0|N0]; cbn [orb].
    + symmetry. apply Nat.leb_le. lia.
    + destruct (Nat.leb_spec (S i + List.length items)
                  (Nat.min (List.length colors) (List.length disorder_names)));
        symmetry; [apply Nat.leb_le|apply Nat.leb_gt]; lia.
Qed.

Lemma artists_from_combine (disorder_names colors : list string) :
  forall (items : list (string * BootstrapResult)) (i : nat),
    artists_from i items disorder_names colors =
    flat_map (fun entry => disorder_artists (snd (fst entry)) (fst (snd entry))
                                            (snd (snd entry)))
             (combine items (combine (skipn i colors) (skipn i disorder_names))).
Proof.
  induction items as [|[key results] items IH]; intros i; [reflexivity|].
  cbn [artists_from].
  destruct (nth_error colors i) as [color|] eqn:Ec.
  2:{ apply nth_error_None in Ec. rewrite (skipn_all2 colors Ec). reflexivity. }
  destruct (nth_error disorder_names i) as [label|] eqn:El.
  2:{ apply nth_error_None in El. rewrite (skipn_all2 disorder_names El).
      destruct (skipn i colors); reflexivity. }
  assert (forall (l : list string) (a : string),
            nth_error l i = Some a -> skipn i l = a :: skipn (S i) l) as Sk.
  { clear. intros l. revert i. induction l as [|x l IHl]; intros [|i] a H;
      try discriminate H.
    - inversion H. reflexivity.
    - cbn [nth_error] in H. cbn [skipn]. rewrite (IHl i a H). reflexivity. }
  rewrite (Sk colors color Ec), (Sk disorder_names label El).
  cbn [combine flat_map fst snd]. rewrite IH. reflexivity.
Qed.


Lemma plot_multiple_disorders_distribution_run
  (results_dict : list (string * BootstrapResult)) (disorder_names : list string)
  (colors : option (list string)) (calls : list PlotCall) :
  let palette := match colors with Some c => c | None => default_colors end in
  let drawn := artists_from 0 results_dict disorder_names palette in
  plot_multiple_disorders_distribution results_dict disorder_names colors calls =
  if (List.length results_dict
      <=? Nat.min (List.length palette) (List.length disorder_names))%nat
  then (Returns tt, calls ++ [plt_subplots (12, 6)] ++ drawn ++ closing_calls)
  else (Raises (Builtin IndexError), calls ++ [plt_subplots (12, 6)] ++ drawn).
Proof.
  intros palette drawn. unfold plot_multiple_disorders_distribution. fold palette.
  unfold plot_bind at 1. unfold call at 1. unfold plot_bind at 1.
  rewrite plot_disorders_loop_run. cbn [Nat.add]. fold drawn.
  replace ((List.length results_dict =? 0)%nat
           || (List.length results_dict
               <=? Nat.min (List.length palette) (List.length disorder_names))%nat)
    with (List.length results_dict
          <=? Nat.min (List.length palette) (List.length disorder_names))%nat.
  2:{ destruct (Nat.eqb_spec (List.length results_dict) 0) as [E0|N0]; [|reflexivity].
      rewrite E0. reflexivity. }
  destruct (_ <=? _)%nat.
  - unfold plot_bind, call, closing_calls. cbn [fst snd].
    repeat rewrite <- app_assoc. reflexivity.
  - rewrite <- app_assoc. reflexivity.
Qed.



(** X19. [plot_multiple_disorders_distribution] matches entries, colours
    and names by position: entry [i] of the dictionary is drawn with
    [colors[i]] and labelled [disorder_names[i]], surplus colours and names
    are ignored, and the keys of the dictionary are never used, so that two
    dictionaries with the same values in the same order give the same
    chart. *)
Theorem X19_entries_by_position
  (results_dict results_dict' : list (string * BootstrapResult))
  (disorder_names : list string) (colors : option (list string))
  (calls : list PlotCall) :
  let palette := match colors with Some c => c | None => default_colors end in
  (exists rest,
     snd (plot_multiple_disorders_distribution results_dict disorder_names colors calls)
     = calls ++ [plt_subplots (12, 6)]
       ++ flat_map (fun entry => disorder_artists (snd (fst entry)) (fst (snd entry))
                                                  (snd (snd entry)))
                   (combine results_dict (combine palette disorder_names))
       ++ rest /\
     (rest = [] \/ rest = closing_calls)) /\
  (map snd results_dict = map snd results_dict' ->
   plot_multiple_disorders_distribution results_dict disorder_names colors calls =
   plot_multiple_disorders_distribution results_dict' disorder_names colors calls).
Proof.
  intros palette. split.
  - rewrite plot_multiple_disorders_distribution_run. cbv zeta. fold palette.
    rewrite artists_from_combine. cbn [skipn].
    destruct (_ <=? _)%nat; cbn [snd].
    + exists closing_calls. split; [reflexivity|right; reflexivity].
    + exists []. rewrite app_nil_r. split; [reflexivity|left; reflexivity].
  - intros E. rewrite !plot_multiple_disorders_distribution_run. cbv zeta. fold palette.
    assert (List.length results_dict = List.length results_dict') as L
      by (rewrite <- (length_map snd results_dict), E; apply length_map).
    assert (forall i, artists_from i results_dict disorder_names palette
                      = artists_from i results_dict' disorder_names palette) as A.
    { clear L. revert results_dict' E.
      induction results_dict as [|[k r] l IH]; intros [|[k' r'] l'] E i;
        try discriminate E; [reflexivity|].
      cbn [map snd] in E. inversion E; subst r'. cbn [artists_from].
      rewrite (IH l' ltac:(assumption) (S i)). reflexivity. }
    rewrite L, A. reflexivity.
Qed.

Lemma X19_entries_by_position_witness :
  plot_multiple_disorders_distribution [("Anxiety", example_result)]%string
    ["Mood"]%string None [] =
  plot_multiple_disorders_distribution [("Mood", example_result)]%string
    ["Mood"]%string None [].
Proof.
  apply (X19_entries_by_position [("Anxiety", example_result)]%string
           [("Mood", example_result)]%string ["Mood"]%string None []).
  reflexivity.
Defined.

Lemma disorder_artists_on_axis (res : BootstrapResult) (color label : string) :
  in_unit_interval (original_rate res) = true ->
  in_unit_interval (fst (confidence_interval res)) = true ->
  in_unit_interval (snd (confidence_interval res)) = true ->
  float_le (fst (confidence_interval res)) (snd (confidence_interval res)) = true ->
  Forall on_unit_axis (disorder_artists res color label).
Proof.
  intros A B C D. unfold disorder_artists.
  repeat (constructor; [cbn [on_unit_axis]; auto|]). constructor.
Qed.

(** X20. When every entry of the dictionary is a result that
    [analyze_disorder_prevalence] returned,
    [plot_multiple_disorders_distribution] draws on the axis of rates:
    every vertical line stands at a rate in [0, 1], and every shaded band
    runs from its lower bound to its upper bound, both in [0, 1] and in
    this order. *)
Theorem X20_bands_of_analysis (results_dict : list (string * BootstrapResult))
  (disorder_names : list string) (colors : option (list string)) :
  Forall (fun entry => analysed (snd entry)) results_dict ->
  Forall on_unit_axis
    (snd (plot_multiple_disorders_distribution results_dict disorder_names colors [])).
Proof.
  intros H. rewrite plot_multiple_disorders_distribution_run. cbv zeta.
  set (palette := match colors with Some c => c | None => default_colors end).
  assert (Forall on_unit_axis (artists_from 0 results_dict disorder_names palette)) as A.
  { rewrite artists_from_combine. apply Forall_forall. intros c Hc.
    apply in_flat_map in Hc. destruct Hc as (entry & He & Hc).
    destruct entry as [[key res] [color label]]. cbn [fst snd] in Hc.
    apply in_combine_l in He. rewrite Forall_forall in H. specialize (H _ He).
    cbn [snd] in H. destruct H as (RS & df & name & n & cl & seed & w & Hn & W & L0 & L1 & E).
    destruct (analysis_result_rates df name n cl seed w res Hn W L0 L1 E)
      as ((_ & _ & O) & _ & Wl & Wu & A & B & C).
    assert (in_unit_interval (fst (confidence_interval res)) = true) as Lo
      by (apply in_unit_interval_F2Z; [exact Wl|lia]).
    assert (in_unit_interval (snd (confidence_interval res)) = true) as Hi
      by (apply in_unit_interval_F2Z; [exact Wu|lia]).
    assert (float_le (fst (confidence_interval res)) (snd (confidence_interval res))
            = true) as Le by (apply float_le_value; assumption).
    pose proof (disorder_artists_on_axis res color label O Lo Hi Le) as F.
    rewrite Forall_forall in F. apply F, Hc. }
  destruct (_ <=? _)%nat; cbn [snd app].
  - constructor; [exact I|]. apply Forall_app. split; [exact A|].
    unfold closing_calls. repeat constructor.
  - constructor; [exact I|exact A].
Qed.

Lemma X20_bands_of_analysis_witness :
  exists res,
    fst (analyze_disorder_prevalence (RS := LCG) example_df "Anxiety" 3 float_0_8 42
           initial_world) = Ok res /\
    Forall on_unit_axis
      (snd (plot_multiple_disorders_distribution [("Anxiety", res)]%string
              ["Anxiety"]%string None [])).
Proof.
  assert (exists res,
            fst (analyze_disorder_prevalence (RS := LCG) example_df "Anxiety" 3 float_0_8
                   42 initial_world) = Ok res) as [res E]
    by (eexists; vm_compute; reflexivity).
  exists res. split; [exact E|]. apply X20_bands_of_analysis.
  constructor; [|constructor]. cbn [snd].
  exists LCG, example_df, "Anxiety"%string, 3, float_0_8, 42, initial_world.
  split; [lia|]. split; [split; reflexivity|]. split; [reflexivity|].
  split; [reflexivity|exact E].
Defined.

(** ** The bar charts *)

Lemma bar_labels_run (k : nat) :
  forall (i : nat) (calls : list PlotCall),
    bar_labels i k calls =
    (Returns tt, calls ++ map (fun j => ax_bar_label j "%.2f") (seq i k)).
Proof.
  induction k as [|k IH]; intros i calls; cbn [bar_labels seq map].
  - unfold plot_ret. rewrite app_nil_r. reflexivity.
  - unfold plot_bind, call. rewrite IH. rewrite <- app_assoc. reflexivity.
Qed.

Lemma bar_chart_finish_run (labels : nat) (title xlabel : string) (calls : list PlotCall) :
  bar_chart_finish labels title xlabel calls =
  (Returns tt,
   calls ++ map (fun j => ax_bar_label j "%.2f") (seq 0 labels)
         ++ [plt_ylim 0 1; plt_title title; plt_xlabel xlabel;
             plt_ylabel "Proportion of Responses";
             plt_legend "Survey Year" "upper right"; sns_despine; plt_show]).
Proof.
  unfold bar_chart_finish. unfold plot_bind at 1. rewrite bar_labels_run.
  unfold plot_bind, call. cbn [fst snd]. repeat rewrite <- app_assoc. reflexivity.
Qed.

(** The table of a question by survey year, whenever it is returned. *)
Lemma question_over_years_inv (df : DataFrame) (question : string)
  (data : list Proportions.row) :
  len df < 2 ^ 63 ->
  add_question_answers_proportions_by_group df (Question question) "SurveyID"
    = Returns data ->
  data = map (proportion_row df (Question question) (fun r => CInt (SurveyID r)))
             (answer_keys df (Question question) (fun r => CInt (SurveyID r))).
Proof.
  intros Hlen E.
  destruct (select (question_mask (Question question)) df) as [|r sel] eqn:S.
  - exfalso. unfold add_question_answers_proportions_by_group in E.
    change (column "SurveyID") with (Some (fun r : Row => CInt (SurveyID r))) in E.
    change (String.eqb "SurveyID" "AnswerText") with false in E. cbv zeta iota in E.
    rewrite S in E. cbn in E. discriminate E.
  - rewrite (add_question_answers_rows df (Question question) "SurveyID"
               (fun r => CInt (SurveyID r)) Hlen eq_refl) in E.
    + inversion E. reflexivity.
    + discriminate.
    + rewrite S. discriminate.
Qed.

Lemma plot_question_grouped_by_years_run (raw_df : DataFrame) (question title : string)
  (question_name : option string) (calls : list PlotCall) :
  plot_question_grouped_by_years raw_df question title question_name calls =
  match add_question_answers_proportions_by_group raw_df (Question question) "SurveyID" with
  | Raises e => (Raises e, calls)
  | Returns data =>
      bar_chart_finish (bar_containers data "AnswerText") title
        (match question_name with Some name => name | None => question end)
        (calls ++ [plt_figure (12, 6);
                   sns_barplot data "SurveyID" "Proportion" "AnswerText"
                               categorical_palette float_0_8])
  end.
Proof.
  unfold plot_question_grouped_by_years. unfold plot_bind at 1, plot_lift.
  destruct (add_question_answers_proportions_by_group _ _ _) as [data|e]; [|reflexivity].
  unfold bar_chart_finish, plot_bind at 1 2, call at 1 2.
  rewrite <- app_assoc. cbn [app].
  destruct question_name; reflexivity.
Qed.

Lemma plot_question_grouped_by_answers_run (raw_df : DataFrame) (question title : string)
  (question_name : option string) (calls : list PlotCall) :
  plot_question_grouped_by_answers raw_df question title question_name calls =
  match add_question_answers_proportions_by_group raw_df (Question question) "SurveyID" with
  | Raises e => (Raises e, calls)
  | Returns data =>
      bar_chart_finish (bar_containers data "SurveyID") title
        (match question_name with Some name => name | None => question end)
        (calls ++ [plt_figure (12, 6);
                   sns_barplot data "AnswerText" "Proportion" "SurveyID"
                               categorical_palette float_0_8])
  end.
Proof.
  unfold plot_question_grouped_by_answers. unfold plot_bind at 1, plot_lift.
  destruct (add_question_answers_proportions_by_group _ _ _) as [data|e]; [|reflexivity].
  unfold bar_chart_finish, plot_bind at 1 2, call at 1 2.
  rewrite <- app_assoc. cbn [app].
  destruct question_name; reflexivity.
Qed.

(** X21. The two bar charts draw nothing when the table of proportions
    cannot be built: the exception of
    [add_question_answers_proportions_by_group] is passed on before the
    first call. Otherwise both return, both draw the bars of the same
    table, one with the years on the axis and the answers as colours and
    the other the other way round, and every bar has a height above [0] and
    at most [1], within the limits [0, 1] that the chart is given. *)
Theorem X21_bar_charts (raw_df : DataFrame) (question title : string)
  (question_name : option string) (calls : list PlotCall) :
  len raw_df < 2 ^ 63 ->
  let years := plot_question_grouped_by_years raw_df question title question_name calls in
  let answers_ :=
    plot_question_grouped_by_answers raw_df question title question_name calls in
  match add_question_answers_proportions_by_group raw_df (Question question) "SurveyID" with
  | Raises e => years = (Raises e, calls) /\ answers_ = (Raises e, calls)
  | Returns data =>
      fst years = Returns tt /\ fst answers_ = Returns tt /\
      (exists later,
         snd years = calls ++ plt_figure (12, 6)
                     :: sns_barplot data "SurveyID" "Proportion" "AnswerText"
                                    categorical_palette float_0_8 :: later /\
         In (plt_ylim 0 1) later /\ Forall (fun c => bar_heights c = []) later) /\
      (exists later,
         snd answers_ = calls ++ plt_figure (12, 6)
                        :: sns_barplot data "AnswerText" "Proportion" "SurveyID"
                                       categorical_palette float_0_8 :: later /\
         In (plt_ylim 0 1) later /\ Forall (fun c => bar_heights c = []) later) /\
      Forall (fun h => float_lt float_zero h = true /\ float_le h float_one = true)
             (map Proportions.Proportion data)
  end.
Proof.
  intros Hlen years answers_. subst years answers_.
  rewrite plot_question_grouped_by_years_run, plot_question_grouped_by_answers_run.
  destruct (add_question_answers_proportions_by_group raw_df (Question question) "SurveyID")
    as [data|e] eqn:E; [|split; reflexivity].
  rewrite !bar_chart_finish_run. cbn [fst snd].
  assert (forall k, Forall (fun c => bar_heights c = [])
                      (map (fun j => ax_bar_label j "%.2f") (seq 0 k))) as NoBars.
  { intros k. apply Forall_forall. intros c Hc. apply in_map_iff in Hc.
    destruct Hc as (j & <- & _). reflexivity. }
  split; [reflexivity|]. split; [reflexivity|]. split; [|split].
  - eexists. split; [rewrite <- app_assoc; reflexivity|]. split.
    + apply in_or_app. right. left. reflexivity.
    + apply Forall_app. split; [apply NoBars|repeat constructor].
  - eexists. split; [rewrite <- app_assoc; reflexivity|]. split.
    + apply in_or_app. right. left. reflexivity.
    + apply Forall_app. split; [apply NoBars|repeat constructor].
  - rewrite (question_over_years_inv raw_df question data Hlen E).
    pose proof (proportion_rows_facts raw_df (Question question)
                  (fun r => CInt (SurveyID r)) Hlen) as F. cbv zeta in F.
    apply Forall_map. eapply Forall_impl; [|exact F].
    intros row (_ & _ & _ & P & L & _). split; assumption.
Qed.

Lemma X21_bar_charts_witness :
  fst (plot_question_grouped_by_years example_answers "Age" "Ages" None []) = Returns tt /\
  fst (plot_question_grouped_by_answers example_answers "Age" "Ages" None [])
    = Returns tt.
Proof.
  assert (len example_answers < 2 ^ 63) as H by reflexivity.
  pose proof (X21_bar_charts example_answers "Age" "Ages" None [] H) as A.
  cbv zeta in A.
  destruct (add_question_answers_proportions_by_group example_answers (Question "Age")
              "SurveyID") as [data|e] eqn:Ea; [|vm_compute in Ea; discriminate Ea].
  destruct A as (Y & N & _). split; assumption.
Defined.
